(** * billing-core: schema, analytics views and reporting client

    A shallow embedding of the SQL schema (tables, generated column, CHECK
    constraints, the analytics views) and of the data fetching of the React
    reporting client (App.jsx, ProjectSelector.jsx, Dashboard.jsx,
    TransactionList.jsx, SubscriptionList.jsx), with the properties the
    specification states about them and further properties of the code.
    Each fetch is modelled on its own, with every await answered at once;
    [fetchDashboardData] runs the three fetches of the dashboard together
    and is modelled with the answers arriving in any order. Of rendering,
    only the choice of screen, the customer labels, the transaction type
    and the project selector are modelled.

    Conventions.
    - SQL INTEGER / bigint values and the integer-valued JavaScript numbers
      built from them are [Z]. JavaScript adds integer-valued doubles exactly
      below 2^53, and the columns are 32-bit, so the client-side integer sums
      are modelled on [Z]. The chart divides by 100 and is modelled on
      binary64 floats.
    - A nullable column is an [option]; [None] is SQL NULL / JSON null.
    - TIMESTAMPTZ values are microseconds since the Unix epoch; JavaScript
      time values are milliseconds since the epoch.
    - UUIDs, VARCHAR and TEXT are [string]. *)

From Stdlib Require Import ZArith List String Ascii Bool Lia.
From Stdlib Require Import Permutation Sorted.
From Stdlib Require PrimFloat Uint63.
Import ListNotations.

Local Open Scope string_scope.
Local Open Scope Z_scope.
Local Open Scope list_scope.

Set Implicit Arguments.

(* ------------------------------------------------------------------ *)
(** ** Generic list machinery *)
(* ------------------------------------------------------------------ *)

(** Mathematical sum of a list of integers (the reference for every
    aggregate below). *)
Definition sumZ (l : list Z) : Z := fold_right Z.add 0 l.

(** SQL [SUM]: NULL inputs are skipped; the result is NULL when no
    non-NULL input was seen. *)
Fixpoint sql_sum (l : list (option Z)) : option Z :=
  match l with
  | [] => None
  | None :: l' => sql_sum l'
  | Some v :: l' =>
      match sql_sum l' with
      | None => Some v
      | Some s => Some (v + s)
      end
  end.

(** SQL binary minus on nullable operands. *)
Definition sql_minus (a b : option Z) : option Z :=
  match a, b with
  | Some x, Some y => Some (x - y)
  | _, _ => None
  end.

(** The non-NULL values of a column. *)
Fixpoint non_null {A : Type} (l : list (option A)) : list A :=
  match l with
  | [] => []
  | None :: l' => non_null l'
  | Some a :: l' => a :: non_null l'
  end.

(** SQL [COUNT(DISTINCT e)]: number of distinct non-NULL values. *)
Definition count_distinct (l : list (option string)) : Z :=
  Z.of_nat (List.length (nodup string_dec (non_null l))).

(** SQL [COUNT(e)]: number of non-NULL values. *)
Definition sql_count {A : Type} (l : list (option A)) : Z :=
  Z.of_nat (List.length (non_null l)).

(** Distinct values in order of first occurrence (the groups of a
    GROUP BY, the keys of a JavaScript object in insertion order). *)
Definition distinct {A : Type} (dec : forall x y : A, {x = y} + {x <> y})
    (l : list A) : list A :=
  rev (nodup dec (rev l)).

(** Insertion sort by a boolean "comes before or ties with" relation; it
    is stable. Used for ORDER BY. *)
Fixpoint insert_by {A : Type} (leb : A -> A -> bool) (x : A) (l : list A)
    : list A :=
  match l with
  | [] => [x]
  | y :: l' => if leb x y then x :: y :: l' else y :: insert_by leb x l'
  end.

Fixpoint sort_by {A : Type} (leb : A -> A -> bool) (l : list A) : list A :=
  match l with
  | [] => []
  | x :: l' => insert_by leb x (sort_by leb l')
  end.

(** JavaScript [arr.slice(-n)]: the last [n] elements (all of them when
    there are fewer). *)
Definition slice_last {A : Type} (n : nat) (l : list A) : list A :=
  skipn (List.length l - n) l.

(* ------------------------------------------------------------------ *)
(** ** Civil calendar (proleptic Gregorian), used by the concrete time
       zone and locale instances *)
(* ------------------------------------------------------------------ *)

Module Calendar.

Definition usPerDay : Z := 86400000000.
Definition msPerDay : Z := 86400000.

(** Day number (days since 1970-01-01) of a civil date. *)
Definition days_from_civil (y m d : Z) : Z :=
  let y' := if m <=? 2 then y - 1 else y in
  let era := y' / 400 in
  let yoe := y' - era * 400 in
  let mp := (m + 9) mod 12 in
  let doy := (153 * mp + 2) / 5 + d - 1 in
  let doe := yoe * 365 + yoe / 4 - yoe / 100 + doy in
  era * 146097 + doe - 719468.

(** Civil date (year, month 1..12, day 1..31) of a day number. *)
Definition civil_from_days (z : Z) : Z * Z * Z :=
  let z' := z + 719468 in
  let era := z' / 146097 in
  let doe := z' - era * 146097 in
  let yoe := (doe - doe / 1460 + doe / 36524 - doe / 146096) / 365 in
  let doy := doe - (365 * yoe + yoe / 4 - yoe / 100) in
  let mp := (5 * doy + 2) / 153 in
  let d := doy - (153 * mp + 2) / 5 + 1 in
  let m := if mp <? 10 then mp + 3 else mp - 9 in
  let y := yoe + era * 400 in
  (if m <=? 2 then y + 1 else y, m, d).

(** [DATE_TRUNC('month', ts)::DATE] for a session whose time zone is UTC:
    the day number of the first day of the month of [ts]. *)
Definition date_trunc_month_utc (ts : Z) : Z :=
  let '(y, m, _) := civil_from_days (ts / usPerDay) in
  days_from_civil y m 1.

(** Microsecond timestamp of a civil UTC date and time of day. *)
Definition timestamptz (y m d hh mm ss : Z) : Z :=
  days_from_civil y m d * usPerDay + ((hh * 60 + mm) * 60 + ss) * 1000000.

Definition digit (n : Z) : string :=
  String (ascii_of_nat (48 + Z.to_nat n)) EmptyString.

(** Decimal numeral of a non-negative integer below 10000 without
    leading zeros. *)
Definition numeral (n : Z) : string :=
  if n <? 10 then digit n
  else if n <? 100 then String.concat "" [digit (n / 10); digit (n mod 10)]
  else if n <? 1000 then
    String.concat "" [digit (n / 100); digit (n / 10 mod 10); digit (n mod 10)]
  else String.concat "" [digit (n / 1000); digit (n / 100 mod 10);
                         digit (n / 10 mod 10); digit (n mod 10)].

(** [new Date(ms).toLocaleDateString()] for a viewer in the en-US locale
    whose local time zone is UTC: M/D/YYYY. *)
Definition toLocaleDateString_enUS_utc (ms : Z) : string :=
  let '(y, m, d) := civil_from_days (ms / msPerDay) in
  String.concat "/" [numeral m; numeral d; numeral y].

End Calendar.

(* ------------------------------------------------------------------ *)
(** ** GROUP BY *)
(* ------------------------------------------------------------------ *)

Section GroupBy.

Variables (A K : Type).
Variable key : A -> K.
Variable dec : forall x y : K, {x = y} + {x <> y}.

(** The row [x] belongs to the group of key [k]. *)
Definition in_group (k : K) (x : A) : bool :=
  if dec (key x) k then true else false.

(** One key per group, in order of first appearance. *)
Definition group_keys (l : list A) : list K := distinct dec (map key l).

(** The rows of one group, in input order. *)
Definition group (l : list A) (k : K) : list A := filter (in_group k) l.

End GroupBy.

(* ------------------------------------------------------------------ *)
(** ** Schema (columns that no view, constraint or client query reads
       are left out) *)
(* ------------------------------------------------------------------ *)

Definition uuid := string.

(** Table [projects]. *)
Record project := {
  p_id : uuid;                      (* UUID PRIMARY KEY *)
  p_name : string                   (* VARCHAR(255) NOT NULL *)
}.

(** Table [customers]. *)
Record customer := {
  c_id : uuid;                      (* UUID PRIMARY KEY *)
  c_project_id : uuid;              (* UUID NOT NULL REFERENCES projects *)
  c_email : option string;          (* VARCHAR(255) *)
  c_name : option string            (* VARCHAR(255) *)
}.

(** Table [transactions]. *)
Record transaction := {
  t_id : uuid;                      (* UUID PRIMARY KEY *)
  t_project_id : uuid;              (* UUID NOT NULL REFERENCES projects *)
  t_customer_id : option uuid;      (* UUID REFERENCES customers *)
  t_external_id : string;           (* VARCHAR(255) NOT NULL *)
  t_type : string;                  (* VARCHAR(50) NOT NULL *)
  t_status : string;                (* VARCHAR(50) NOT NULL *)
  t_amount : Z;                     (* INTEGER NOT NULL *)
  t_fee_amount : option Z;          (* INTEGER DEFAULT 0 *)
  t_net_amount : option Z;          (* INTEGER GENERATED ALWAYS AS
                                       (amount - fee_amount) STORED *)
  t_created_at : option Z           (* TIMESTAMPTZ DEFAULT NOW() *)
}.

(** Table [subscriptions]. *)
Record subscription := {
  s_id : uuid;                      (* UUID PRIMARY KEY *)
  s_project_id : uuid;              (* UUID NOT NULL REFERENCES projects *)
  s_customer_id : uuid;             (* UUID NOT NULL REFERENCES customers *)
  s_amount : Z;                     (* INTEGER NOT NULL *)
  s_status : string;                (* VARCHAR(50) NOT NULL *)
  s_cancel_at_period_end : option bool; (* BOOLEAN DEFAULT FALSE *)
  s_created_at : option Z           (* TIMESTAMPTZ DEFAULT NOW() *)
}.

Record database := {
  projects : list project;
  customers : list customer;
  transactions : list transaction;
  subscriptions : list subscription
}.

(** [PRIMARY KEY] of [projects]. *)
Definition projects_pk (db : database) : Prop :=
  NoDup (map p_id (projects db)).

(* ------------------------------------------------------------------ *)
(** ** Analytics views *)
(* ------------------------------------------------------------------ *)

(** [ORDER BY e DESC] on a nullable key: PostgreSQL puts NULLs first in
    descending order. [desc_leb a b] holds when [a] sorts before [b] or
    ties with it. *)
Definition desc_leb (a b : option Z) : bool :=
  match a, b with
  | None, _ => true
  | Some _, None => false
  | Some x, Some y => y <=? x
  end.

Definition option_Z_dec : forall a b : option Z, {a = b} + {a <> b}.
Proof. decide equality; apply Z.eq_dec. Defined.

(** A row of [monthly_revenue_by_project]. *)
Record monthly_revenue := {
  mr_month : option Z;              (* DATE, as a day number *)
  mr_project_id : uuid;
  mr_project_name : string;
  mr_total_revenue : option Z;
  mr_total_fees : option Z;
  mr_net_revenue : option Z;
  mr_paying_customers : Z
}.

(** A row of [active_subscriptions_by_project]. *)
Record active_subscriptions := {
  as_project_id : uuid;
  as_project_name : string;
  as_total_active : Z;
  as_mrr : option Z;
  as_scheduled_cancellations : Z
}.

Definition mr_key : Type := option Z * uuid * string.

Definition mr_key_dec : forall x y : mr_key, {x = y} + {x <> y}.
Proof.
  intros [[m1 i1] n1] [[m2 i2] n2].
  destruct (option_Z_dec m1 m2) as [Hm | Hm];
    [ destruct (string_dec i1 i2) as [Hi | Hi];
      [ destruct (string_dec n1 n2) as [Hn | Hn];
        [ left; congruence | right; congruence ]
      | right; congruence ]
    | right; congruence ].
Defined.

Definition as_key : Type := uuid * string.

Definition as_key_dec : forall x y : as_key, {x = y} + {x <> y}.
Proof.
  intros [i1 n1] [i2 n2].
  destruct (string_dec i1 i2) as [Hi | Hi];
    [ destruct (string_dec n1 n2) as [Hn | Hn];
      [ left; congruence | right; congruence ]
    | right; congruence ].
Defined.

Definition succeeded (t : transaction) : bool :=
  String.eqb (t_status t) "succeeded".

(** [FROM rows r JOIN projects p ON r.project_id = p.id]: every pair of a
    row and a project that the join condition relates, row by row. *)
Definition join_projects {R : Type} (project_id : R -> uuid)
    (rows : list R) (ps : list project) : list (R * project) :=
  flat_map
    (fun r =>
       map (pair r)
         (filter (fun p => String.eqb (project_id r) (p_id p)) ps))
    rows.

Section Views.

(** [DATE_TRUNC('month', ts)::DATE] depends on the session time zone. *)
Variable date_trunc_month : Z -> Z.
(** The database collation: [collate_leb a b] when [a] sorts before [b]
    or ties with it. *)
Variable collate_leb : string -> string -> bool.

Definition month_of (t : transaction) : option Z :=
  option_map date_trunc_month (t_created_at t).

(** [FROM transactions t JOIN projects p ON t.project_id = p.id]. *)
Definition transactions_join_projects (db : database)
    : list (transaction * project) :=
  join_projects t_project_id (transactions db) (projects db).

(** [GROUP BY month, p.id, p.name]. *)
Definition mr_key_of (tp : transaction * project) : mr_key :=
  (month_of (fst tp), p_id (snd tp), p_name (snd tp)).

(** The select list of [monthly_revenue_by_project] over one group. *)
Definition mr_row (g : list (transaction * project)) (k : mr_key)
    : monthly_revenue :=
  let ts := map fst g in
  {| mr_month := fst (fst k);
     mr_project_id := snd (fst k);
     mr_project_name := snd k;
     mr_total_revenue :=
       sql_sum (map (fun t => if succeeded t then Some (t_amount t)
                              else Some 0) ts);
     mr_total_fees :=
       sql_sum (map (fun t => if succeeded t then t_fee_amount t
                              else Some 0) ts);
     mr_net_revenue :=
       sql_sum (map (fun t => if succeeded t
                              then sql_minus (Some (t_amount t))
                                     (t_fee_amount t)
                              else Some 0) ts);
     mr_paying_customers :=
       count_distinct
         (map (fun t => if succeeded t && String.eqb (t_type t) "payment"
                        then t_customer_id t else None) ts) |}.

(** [ORDER BY month DESC, p.name]. *)
Definition mr_order (r1 r2 : monthly_revenue) : bool :=
  if option_Z_dec (mr_month r1) (mr_month r2)
  then collate_leb (mr_project_name r1) (mr_project_name r2)
  else desc_leb (mr_month r1) (mr_month r2).

Definition monthly_revenue_by_project (db : database)
    : list monthly_revenue :=
  let j := transactions_join_projects db in
  sort_by mr_order
    (map (fun k => mr_row (group mr_key_of mr_key_dec j k) k)
       (group_keys mr_key_of mr_key_dec j)).

(** [FROM subscriptions s JOIN projects p ON s.project_id = p.id
     WHERE s.status = 'active']. *)
Definition active_subscriptions_join_projects (db : database)
    : list (subscription * project) :=
  join_projects s_project_id
    (filter (fun s => String.eqb (s_status s) "active") (subscriptions db))
    (projects db).

(** [GROUP BY p.id, p.name]. *)
Definition as_key_of (sp : subscription * project) : as_key :=
  (p_id (snd sp), p_name (snd sp)).

Definition as_row (g : list (subscription * project)) (k : as_key)
    : active_subscriptions :=
  let ss := map fst g in
  {| as_project_id := fst k;
     as_project_name := snd k;
     as_total_active := Z.of_nat (List.length ss);
     as_mrr := sql_sum (map (fun s => Some (s_amount s)) ss);
     as_scheduled_cancellations :=
       sql_count
         (map (fun s => match s_cancel_at_period_end s with
                        | Some true => Some 1
                        | _ => None
                        end) ss) |}.

(** The view has no ORDER BY; rows come out in order of first
    appearance of their group. *)
Definition active_subscriptions_by_project (db : database)
    : list active_subscriptions :=
  let j := active_subscriptions_join_projects db in
  map (fun k => as_row (group as_key_of as_key_dec j k) k)
    (group_keys as_key_of as_key_dec j).

End Views.

(* ------------------------------------------------------------------ *)
(** ** Writing to [transactions]: INSERT, UPDATE, DELETE

    The dashboard never writes; rows are produced by statements that an
    external ingestion system runs against the schema. The table
    definition decides what such a statement can store. *)
(* ------------------------------------------------------------------ *)

Inductive sql_error :=
| not_null_violation (column : string)
| check_violation (constraint : string)
| unique_violation (constraint : string)
| foreign_key_violation (constraint : string)
| numeric_value_out_of_range
| generated_always (column : string).

Inductive sql_result (A : Type) :=
| SqlOk (a : A)
| SqlError (e : sql_error).

Arguments SqlOk {A} a.
Arguments SqlError {A} e.

Definition sql_bind {A B : Type} (r : sql_result A) (k : A -> sql_result B)
    : sql_result B :=
  match r with
  | SqlOk a => k a
  | SqlError e => SqlError e
  end.

Notation "x <-- r ;;; k" := (sql_bind r (fun x => k))
  (at level 61, r at next level, right associativity).

(** What a statement gives for one column: nothing or the keyword DEFAULT,
    or an explicit value, possibly NULL. *)
Inductive col_input (A : Type) :=
| DEFAULT
| VALUE (v : option A).

Arguments DEFAULT {A}.
Arguments VALUE {A} v.

Definition int4_min : Z := -2147483648.
Definition int4_max : Z := 2147483647.

Definition in_int4 (z : Z) : bool := (int4_min <=? z) && (z <=? int4_max).

(** A value entering an INTEGER column. *)
Definition int4_in (v : option Z) : sql_result (option Z) :=
  match v with
  | None => SqlOk None
  | Some z => if in_int4 z then SqlOk (Some z)
              else SqlError numeric_value_out_of_range
  end.

(** INTEGER minus INTEGER: NULL if an operand is NULL, an error (never a
    wrap-around) when the difference leaves the 32-bit range. *)
Definition int4_minus (a b : option Z) : sql_result (option Z) :=
  int4_in (sql_minus a b).

(** A NOT NULL column. *)
Definition not_null {A : Type} (column : string) (v : option A)
    : sql_result A :=
  match v with
  | Some a => SqlOk a
  | None => SqlError (not_null_violation column)
  end.

(** A CHECK constraint passes when its condition is true or unknown. *)
Definition check (constraint : string) (cond : option bool)
    : sql_result unit :=
  match cond with
  | Some false => SqlError (check_violation constraint)
  | _ => SqlOk tt
  end.

(** The column value of a new row: the given one, or the column default. *)
Definition column_value {A : Type} (i : col_input A) (default : option A)
    : option A :=
  match i with
  | DEFAULT => default
  | VALUE v => v
  end.

(** [GENERATED ALWAYS]: the statement may only give DEFAULT. *)
Definition generated_column {A : Type} (column : string) (i : col_input A)
    : sql_result unit :=
  match i with
  | DEFAULT => SqlOk tt
  | VALUE _ => SqlError (generated_always column)
  end.

(** The values of an [INSERT INTO transactions]. *)
Record insert_values := {
  iv_id : col_input uuid;
  iv_project_id : col_input uuid;
  iv_customer_id : col_input uuid;
  iv_external_id : col_input string;
  iv_type : col_input string;
  iv_status : col_input string;
  iv_amount : col_input Z;
  iv_fee_amount : col_input Z;
  iv_net_amount : col_input Z;
  iv_created_at : col_input Z
}.

(** The assignments of an [UPDATE transactions SET ...] to the columns the
    generated column depends on, to the generated column itself and to
    [status]; [None] leaves the column as it is. *)
Record update_set := {
  us_status : option (col_input string);
  us_amount : option (col_input Z);
  us_fee_amount : option (col_input Z);
  us_net_amount : option (col_input Z)
}.

Inductive statement :=
| INSERT (iv : insert_values)
| UPDATE (set : update_set) (selects : transaction -> bool)
| DELETE (selects : transaction -> bool).

(** What the server supplies when a statement runs. *)
Record session := {
  NOW : Z;                          (* NOW() *)
  gen_random_uuid : uuid;           (* gen_random_uuid() *)
  ses_projects : list project;      (* the referenced tables *)
  ses_customers : list customer
}.

(** Constraints of the table on a row about to be stored, given the other
    rows of the table. *)
Definition table_constraints (ses : session) (others : list transaction)
    (t : transaction) : sql_result unit :=
  _ <-- check "amount_check" (Some (0 <=? t_amount t)) ;;;
  _ <-- check "fee_check" (option_map (Z.leb 0) (t_fee_amount t)) ;;;
  _ <-- (if existsb (fun o => String.eqb (t_id o) (t_id t)) others
         then SqlError (unique_violation "transactions_pkey")
         else SqlOk tt) ;;;
  _ <-- (if existsb (fun o => String.eqb (t_project_id o) (t_project_id t)
                              && String.eqb (t_external_id o)
                                   (t_external_id t)) others
         then SqlError
                (unique_violation "transactions_project_id_external_id_key")
         else SqlOk tt) ;;;
  _ <-- (if existsb (fun p => String.eqb (p_id p) (t_project_id t))
              (ses_projects ses)
         then SqlOk tt
         else SqlError
                (foreign_key_violation "transactions_project_id_fkey")) ;;;
  match t_customer_id t with
  | None => SqlOk tt
  | Some c =>
      if existsb (fun k => String.eqb (c_id k) c) (ses_customers ses)
      then SqlOk tt
      else SqlError (foreign_key_violation "transactions_customer_id_fkey")
  end.

(** The row an INSERT builds: column values and defaults, then the
    generated column, then the constraints. *)
Definition insert_row (ses : session) (tbl : list transaction)
    (iv : insert_values) : sql_result transaction :=
  _ <-- generated_column "net_amount" (iv_net_amount iv) ;;;
  id <-- not_null "id"
           (column_value (iv_id iv) (Some (gen_random_uuid ses))) ;;;
  project_id <-- not_null "project_id"
                   (column_value (iv_project_id iv) None) ;;;
  external_id <-- not_null "external_id"
                    (column_value (iv_external_id iv) None) ;;;
  type <-- not_null "type" (column_value (iv_type iv) None) ;;;
  status <-- not_null "status" (column_value (iv_status iv) None) ;;;
  amount' <-- int4_in (column_value (iv_amount iv) None) ;;;
  amount <-- not_null "amount" amount' ;;;
  fee_amount <-- int4_in (column_value (iv_fee_amount iv) (Some 0)) ;;;
  net_amount <-- int4_minus (Some amount) fee_amount ;;;
  let t := {| t_id := id;
              t_project_id := project_id;
              t_customer_id := column_value (iv_customer_id iv) None;
              t_external_id := external_id;
              t_type := type;
              t_status := status;
              t_amount := amount;
              t_fee_amount := fee_amount;
              t_net_amount := net_amount;
              t_created_at :=
                column_value (iv_created_at iv) (Some (NOW ses)) |} in
  _ <-- table_constraints ses tbl t ;;;
  SqlOk t.

(** The new version of a row under an UPDATE. *)
Definition update_row (ses : session) (others : list transaction)
    (set : update_set) (t : transaction) : sql_result transaction :=
  _ <-- match us_net_amount set with
        | None => SqlOk tt
        | Some i => generated_column "net_amount" i
        end ;;;
  status <-- match us_status set with
             | None => SqlOk (t_status t)
             | Some i => not_null "status" (column_value i None)
             end ;;;
  amount <-- match us_amount set with
             | None => SqlOk (t_amount t)
             | Some i =>
                 a <-- int4_in (column_value i None) ;;;
                 not_null "amount" a
             end ;;;
  fee_amount <-- match us_fee_amount set with
                 | None => SqlOk (t_fee_amount t)
                 | Some i => int4_in (column_value i (Some 0))
                 end ;;;
  net_amount <-- int4_minus (Some amount) fee_amount ;;;
  let t' := {| t_id := t_id t;
               t_project_id := t_project_id t;
               t_customer_id := t_customer_id t;
               t_external_id := t_external_id t;
               t_type := t_type t;
               t_status := status;
               t_amount := amount;
               t_fee_amount := fee_amount;
               t_net_amount := net_amount;
               t_created_at := t_created_at t |} in
  _ <-- table_constraints ses others t' ;;;
  SqlOk t'.

(** UPDATE over the table: every row the WHERE clause picks is replaced;
    one failing row fails the statement. [done] holds the rows already
    passed, in reverse. *)
Fixpoint update_rows (ses : session) (set : update_set)
    (selects : transaction -> bool) (done todo : list transaction)
    : sql_result (list transaction) :=
  match todo with
  | [] => SqlOk (rev done)
  | t :: todo' =>
      if selects t then
        t' <-- update_row ses (rev done ++ todo') set t ;;;
        update_rows ses set selects (t' :: done) todo'
      else update_rows ses set selects (t :: done) todo'
  end.

Definition exec (ses : session) (tbl : list transaction) (stmt : statement)
    : sql_result (list transaction) :=
  match stmt with
  | INSERT iv =>
      t <-- insert_row ses tbl iv ;;;
      SqlOk (tbl ++ [t])
  | UPDATE set selects => update_rows ses set selects [] tbl
  | DELETE selects => SqlOk (filter (fun t => negb (selects t)) tbl)
  end.

(** A history of the table: statements run one after the other from the
    empty table, a failed statement leaving the table as it was. *)
Definition run (history : list (session * statement)) : list transaction :=
  fold_left
    (fun tbl step =>
       match exec (fst step) tbl (snd step) with
       | SqlOk tbl' => tbl'
       | SqlError _ => tbl
       end)
    history [].

(* ------------------------------------------------------------------ *)
(** ** The data-access layer seen from the client (supabase-js) *)
(* ------------------------------------------------------------------ *)

(** An argument of a filter. The ISO-8601 text that [toISOString] renders
    denotes its time value exactly, so it is kept as that time value
    (milliseconds). *)
Inductive value :=
| text (s : string)
| timestamp (ms : Z).

Inductive condition :=
| cond_eq (column : string) (v : value)
| cond_gte (column : string) (v : value).

(** A query as the builder calls accumulate it. *)
Record query := {
  q_from : string;
  q_select : string;
  q_filters : list condition;
  q_order : option (string * bool);   (* column, ascending *)
  q_limit : option nat
}.

Definition from (table : string) : query :=
  {| q_from := table; q_select := "*"; q_filters := [];
     q_order := None; q_limit := None |}.

Definition select (columns : string) (q : query) : query :=
  {| q_from := q_from q; q_select := columns; q_filters := q_filters q;
     q_order := q_order q; q_limit := q_limit q |}.

Definition eq (column : string) (v : string) (q : query) : query :=
  {| q_from := q_from q; q_select := q_select q;
     q_filters := q_filters q ++ [cond_eq column (text v)];
     q_order := q_order q; q_limit := q_limit q |}.

Definition gte (column : string) (v : value) (q : query) : query :=
  {| q_from := q_from q; q_select := q_select q;
     q_filters := q_filters q ++ [cond_gte column v];
     q_order := q_order q; q_limit := q_limit q |}.

Definition order (column : string) (ascending : bool) (q : query) : query :=
  {| q_from := q_from q; q_select := q_select q; q_filters := q_filters q;
     q_order := Some (column, ascending); q_limit := q_limit q |}.

Definition limit (n : nat) (q : query) : query :=
  {| q_from := q_from q; q_select := q_select q; q_filters := q_filters q;
     q_order := q_order q; q_limit := Some n |}.

(** An error value: what the data-access layer reports or what a rejected
    promise carries. *)
Definition js_error := string.

(** How an awaited query settles: the promise is fulfilled with
    [{ data, error }], or it is rejected. *)
Inductive settled (R : Type) :=
| Fulfilled (data : option (list R)) (error : option js_error)
| Rejected (reason : js_error).

Arguments Fulfilled {R} data error.
Arguments Rejected {R} reason.

(** A transaction row with the embedded resource [customers (name, email)].
    The select list is not applied: it only hides columns that the code
    does not read. *)
Record transaction_row := {
  row : transaction;
  row_customers : option customer
}.

(** The service the client talks to. *)
Record backend := {
  query_transactions : query -> settled transaction_row;
  query_subscriptions : query -> settled subscription;
  query_customers : query -> settled customer
}.

(** *** Evaluation of a query by a healthy service over a database *)

(** A WHERE condition on a transaction as a predicate on rows; [None] when
    it is not one the service understands here. A comparison with NULL is
    not true. *)
Definition transaction_condition (c : condition)
    : option (transaction -> bool) :=
  match c with
  | cond_eq "project_id" (text v) =>
      Some (fun t => String.eqb (t_project_id t) v)
  | cond_eq "status" (text v) =>
      Some (fun t => String.eqb (t_status t) v)
  | cond_gte "created_at" (timestamp ms) =>
      Some (fun t => match t_created_at t with
                     | Some us => ms * 1000 <=? us
                     | None => false
                     end)
  | _ => None
  end.

Definition subscription_condition (c : condition)
    : option (subscription -> bool) :=
  match c with
  | cond_eq "project_id" (text v) =>
      Some (fun s => String.eqb (s_project_id s) v)
  | cond_eq "status" (text v) =>
      Some (fun s => String.eqb (s_status s) v)
  | _ => None
  end.

Definition customer_condition (c : condition) : option (customer -> bool) :=
  match c with
  | cond_eq "project_id" (text v) =>
      Some (fun k => String.eqb (c_project_id k) v)
  | _ => None
  end.

(** The conjunction of the conditions of a query. *)
Fixpoint conjunction {R : Type} (interp : condition -> option (R -> bool))
    (cs : list condition) : option (R -> bool) :=
  match cs with
  | [] => Some (fun _ => true)
  | c :: cs' =>
      match interp c, conjunction interp cs' with
      | Some p, Some p' => Some (fun r => p r && p' r)
      | _, _ => None
      end
  end.

(** The rows the conditions keep, or [None] for a malformed request. *)
Definition where_ {R : Type} (interp : condition -> option (R -> bool))
    (cs : list condition) (rows : list R) : option (list R) :=
  option_map (fun p => filter p rows) (conjunction interp cs).

(** [ORDER BY created_at]: ascending puts NULLs last, descending first;
    no order clause leaves the rows as stored. *)
Definition order_by_created_at {R : Type} (created_at : R -> option Z)
    (o : option (string * bool)) (rows : list R) : option (list R) :=
  match o with
  | None => Some rows
  | Some ("created_at", true) =>
      Some (sort_by (fun a b => desc_leb (created_at b) (created_at a)) rows)
  | Some ("created_at", false) =>
      Some (sort_by (fun a b => desc_leb (created_at a) (created_at b)) rows)
  | Some _ => None
  end.

Definition apply_limit {R : Type} (n : option nat) (rows : list R) : list R :=
  match n with
  | None => rows
  | Some k => firstn k rows
  end.

Definition bad_request : js_error := "PGRST100".

Definition respond {R : Type} (rows : option (list R)) : settled R :=
  match rows with
  | Some l => Fulfilled (Some l) None
  | None => Fulfilled None (Some bad_request)
  end.

(** The many-to-one embedding [customers (name, email)]. *)
Definition embed_customers (db : database) (t : transaction)
    : transaction_row :=
  {| row := t;
     row_customers :=
       match t_customer_id t with
       | None => None
       | Some c => find (fun k => String.eqb (c_id k) c) (customers db)
       end |}.

Definition select_rows {R : Type} (interp : condition -> option (R -> bool))
    (created_at : R -> option Z) (q : query) (rows : list R)
    : option (list R) :=
  match where_ interp (q_filters q) rows with
  | None => None
  | Some kept =>
      match order_by_created_at created_at (q_order q) kept with
      | None => None
      | Some sorted => Some (apply_limit (q_limit q) sorted)
      end
  end.

(** The service answering from [db] without failure. *)
Definition supabase (db : database) : backend :=
  {| query_transactions q :=
       respond
         (option_map (map (embed_customers db))
            (select_rows transaction_condition t_created_at q
               (transactions db)));
     query_subscriptions q :=
       respond
         (select_rows subscription_condition s_created_at q
            (subscriptions db));
     query_customers q :=
       respond
         (select_rows customer_condition (fun _ => None) q (customers db)) |}.

(* ------------------------------------------------------------------ *)
(** ** Component code: state, console and requests

    An async function of a component is a computation over the component
    state that may log to the console, send queries and throw. *)
(* ------------------------------------------------------------------ *)

Record response (R : Type) := {
  data : option (list R);
  error : option js_error
}.

Inductive completion (A : Type) :=
| Normal (a : A)
| Throw (e : js_error).

Arguments Normal {A} a.
Arguments Throw {A} e.

Section Component.

Variable St : Type.

Record world := {
  component : St;                        (* the useState slots *)
  console : list (string * js_error);    (* console.error calls *)
  requests : list query                  (* queries sent, in order *)
}.

Definition M (A : Type) : Type := world -> completion A * world.

Definition ret {A : Type} (a : A) : M A := fun w => (Normal a, w).

Definition bind {A B : Type} (m : M A) (k : A -> M B) : M B :=
  fun w =>
    match m w with
    | (Normal a, w') => k a w'
    | (Throw e, w') => (Throw e, w')
    end.

Definition throw {A : Type} (e : js_error) : M A := fun w => (Throw e, w).

Definition get_state : M St := fun w => (Normal (component w), w).

Definition set_state (f : St -> St) : M unit :=
  fun w =>
    (Normal tt,
     {| component := f (component w); console := console w;
        requests := requests w |}).

Definition console_error (msg : string) (e : js_error) : M unit :=
  fun w =>
    (Normal tt,
     {| component := component w; console := console w ++ [(msg, e)];
        requests := requests w |}).

(** [await query]: the query is sent; a rejected promise throws. *)
Definition await {R : Type} (send : query -> settled R) (q : query)
    : M (response R) :=
  fun w =>
    let w' := {| component := component w; console := console w;
                 requests := requests w ++ [q] |} in
    match send q with
    | Fulfilled d e => (Normal {| data := d; error := e |}, w')
    | Rejected reason => (Throw reason, w')
    end.

(** [try { body } catch (error) { handler } finally { final }]. *)
Definition try_catch_finally {A : Type} (body : M A)
    (handler : js_error -> M A) (final : M unit) : M A :=
  fun w =>
    let (c, w1) := body w in
    let (c', w2) := match c with
                    | Normal a => (Normal a, w1)
                    | Throw e => handler e w1
                    end in
    let (f, w3) := final w2 in
    match f with
    | Normal _ => (c', w3)
    | Throw e => (Throw e, w3)
    end.

(** A component as first rendered: nothing logged, nothing sent. *)
Definition mounted (s : St) : world :=
  {| component := s; console := []; requests := [] |}.

End Component.

Arguments ret {St A} a.
Arguments throw {St A} e.
Arguments get_state {St}.
Arguments await {St R} send q.

Notation "x <- m ;; k" := (bind m (fun x => k))
  (at level 61, m at next level, right associativity).
Notation "m ;; k" := (bind m (fun _ => k))
  (at level 61, right associativity).

(** [data || []]. *)
Definition or_empty {R : Type} (d : option (list R)) : list R :=
  match d with
  | Some l => l
  | None => []
  end.

(** A nullable number under [+]: [null] converts to 0. *)
Definition to_number (v : option Z) : Z :=
  match v with
  | Some z => z
  | None => 0
  end.

(* ------------------------------------------------------------------ *)
(** ** TransactionList.jsx *)
(* ------------------------------------------------------------------ *)

Record TransactionList := {
  tl_transactions : list transaction_row;   (* useState([]) *)
  tl_loading : bool;                        (* useState(true) *)
  tl_filter : string                        (* useState('all') *)
}.

Definition TransactionList_initial : TransactionList :=
  {| tl_transactions := []; tl_loading := true; tl_filter := "all" |}.

Definition setTransactions (l : list transaction_row)
    : M TransactionList unit :=
  set_state (fun s => {| tl_transactions := l; tl_loading := tl_loading s;
                         tl_filter := tl_filter s |}).

Definition setLoading (b : bool) : M TransactionList unit :=
  set_state (fun s => {| tl_transactions := tl_transactions s;
                         tl_loading := b; tl_filter := tl_filter s |}).

Definition setFilter (f : string) : M TransactionList unit :=
  set_state (fun s => {| tl_transactions := tl_transactions s;
                         tl_loading := tl_loading s; tl_filter := f |}).

(** The query [fetchTransactions] builds for a project and a filter. *)
Definition transactions_query (projectId : uuid) (filter : string) : query :=
  let query :=
    order "created_at" false
      (eq "project_id" projectId
         (select "*, customers (name, email)" (from "transactions"))) in
  if negb (String.eqb filter "all")
  then eq "status" filter query
  else query.

Definition fetchTransactions (supabase : backend) (projectId : uuid)
    : M TransactionList unit :=
  setLoading true ;;
  try_catch_finally
    (s <- get_state ;;
     r <- await (query_transactions supabase)
            (transactions_query projectId (tl_filter s)) ;;
     match error r with
     | Some error => throw error
     | None => setTransactions (or_empty (data r))
     end)
    (fun error => console_error "Error fetching transactions:" error)
    (setLoading false).

(* ------------------------------------------------------------------ *)
(** ** SubscriptionList.jsx *)
(* ------------------------------------------------------------------ *)

Record SubscriptionList := {
  sl_subscriptions : list subscription;     (* useState([]) *)
  sl_loading : bool;                        (* useState(true) *)
  sl_filter : string                        (* useState('all') *)
}.

Definition setSubscriptions (l : list subscription)
    : M SubscriptionList unit :=
  set_state (fun s => {| sl_subscriptions := l; sl_loading := sl_loading s;
                         sl_filter := sl_filter s |}).

Definition setLoading_subscriptions (b : bool) : M SubscriptionList unit :=
  set_state (fun s => {| sl_subscriptions := sl_subscriptions s;
                         sl_loading := b; sl_filter := sl_filter s |}).

(** The query [fetchSubscriptions] builds for a project and a filter. *)
Definition subscriptions_query (projectId : uuid) (filter : string)
    : query :=
  let query :=
    order "created_at" false
      (eq "project_id" projectId
         (select "*, customers (name, email)" (from "subscriptions"))) in
  if negb (String.eqb filter "all")
  then eq "status" filter query
  else query.

Definition fetchSubscriptions (supabase : backend) (projectId : uuid)
    : M SubscriptionList unit :=
  setLoading_subscriptions true ;;
  try_catch_finally
    (s <- get_state ;;
     r <- await (query_subscriptions supabase)
            (subscriptions_query projectId (sl_filter s)) ;;
     match error r with
     | Some error => throw error
     | None => setSubscriptions (or_empty (data r))
     end)
    (fun error => console_error "Error fetching subscriptions:" error)
    (setLoading_subscriptions false).

(* ------------------------------------------------------------------ *)
(** ** Dashboard.jsx *)
(* ------------------------------------------------------------------ *)

Record stats := {
  totalRevenue : Z;
  totalFees : Z;
  netRevenue : Z;
  totalTransactions : Z;
  totalCustomers : Z;
  activeSubscriptions : Z;
  mrr : Z
}.

(** A point of the trend chart. *)
Record bucket := {
  date : string;
  revenue : PrimFloat.float
}.

Record Dashboard := {
  d_stats : stats;
  d_recentTransactions : list transaction_row;
  d_chartData : list bucket;
  d_loading : bool
}.

Definition Dashboard_initial : Dashboard :=
  {| d_stats := {| totalRevenue := 0; totalFees := 0; netRevenue := 0;
                   totalTransactions := 0; totalCustomers := 0;
                   activeSubscriptions := 0; mrr := 0 |};
     d_recentTransactions := [];
     d_chartData := [];
     d_loading := true |}.

Definition setStats (s : stats) : M Dashboard unit :=
  set_state (fun d => {| d_stats := s;
                         d_recentTransactions := d_recentTransactions d;
                         d_chartData := d_chartData d;
                         d_loading := d_loading d |}).

Definition setRecentTransactions (l : list transaction_row)
    : M Dashboard unit :=
  set_state (fun d => {| d_stats := d_stats d;
                         d_recentTransactions := l;
                         d_chartData := d_chartData d;
                         d_loading := d_loading d |}).

Definition setChartData (l : list bucket) : M Dashboard unit :=
  set_state (fun d => {| d_stats := d_stats d;
                         d_recentTransactions := d_recentTransactions d;
                         d_chartData := l;
                         d_loading := d_loading d |}).

(** [arr?.length || 0]. *)
Definition length_or_zero {R : Type} (d : option (list R)) : Z :=
  match d with
  | Some l => Z.of_nat (List.length l)
  | None => 0
  end.

Definition fetchStats (supabase : backend) (projectId : uuid)
    : M Dashboard unit :=
  r1 <- await (query_transactions supabase)
          (eq "project_id" projectId
             (select "amount, fee_amount, status" (from "transactions"))) ;;
  r2 <- await (query_customers supabase)
          (eq "project_id" projectId (select "id" (from "customers"))) ;;
  r3 <- await (query_subscriptions supabase)
          (eq "status" "active"
             (eq "project_id" projectId
                (select "amount, status" (from "subscriptions")))) ;;
  let transactions := data r1 in
  let customers := data r2 in
  let subscriptions := data r3 in
  let succeededTransactions :=
    or_empty
      (option_map
         (filter (fun t => String.eqb (t_status (row t)) "succeeded"))
         transactions) in
  let totalRevenue :=
    fold_left (fun sum t => sum + t_amount (row t)) succeededTransactions 0 in
  let totalFees :=
    fold_left (fun sum t => sum + to_number (t_fee_amount (row t)))
      succeededTransactions 0 in
  let mrr :=
    match subscriptions with
    | Some l => fold_left (fun sum s => sum + s_amount s) l 0
    | None => 0
    end in
  setStats
    {| totalRevenue := totalRevenue;
       totalFees := totalFees;
       netRevenue := totalRevenue - totalFees;
       totalTransactions := length_or_zero transactions;
       totalCustomers := length_or_zero customers;
       activeSubscriptions := length_or_zero subscriptions;
       mrr := mrr |}.

Definition fetchRecentTransactions (supabase : backend) (projectId : uuid)
    : M Dashboard unit :=
  r <- await (query_transactions supabase)
         (limit 5
            (order "created_at" false
               (eq "project_id" projectId
                  (select "*, customers (name, email)"
                     (from "transactions"))))) ;;
  setRecentTransactions (or_empty (data r)).

(** An integer as a JavaScript number (exact below 2^53; the columns are
    32-bit). *)
Definition Number (z : Z) : PrimFloat.float :=
  if z <? 0
  then PrimFloat.opp (PrimFloat.of_uint63 (Uint63.of_Z (- z)))
  else PrimFloat.of_uint63 (Uint63.of_Z z).

(** [new Date(created_at)]: the time value in milliseconds of a timestamp
    (digits below the millisecond are dropped); [new Date(null)] is the
    epoch. *)
Definition new_Date (created_at : option Z) : Z :=
  match created_at with
  | Some us => us / 1000
  | None => 0
  end.

Section Viewer.

(** The viewer's time zone: local time of a time value and back
    (ECMAScript LocalTime and UTC). *)
Variable LocalTime : Z -> Z.
Variable UTC : Z -> Z.
(** The viewer's locale and time zone: [date.toLocaleDateString()] of a
    time value. Its results are taken to be ordinary property names:
    neither array indices nor names that Object.prototype defines. *)
Variable toLocaleDateString : Z -> string.

(** [date.getDate()]: the day of the month in local time. *)
Definition getDate (t : Z) : Z :=
  snd (Calendar.civil_from_days (LocalTime t / Calendar.msPerDay)).

(** [date.setDate(dt)]: the same local month and time of day, day of the
    month [dt] (which may lie outside the month). *)
Definition setDate (t dt : Z) : Z :=
  let lt := LocalTime t in
  let '(y, m, _) := Calendar.civil_from_days (lt / Calendar.msPerDay) in
  UTC ((Calendar.days_from_civil y m 1 + dt - 1) * Calendar.msPerDay
       + lt mod Calendar.msPerDay).

(** The calendar day, in the viewer's terms, of a fetched row. *)
Definition day_of (r : transaction_row) : string :=
  toLocaleDateString (new_Date (t_created_at (row r))).

(** [groupedByDay[date]] is set. *)
Definition has_day (d : string) (groupedByDay : list bucket) : bool :=
  existsb (fun b => String.eqb (date b) d) groupedByDay.

(** [groupedByDay[date].revenue += x]. *)
Definition add_revenue (d : string) (x : PrimFloat.float)
    (groupedByDay : list bucket) : list bucket :=
  map (fun b => if String.eqb (date b) d
                then {| date := date b;
                        revenue := PrimFloat.add (revenue b) x |}
                else b)
    groupedByDay.

(** The body of the [forEach] callback. The object [groupedByDay] is the
    list of its values in insertion order. *)
Definition group_transaction (groupedByDay : list bucket)
    (transaction : transaction_row) : list bucket :=
  let d := day_of transaction in
  let groupedByDay :=
    if negb (has_day d groupedByDay)
    then groupedByDay ++ [{| date := d; revenue := PrimFloat.zero |}]
    else groupedByDay in
  if String.eqb (t_status (row transaction)) "succeeded"
  then add_revenue d
         (PrimFloat.div (Number (t_amount (row transaction))) (Number 100))
         groupedByDay
  else groupedByDay.

Definition groupByDay (data : option (list transaction_row))
    : list bucket :=
  match data with
  | Some l => fold_left group_transaction l []
  | None => []
  end.

(** The start of the window: [now] is [new Date()] at fetch time. *)
Definition thirtyDaysAgo (now : Z) : Z := setDate now (getDate now - 30).

Definition chart_query (projectId : uuid) (now : Z) : query :=
  order "created_at" true
    (gte "created_at" (timestamp (thirtyDaysAgo now))
       (eq "project_id" projectId
          (select "created_at, amount, status" (from "transactions")))).

Definition fetchChartData (supabase : backend) (projectId : uuid)
    (now : Z) : M Dashboard unit :=
  r <- await (query_transactions supabase) (chart_query projectId now) ;;
  setChartData (slice_last 14 (groupByDay (data r))).

End Viewer.

(** A viewer whose local time zone is UTC. *)
Definition utc_zone (t : Z) : Z := t.

(* ------------------------------------------------------------------ *)
(** ** Sample data *)
(* ------------------------------------------------------------------ *)

Module Sample.

Definition acme : project := {| p_id := "p1"; p_name := "Acme" |}.
Definition globex : project := {| p_id := "p2"; p_name := "Globex" |}.

Definition ada : customer :=
  {| c_id := "c1"; c_project_id := "p1";
     c_email := Some "ada@example.com"; c_name := Some "Ada" |}.

(** A transaction of project p1 that the table accepts. *)
Definition tx (id : uuid) (customer : option uuid) (type status : string)
    (amount fee : Z) (created_at : Z) : transaction :=
  {| t_id := id; t_project_id := "p1"; t_customer_id := customer;
     t_external_id := id; t_type := type; t_status := status;
     t_amount := amount; t_fee_amount := Some fee;
     t_net_amount := Some (amount - fee);
     t_created_at := Some created_at |}.

(** The two transactions of the specification's example. *)
Definition t1 : transaction :=
  tx "t1" (Some "c1") "payment" "succeeded" 1000 50
    (Calendar.timestamptz 2026 1 15 10 30 0).
Definition t2 : transaction :=
  tx "t2" (Some "c1") "payment" "failed" 500 0
    (Calendar.timestamptz 2026 1 16 9 0 0).

Definition sub (id : uuid) (status : string) (amount : Z) : subscription :=
  {| s_id := id; s_project_id := "p1"; s_customer_id := "c1";
     s_amount := amount; s_status := status;
     s_cancel_at_period_end := Some false;
     s_created_at := Some (Calendar.timestamptz 2026 1 1 0 0 0) |}.

(** Project p1 with the two example transactions and two subscriptions,
    one of them active; project p2 with nothing. *)
Definition db : database :=
  {| projects := [acme; globex];
     customers := [ada];
     transactions := [t1; t2];
     subscriptions := [sub "s1" "active" 2000; sub "s2" "canceled" 900] |}.

(** A succeeded payment with no linked customer. *)
Definition anonymous_payment : transaction :=
  tx "t3" None "payment" "succeeded" 700 20
    (Calendar.timestamptz 2026 2 3 12 0 0).

Definition db_anonymous : database :=
  {| projects := [acme]; customers := [];
     transactions := [anonymous_payment]; subscriptions := [] |}.

(** One failed transaction at noon on each of the first [n] days of
    January 2026, oldest first. *)
Definition failed_on_day (d : Z) : transaction :=
  tx (Calendar.numeral d) None "payment" "failed" 100 0
    (Calendar.timestamptz 2026 1 d 12 0 0).

Definition january (n : nat) : list transaction :=
  map (fun d => failed_on_day (Z.of_nat d)) (seq 1 n).

Definition db_january (n : nat) : database :=
  {| projects := [acme]; customers := [];
     transactions := january n; subscriptions := [] |}.

(** A transaction stamped one day after [now]. *)
Definition now : Z := Calendar.timestamptz 2026 1 20 8 0 0 / 1000.

Definition postdated : transaction :=
  tx "t4" None "payment" "succeeded" 1234 0
    (Calendar.timestamptz 2026 1 21 8 0 0).

Definition db_postdated : database :=
  {| projects := [acme]; customers := [];
     transactions := [postdated]; subscriptions := [] |}.

(** The server session of the sample: one known project and customer. *)
Definition ses (id : uuid) : session :=
  {| NOW := Calendar.timestamptz 2026 1 15 10 30 0;
     gen_random_uuid := id;
     ses_projects := [acme];
     ses_customers := [ada] |}.

(** [INSERT INTO transactions (project_id, external_id, type, status,
    amount, fee_amount) VALUES ('p1', ext, 'payment', 'succeeded', amount,
    fee)]. *)
Definition insert_payment (ext : string) (amount fee : col_input Z)
    : statement :=
  INSERT {| iv_id := DEFAULT; iv_project_id := VALUE (Some "p1");
            iv_customer_id := DEFAULT; iv_external_id := VALUE (Some ext);
            iv_type := VALUE (Some "payment");
            iv_status := VALUE (Some "succeeded");
            iv_amount := amount; iv_fee_amount := fee;
            iv_net_amount := DEFAULT; iv_created_at := DEFAULT |}.

(** The same statement giving [net_amount] a value of its own. *)
Definition insert_with_net (ext : string) (amount fee net : Z) : statement :=
  INSERT {| iv_id := DEFAULT; iv_project_id := VALUE (Some "p1");
            iv_customer_id := DEFAULT; iv_external_id := VALUE (Some ext);
            iv_type := VALUE (Some "payment");
            iv_status := VALUE (Some "succeeded");
            iv_amount := VALUE (Some amount);
            iv_fee_amount := VALUE (Some fee);
            iv_net_amount := VALUE (Some net); iv_created_at := DEFAULT |}.

(** [UPDATE transactions SET fee_amount = fee WHERE id = id]. *)
Definition update_fee (id : uuid) (fee : option Z) : statement :=
  UPDATE {| us_status := None; us_amount := None;
            us_fee_amount := Some (VALUE fee); us_net_amount := None |}
    (fun t => String.eqb (t_id t) id).

End Sample.


(* ------------------------------------------------------------------ *)
(** ** Reference notions used to state the properties *)
(* ------------------------------------------------------------------ *)

(** The reference the specification gives for MRR: the sum of [amount]
    over the subscriptions of the project whose status is 'active'. *)
Definition mrr_reference (db : database) (projectId : uuid) : Z :=
  sumZ (map s_amount
          (filter (fun s => String.eqb (s_project_id s) projectId
                            && String.eqb (s_status s) "active")
             (subscriptions db))).

(** What the table guarantees of a stored row: the CHECK constraints, and
    [net_amount] equal to the generated expression, computed without
    overflow. *)
Definition stored_row_ok (t : transaction) : Prop :=
  0 <= t_amount t
  /\ t_net_amount t = sql_minus (Some (t_amount t)) (t_fee_amount t)
  /\ forall fee, t_fee_amount t = Some fee ->
                 0 <= fee /\ t_net_amount t = Some (t_amount t - fee).

(** Newest first, rows without [created_at] before all others. *)
Definition newest_first (a b : transaction) : Prop :=
  desc_leb (t_created_at a) (t_created_at b) = true.

(** The rows the list is meant to show for a project and a filter. *)
Definition listed (db : database) (projectId : uuid) (filter_ : string)
    : list transaction :=
  filter (fun t => String.eqb (t_project_id t) projectId
                   && (String.eqb filter_ "all"
                       || String.eqb (t_status t) filter_))
    (transactions db).

(** A service that cannot be reached: every query rejects. *)
Definition unreachable (reason : js_error) : backend :=
  {| query_transactions _ := Rejected reason;
     query_subscriptions _ := Rejected reason;
     query_customers _ := Rejected reason |}.

(** A service that answers every query with an error. *)
Definition erroring (e : js_error) : backend :=
  {| query_transactions _ := Fulfilled None (Some e);
     query_subscriptions _ := Fulfilled None (Some e);
     query_customers _ := Fulfilled None (Some e) |}.

(** The list after a first, successful fetch for project p1 of the
    sample. *)
Definition loaded : world TransactionList :=
  snd (fetchTransactions (supabase Sample.db) "p1"
         (mounted TransactionList_initial)).

(** The trend series a viewer in UTC with the en-US locale gets from a
    healthy service. *)
Definition trend_series (db : database) (projectId : uuid) (now : Z)
    : list bucket :=
  d_chartData
    (component
       (snd (fetchChartData utc_zone utc_zone
               Calendar.toLocaleDateString_enUS_utc (supabase db)
               projectId now (mounted Dashboard_initial)))).

(* ------------------------------------------------------------------ *)
(** ** The view [customer_stats_by_project] *)
(* ------------------------------------------------------------------ *)

(** A row of [customer_stats_by_project]. *)
Record customer_stats := {
  cs_project_id : uuid;
  cs_project_name : string;
  cs_total_customers : Z;
  cs_new_last_30_days : Z;
  cs_customers_with_subscriptions : Z
}.

(** A joined row of the view: a customer, the active subscription matched
    to it (NULL when it has none), and its project. *)
Definition cs_joined : Type := customer * option subscription * project.

Section CustomerStats.

(** The column [created_at] of [customers] (TIMESTAMPTZ DEFAULT NOW()),
    which the record [customer] leaves out. *)
Variable c_created_at : customer -> option Z.
(** [NOW() - INTERVAL '30 days'] when the view is queried. *)
Variable thirty_days_ago : Z.

(** [FROM customers c LEFT JOIN subscriptions s
     ON c.id = s.customer_id AND s.status = 'active']: a customer without
    match is kept once, with a NULL subscription. *)
Definition customers_left_join_subscriptions (db : database)
    : list (customer * option subscription) :=
  flat_map
    (fun c =>
       match filter (fun s => String.eqb (c_id c) (s_customer_id s)
                              && String.eqb (s_status s) "active")
               (subscriptions db) with
       | [] => [(c, None)]
       | ss => map (fun s => (c, Some s)) ss
       end)
    (customers db).

(** [JOIN projects p ON c.project_id = p.id]. *)
Definition customer_stats_join (db : database) : list cs_joined :=
  join_projects (fun cs => c_project_id (fst cs))
    (customers_left_join_subscriptions db) (projects db).

(** [GROUP BY p.id, p.name]. *)
Definition cs_key_of (x : cs_joined) : as_key :=
  (p_id (snd x), p_name (snd x)).

(** [CASE WHEN c.created_at > NOW() - INTERVAL '30 days' THEN c.id END]. *)
Definition new_customer_id (c : customer) : option uuid :=
  match c_created_at c with
  | Some ts => if thirty_days_ago <? ts then Some (c_id c) else None
  | None => None
  end.

Definition cs_row (g : list cs_joined) (k : as_key) : customer_stats :=
  {| cs_project_id := fst k;
     cs_project_name := snd k;
     cs_total_customers :=
       count_distinct (map (fun x => Some (c_id (fst (fst x)))) g);
     cs_new_last_30_days :=
       count_distinct (map (fun x => new_customer_id (fst (fst x))) g);
     cs_customers_with_subscriptions :=
       count_distinct
         (map (fun x => option_map s_customer_id (snd (fst x))) g) |}.

Definition customer_stats_by_project (db : database) : list customer_stats :=
  let j := customer_stats_join db in
  map (fun k => cs_row (group cs_key_of as_key_dec j k) k)
    (group_keys cs_key_of as_key_dec j).

End CustomerStats.

(** The flag [cancel_at_period_end] is set. *)
Definition cancels (s : subscription) : bool :=
  match s_cancel_at_period_end s with
  | Some true => true
  | _ => false
  end.

(** The customer has an active subscription. *)
Definition has_active_subscription (db : database) (c : customer) : bool :=
  existsb (fun s => String.eqb (c_id c) (s_customer_id s)
                    && String.eqb (s_status s) "active")
    (subscriptions db).

(** [transaction.amount / 100]. *)
Definition amount_in_units (r : transaction_row) : PrimFloat.float :=
  PrimFloat.div (Number (t_amount (row r))) (Number 100).

(** The revenue of a day as the chart accumulates it: the amounts, in
    units, of the succeeded rows of that day, added in fetch order
    starting from 0. *)
Definition day_revenue (day : transaction_row -> string) (d : string)
    (rows : list transaction_row) : PrimFloat.float :=
  fold_left PrimFloat.add
    (map amount_in_units
       (filter (fun r => String.eqb (day r) d
                         && String.eqb (t_status (row r)) "succeeded")
          rows))
    PrimFloat.zero.

(** [groupedByDay[d]?.revenue], 0 when the day has no bucket yet. *)
Definition revenue_in (groupedByDay : list bucket) (d : string)
    : PrimFloat.float :=
  match find (fun b => String.eqb (date b) d) groupedByDay with
  | Some b => revenue b
  | None => PrimFloat.zero
  end.

(** [PRIMARY KEY] of [customers]. *)
Definition customers_pk (db : database) : Prop :=
  NoDup (map c_id (customers db)).

(* ------------------------------------------------------------------ *)
(** ** App.jsx and ProjectSelector.jsx *)
(* ------------------------------------------------------------------ *)

Record App := {
  app_projects : list project;              (* useState([]) *)
  app_selectedProject : option project;     (* useState(null) *)
  app_activeTab : string;                   (* useState('overview') *)
  app_loading : bool                        (* useState(true) *)
}.

Definition App_initial : App :=
  {| app_projects := []; app_selectedProject := None;
     app_activeTab := "overview"; app_loading := true |}.

Definition setProjects (l : list project) : M App unit :=
  set_state (fun a => {| app_projects := l;
                         app_selectedProject := app_selectedProject a;
                         app_activeTab := app_activeTab a;
                         app_loading := app_loading a |}).

Definition setSelectedProject (p : option project) : M App unit :=
  set_state (fun a => {| app_projects := app_projects a;
                         app_selectedProject := p;
                         app_activeTab := app_activeTab a;
                         app_loading := app_loading a |}).

Definition setLoading_App (b : bool) : M App unit :=
  set_state (fun a => {| app_projects := app_projects a;
                         app_selectedProject := app_selectedProject a;
                         app_activeTab := app_activeTab a;
                         app_loading := b |}).

Definition projects_query : query :=
  order "created_at" false (select "*" (from "projects")).

(** [fetchProjects], over the service's answer to queries on
    [projects]. *)
Definition fetchProjects (query_projects : query -> settled project)
    : M App unit :=
  try_catch_finally
    (r <- await query_projects projects_query ;;
     match error r with
     | Some error => throw error
     | None =>
         setProjects (or_empty (data r)) ;;
         match data r with
         | Some (first :: _) => setSelectedProject (Some first)
         | _ => ret tt
         end
     end)
    (fun error => console_error "Error fetching projects:" error)
    (setLoading_App false).

(** A healthy service answering queries on [projects]; [p_created_at] is
    the column [created_at] of [projects], which the record [project]
    leaves out. No filter on [projects] is understood. *)
Definition supabase_projects (p_created_at : project -> option Z)
    (db : database) (q : query) : settled project :=
  respond (select_rows (fun _ => None) p_created_at q (projects db)).

(** [selectedProject?.id || '']: the value the select element shows. *)
Definition ProjectSelector_value (selectedProject : option project)
    : string :=
  match selectedProject with
  | Some p => if String.eqb (p_id p) "" then "" else p_id p
  | None => ""
  end.

(** The value of each option element, in order. *)
Definition ProjectSelector_options (projects : list project) : list string :=
  map p_id projects.

(** The [onChange] handler with [onSelectProject = setSelectedProject]:
    [projects.find(p => p.id === e.target.value)], undefined when no
    project matches. *)
Definition ProjectSelector_onChange (projects : list project)
    (value : string) : M App unit :=
  setSelectedProject (find (fun p => String.eqb (p_id p) value) projects).

(* ------------------------------------------------------------------ *)
(** ** What the lists display *)
(* ------------------------------------------------------------------ *)

(** A nullable string is falsy when it is null, undefined or empty. *)
Definition falsy (v : option string) : bool :=
  match v with
  | None => true
  | Some s => String.eqb s ""
  end.

(** [a || b]. *)
Definition js_or (a b : option string) : option string :=
  if falsy a then b else a.

(** [transaction.customers?.name] and [transaction.customers?.email]. *)
Definition customers_name (r : transaction_row) : option string :=
  match row_customers r with
  | Some c => c_name c
  | None => None
  end.

Definition customers_email (r : transaction_row) : option string :=
  match row_customers r with
  | Some c => c_email c
  | None => None
  end.

(** Dashboard.jsx:
    [transaction.customers?.name || transaction.customers?.email
     || 'Unknown']. *)
Definition Dashboard_customer (r : transaction_row) : option string :=
  js_or (js_or (customers_name r) (customers_email r)) (Some "Unknown").

(** TransactionList.jsx: [transaction.customers?.name || 'Unknown']. *)
Definition TransactionList_customer (r : transaction_row) : option string :=
  js_or (customers_name r) (Some "Unknown").

(** [type.replace('_', ' ')]: a string pattern replaces its first
    occurrence only. *)
Fixpoint replace_underscore (s : string) : string :=
  match s with
  | EmptyString => EmptyString
  | String c s' =>
      if Ascii.eqb c "_"%char then String " "%char s'
      else String c (replace_underscore s')
  end.

(** Number of occurrences of a character. *)
Fixpoint occurrences (c : ascii) (s : string) : nat :=
  match s with
  | EmptyString => 0
  | String c' s' =>
      (if Ascii.eqb c' c then 1 else 0) + occurrences c s'
  end.

(* ------------------------------------------------------------------ *)
(** ** CHECK constraints written as regular expressions *)
(* ------------------------------------------------------------------ *)

(** The regular expressions of the schema, anchored at both ends. A
    single character is the bracket expression of one one-character
    range. A range is a range of code points; the bracket expressions of
    the schema hold ASCII characters only, so a character outside ASCII
    is in none of them, with or without case folding. *)
Inductive regex :=
| Nothing                                   (* matches no string *)
| Epsilon                                   (* the empty string *)
| Class (ranges : list (ascii * ascii))     (* [a-b...] *)
| Concat (r1 r2 : regex)
| Either (r1 r2 : regex)
| Repeat (r : regex).                       (* r* *)

(** [r+]. *)
Definition Plus (r : regex) : regex := Concat r (Repeat r).

(** [r{n}]. *)
Fixpoint Times (n : nat) (r : regex) : regex :=
  match n with
  | O => Epsilon
  | S n' => Concat r (Times n' r)
  end.

(** [r{n,}]. *)
Definition AtLeast (n : nat) (r : regex) : regex :=
  Concat (Times n r) (Repeat r).

Definition in_range (rg : ascii * ascii) (c : ascii) : bool :=
  (nat_of_ascii (fst rg) <=? nat_of_ascii c)%nat
  && (nat_of_ascii c <=? nat_of_ascii (snd rg))%nat.

Definition to_lower (c : ascii) : ascii :=
  if in_range ("A"%char, "Z"%char) c
  then ascii_of_nat (nat_of_ascii c + 32) else c.

Definition to_upper (c : ascii) : ascii :=
  if in_range ("a"%char, "z"%char) c
  then ascii_of_nat (nat_of_ascii c - 32) else c.

(** Membership in a bracket expression; [ci] is case-insensitive
    matching (the operator [~*]). *)
Definition in_class (ci : bool) (ranges : list (ascii * ascii)) (c : ascii)
    : bool :=
  existsb
    (fun rg => in_range rg c
               || (ci && (in_range rg (to_lower c)
                          || in_range rg (to_upper c))))
    ranges.

Fixpoint nullable (r : regex) : bool :=
  match r with
  | Nothing => false
  | Epsilon => true
  | Class _ => false
  | Concat r1 r2 => nullable r1 && nullable r2
  | Either r1 r2 => nullable r1 || nullable r2
  | Repeat _ => true
  end.

(** The expression matching what may follow the character [c]. *)
Fixpoint derive (ci : bool) (c : ascii) (r : regex) : regex :=
  match r with
  | Nothing => Nothing
  | Epsilon => Nothing
  | Class rs => if in_class ci rs c then Epsilon else Nothing
  | Concat r1 r2 =>
      if nullable r1
      then Either (Concat (derive ci c r1) r2) (derive ci c r2)
      else Concat (derive ci c r1) r2
  | Either r1 r2 => Either (derive ci c r1) (derive ci c r2)
  | Repeat r1 => Concat (derive ci c r1) (Repeat r1)
  end.

(** [s ~ '^r$'] ([s ~* '^r$'] when [ci]). *)
Fixpoint matches (ci : bool) (r : regex) (s : string) : bool :=
  match s with
  | EmptyString => nullable r
  | String c s' => matches ci (derive ci c r) s'
  end.

(** The strings an expression stands for. *)
Inductive denotes (ci : bool) : regex -> list ascii -> Prop :=
| d_epsilon : denotes ci Epsilon []
| d_class rs c : in_class ci rs c = true -> denotes ci (Class rs) [c]
| d_concat r1 r2 l1 l2 :
    denotes ci r1 l1 -> denotes ci r2 l2 ->
    denotes ci (Concat r1 r2) (l1 ++ l2)
| d_left r1 r2 l : denotes ci r1 l -> denotes ci (Either r1 r2) l
| d_right r1 r2 l : denotes ci r2 l -> denotes ci (Either r1 r2) l
| d_repeat_nil r : denotes ci (Repeat r) []
| d_repeat_more r l1 l2 :
    denotes ci r l1 -> denotes ci (Repeat r) l2 ->
    denotes ci (Repeat r) (l1 ++ l2).

(** A CHECK constraint on a nullable column passes on NULL. *)
Definition check_matches (ci : bool) (r : regex) (v : option string)
    : bool :=
  match v with
  | None => true
  | Some s => matches ci r s
  end.

Definition upper_case : list (ascii * ascii) := [("A"%char, "Z"%char)].

(** [CONSTRAINT currency_check CHECK (currency ~ '^[A-Z]{3}$')]. *)
Definition currency_check (currency : option string) : bool :=
  check_matches false (Times 3 (Class upper_case)) currency.

(** [[A-Za-z0-9._%+-]]. *)
Definition email_local : list (ascii * ascii) :=
  [("A"%char, "Z"%char); ("a"%char, "z"%char); ("0"%char, "9"%char);
   ("."%char, "."%char); ("_"%char, "_"%char); ("%"%char, "%"%char);
   ("+"%char, "+"%char); ("-"%char, "-"%char)].

(** [[A-Za-z0-9.-]]. *)
Definition email_domain : list (ascii * ascii) :=
  [("A"%char, "Z"%char); ("a"%char, "z"%char); ("0"%char, "9"%char);
   ("."%char, "."%char); ("-"%char, "-"%char)].

(** [[A-Z|a-z]]: the bar is a member of the bracket expression. *)
Definition email_tld : list (ascii * ascii) :=
  [("A"%char, "Z"%char); ("|"%char, "|"%char); ("a"%char, "z"%char)].

Definition email_regex : regex :=
  Concat (Plus (Class email_local))
    (Concat (Class [("@"%char, "@"%char)])
       (Concat (Plus (Class email_domain))
          (Concat (Class [("."%char, "."%char)])
             (AtLeast 2 (Class email_tld))))).

(** [CONSTRAINT email_format CHECK (email ~*
    '^[A-Za-z0-9._%+-]+@[A-Za-z0-9.-]+\.[A-Z|a-z]{2,}$')]. *)
Definition email_format (email : option string) : bool :=
  check_matches true email_regex email.

(* ------------------------------------------------------------------ *)
(** ** Dashboard.jsx: the three fetches run together *)
(* ------------------------------------------------------------------ *)

(** The state setters of the dashboard as functions on its state. *)
Definition with_stats (s : stats) (d : Dashboard) : Dashboard :=
  {| d_stats := s;
     d_recentTransactions := d_recentTransactions d;
     d_chartData := d_chartData d;
     d_loading := d_loading d |}.

Definition with_recentTransactions (l : list transaction_row)
    (d : Dashboard) : Dashboard :=
  {| d_stats := d_stats d;
     d_recentTransactions := l;
     d_chartData := d_chartData d;
     d_loading := d_loading d |}.

Definition with_chartData (l : list bucket) (d : Dashboard) : Dashboard :=
  {| d_stats := d_stats d;
     d_recentTransactions := d_recentTransactions d;
     d_chartData := l;
     d_loading := d_loading d |}.

Definition with_loading (b : bool) (d : Dashboard) : Dashboard :=
  {| d_stats := d_stats d;
     d_recentTransactions := d_recentTransactions d;
     d_chartData := d_chartData d;
     d_loading := b |}.

Definition setLoading_dashboard (b : bool) : M Dashboard unit :=
  set_state (with_loading b).

(** An async function of the dashboard from one of its awaits on: the
    query it waits for and what it does with the answer, down to its
    last statement, a state update. *)
Inductive task :=
| Finish (f : Dashboard -> Dashboard)
| AwaitTransactions (q : query) (k : response transaction_row -> task)
| AwaitCustomers (q : query) (k : response customer -> task)
| AwaitSubscriptions (q : query) (k : response subscription -> task).

Definition fetchStats_task (projectId : uuid) : task :=
  AwaitTransactions
    (eq "project_id" projectId
       (select "amount, fee_amount, status" (from "transactions")))
    (fun r1 =>
  AwaitCustomers
    (eq "project_id" projectId (select "id" (from "customers")))
    (fun r2 =>
  AwaitSubscriptions
    (eq "status" "active"
       (eq "project_id" projectId
          (select "amount, status" (from "subscriptions"))))
    (fun r3 =>
  let transactions := data r1 in
  let customers := data r2 in
  let subscriptions := data r3 in
  let succeededTransactions :=
    or_empty
      (option_map
         (filter (fun t => String.eqb (t_status (row t)) "succeeded"))
         transactions) in
  let totalRevenue :=
    fold_left (fun sum t => sum + t_amount (row t)) succeededTransactions 0 in
  let totalFees :=
    fold_left (fun sum t => sum + to_number (t_fee_amount (row t)))
      succeededTransactions 0 in
  let mrr :=
    match subscriptions with
    | Some l => fold_left (fun sum s => sum + s_amount s) l 0
    | None => 0
    end in
  Finish
    (with_stats
       {| totalRevenue := totalRevenue;
          totalFees := totalFees;
          netRevenue := totalRevenue - totalFees;
          totalTransactions := length_or_zero transactions;
          totalCustomers := length_or_zero customers;
          activeSubscriptions := length_or_zero subscriptions;
          mrr := mrr |})))).

Definition fetchRecentTransactions_task (projectId : uuid) : task :=
  AwaitTransactions
    (limit 5
       (order "created_at" false
          (eq "project_id" projectId
             (select "*, customers (name, email)" (from "transactions")))))
    (fun r => Finish (with_recentTransactions (or_empty (data r)))).

Definition fetchChartData_task (LocalTime UTC : Z -> Z)
    (toLocaleDateString : Z -> string) (projectId : uuid) (now : Z)
    : task :=
  AwaitTransactions (chart_query LocalTime UTC projectId now)
    (fun r =>
       Finish
         (with_chartData
            (slice_last 14 (groupByDay toLocaleDateString (data r))))).

(** A task run on its own: every await gets its answer at once. *)
Fixpoint run_task (supabase : backend) (t : task) : M Dashboard unit :=
  match t with
  | Finish f => set_state f
  | AwaitTransactions q k =>
      r <- await (query_transactions supabase) q ;; run_task supabase (k r)
  | AwaitCustomers q k =>
      r <- await (query_customers supabase) q ;; run_task supabase (k r)
  | AwaitSubscriptions q k =>
      r <- await (query_subscriptions supabase) q ;; run_task supabase (k r)
  end.

(** The promise an async function returned. *)
Inductive promise :=
| Pending (t : task)            (* suspended at the await that heads [t] *)
| Done (c : completion unit).

Definition send (q : query) (w : world Dashboard) : world Dashboard :=
  {| component := component w; console := console w;
     requests := requests w ++ [q] |}.

(** Calling an async function runs it up to its first await. *)
Definition call (t : task) (w : world Dashboard)
    : promise * world Dashboard :=
  match t with
  | Finish f => (Done (Normal tt), snd (set_state f w))
  | AwaitTransactions q _ | AwaitCustomers q _ | AwaitSubscriptions q _ =>
      (Pending t, send q w)
  end.

(** The awaited query settles: a rejection rejects the promise of the
    function, an answer resumes it up to its next await. *)
Definition resume {R : Type} (s : settled R) (k : response R -> task)
    (w : world Dashboard) : promise * world Dashboard :=
  match s with
  | Fulfilled d e => call (k {| data := d; error := e |}) w
  | Rejected reason => (Done (Throw reason), w)
  end.

Definition deliver (supabase : backend) (t : task) (w : world Dashboard)
    : promise * world Dashboard :=
  match t with
  | Finish _ => call t w
  | AwaitTransactions q k => resume (query_transactions supabase q) k w
  | AwaitCustomers q k => resume (query_customers supabase q) k w
  | AwaitSubscriptions q k => resume (query_subscriptions supabase q) k w
  end.

(** The calls of an array literal, left to right. *)
Fixpoint call_all (ts : list task) (w : world Dashboard)
    : list promise * world Dashboard :=
  match ts with
  | [] => ([], w)
  | t :: ts' =>
      let (p, w1) := call t w in
      let (ps, w2) := call_all ts' w1 in
      (p :: ps, w2)
  end.

(** [Promise.all(ps)] as it stands: pending ([None]), rejected with the
    reason of a rejected element, or fulfilled when every element is. *)
Fixpoint Promise_all (ps : list promise) : option (completion unit) :=
  match ps with
  | [] => Some (Normal tt)
  | Done (Throw e) :: _ => Some (Throw e)
  | Done (Normal _) :: ps' => Promise_all ps'
  | Pending _ :: ps' =>
      match Promise_all ps' with
      | Some (Throw e) => Some (Throw e)
      | _ => None
      end
  end.

(** [fetchDashboardData] in flight. *)
Record fetching := {
  f_world : world Dashboard;
  f_promises : list promise;     (* the array given to [Promise.all] *)
  f_awaiting : bool              (* suspended at [await Promise.all] *)
}.

(** [fetchDashboardData] from its await on, given how [Promise.all]
    settled. *)
Definition after_all (c : completion unit) : M Dashboard unit :=
  try_catch_finally (fun w => (c, w))
    (fun error => console_error "Error fetching dashboard data:" error)
    (setLoading_dashboard false).

(** When [Promise.all] settles, the suspended function goes on. *)
Definition react (s : fetching) : fetching :=
  if f_awaiting s
  then match Promise_all (f_promises s) with
       | Some c =>
           {| f_world := snd (after_all c (f_world s));
              f_promises := f_promises s;
              f_awaiting := false |}
       | None => s
       end
  else s.

Fixpoint update_nth {A : Type} (i : nat) (a : A) (l : list A) : list A :=
  match l, i with
  | [], _ => []
  | _ :: l', O => a :: l'
  | x :: l', S i' => x :: update_nth i' a l'
  end.

(** The query that promise [i] waits for settles. Nothing happens when
    promise [i] waits for none. *)
Definition arrive (supabase : backend) (i : nat) (s : fetching)
    : fetching :=
  match nth_error (f_promises s) i with
  | Some (Pending t) =>
      let (p, w) := deliver supabase t (f_world s) in
      react {| f_world := w;
               f_promises := update_nth i p (f_promises s);
               f_awaiting := f_awaiting s |}
  | _ => s
  end.

(** [fetchDashboardData()] up to its await. *)
Definition fetchDashboardData_call (LocalTime UTC : Z -> Z)
    (toLocaleDateString : Z -> string) (projectId : uuid) (now : Z)
    (w : world Dashboard) : fetching :=
  let w1 := snd (setLoading_dashboard true w) in
  let (ps, w2) :=
    call_all
      [fetchStats_task projectId;
       fetchRecentTransactions_task projectId;
       fetchChartData_task LocalTime UTC toLocaleDateString projectId now]
      w1 in
  react {| f_world := w2; f_promises := ps; f_awaiting := true |}.

(** [fetchDashboardData()] and the answers that arrive afterwards, in the
    order [arrivals] (0 for [fetchStats], 1 for
    [fetchRecentTransactions], 2 for [fetchChartData]). *)
Definition fetchDashboardData (LocalTime UTC : Z -> Z)
    (toLocaleDateString : Z -> string) (supabase : backend)
    (projectId : uuid) (now : Z) (arrivals : list nat)
    (w : world Dashboard) : fetching :=
  fold_left (fun s i => arrive supabase i s) arrivals
    (fetchDashboardData_call LocalTime UTC toLocaleDateString projectId
       now w).

(** The state update a task ends with, or the rejection that ends it. *)
Fixpoint outcome (supabase : backend) (t : task)
    : completion (Dashboard -> Dashboard) :=
  match t with
  | Finish f => Normal f
  | AwaitTransactions q k =>
      match query_transactions supabase q with
      | Fulfilled d e => outcome supabase (k {| data := d; error := e |})
      | Rejected reason => Throw reason
      end
  | AwaitCustomers q k =>
      match query_customers supabase q with
      | Fulfilled d e => outcome supabase (k {| data := d; error := e |})
      | Rejected reason => Throw reason
      end
  | AwaitSubscriptions q k =>
      match query_subscriptions supabase q with
      | Fulfilled d e => outcome supabase (k {| data := d; error := e |})
      | Rejected reason => Throw reason
      end
  end.

(** The answers a task still needs before it ends. *)
Fixpoint due (supabase : backend) (t : task) : nat :=
  match t with
  | Finish _ => 0
  | AwaitTransactions q k =>
      S match query_transactions supabase q with
        | Fulfilled d e => due supabase (k {| data := d; error := e |})
        | Rejected _ => 0
        end
  | AwaitCustomers q k =>
      S match query_customers supabase q with
        | Fulfilled d e => due supabase (k {| data := d; error := e |})
        | Rejected _ => 0
        end
  | AwaitSubscriptions q k =>
      S match query_subscriptions supabase q with
        | Fulfilled d e => due supabase (k {| data := d; error := e |})
        | Rejected _ => 0
        end
  end.

Definition settled_promise (p : promise) : bool :=
  match p with
  | Done _ => true
  | Pending _ => false
  end.


Definition rejected_promise (p : promise) : bool :=
  match p with
  | Done (Throw _) => true
  | _ => false
  end.

(** The answers a promise still waits for, the one it is suspended at
    included. *)
Definition awaited (supabase : backend) (p : promise) : nat :=
  match p with
  | Done _ => 0
  | Pending (Finish _) => 1
  | Pending t => due supabase t
  end.

Definition awaited_at (supabase : backend) (i : nat) (s : fetching) : nat :=
  match nth_error (f_promises s) i with
  | Some p => awaited supabase p
  | None => 0
  end.

Definition erase {A : Type} (c : completion A) : completion unit :=
  match c with
  | Normal _ => Normal tt
  | Throw e => Throw e
  end.

Definition apply_outcome (o : completion (Dashboard -> Dashboard))
    (d : Dashboard) : Dashboard :=
  match o with
  | Normal f => f d
  | Throw _ => d
  end.

(** A task with outcome [o] ends, if it ends normally, by giving the
    part [get] of the state a value and leaving the rest as it is. *)
Definition sets {A : Type} (put : A -> Dashboard -> Dashboard)
    (o : completion (Dashboard -> Dashboard)) : Prop :=
  forall f, o = Normal f -> exists a, forall d, f d = put a d.

(** What the promise [p] of a task with outcome [o] tells about the part
    [get] of the state [d] that the task sets, [d0] being the state when
    the task was called. *)
Definition slot_ok {A : Type} (supabase : backend) (get : Dashboard -> A)
    (o : completion (Dashboard -> Dashboard)) (d0 d : Dashboard)
    (p : promise) : Prop :=
  match p with
  | Pending t => outcome supabase t = o /\ get d = get d0
  | Done c => c = erase o /\ get d = get (apply_outcome o d0)
  end.

(** What has been logged, given the promises. *)
Definition logged (ps : list promise) (log : list (string * js_error))
    : Prop :=
  if existsb rejected_promise ps
  then exists e, log = [("Error fetching dashboard data:", e)]
                 /\ In (Done (Throw e)) ps
  else log = [].

(** The three promises of [fetchDashboardData] and the parts of the state
    their tasks set. *)
Definition slots_ok (supabase : backend)
    (o0 o1 o2 : completion (Dashboard -> Dashboard)) (d0 : Dashboard)
    (s : fetching) : Prop :=
  exists p0 p1 p2,
    f_promises s = [p0; p1; p2]
    /\ slot_ok supabase d_stats o0 d0 (component (f_world s)) p0
    /\ slot_ok supabase d_recentTransactions o1 d0
         (component (f_world s)) p1
    /\ slot_ok supabase d_chartData o2 d0 (component (f_world s)) p2.

(** The loading flag and the log follow [Promise.all]. *)
Definition loading_ok (w0 : world Dashboard) (s : fetching) : Prop :=
  f_awaiting s = match Promise_all (f_promises s) with
                 | None => true
                 | Some _ => false
                 end
  /\ d_loading (component (f_world s)) = f_awaiting s
  /\ exists log, console (f_world s) = console w0 ++ log
                  /\ logged (f_promises s) log.

(* ------------------------------------------------------------------ *)
(** ** Notions used to state the further properties *)
(* ------------------------------------------------------------------ *)





(** The screens of [App]. *)
Inductive screen := Spinner | NoProjectsFound | Main.

(** The three returns of the render function of [App]. *)
Definition App_render (a : App) : screen :=
  if app_loading a then Spinner
  else if Nat.eqb (List.length (app_projects a)) 0 then NoProjectsFound
  else Main.

(* ================================================================== *)
(** * Properties *)
(* ================================================================== *)

Unset Implicit Arguments.

(* ------------------------------------------------------------------ *)
(** ** The calendar on known dates *)
(* ------------------------------------------------------------------ *)

Example epoch_day : Calendar.civil_from_days 0 = (1970, 1, 1).
Proof. reflexivity. Qed.

Example day_20000 : Calendar.civil_from_days 20000 = (2024, 10, 4).
Proof. reflexivity. Qed.

Example leap_day :
  Calendar.civil_from_days (Calendar.days_from_civil 2024 2 29)
  = (2024, 2, 29).
Proof. reflexivity. Qed.

Example before_epoch : Calendar.civil_from_days (-1) = (1969, 12, 31).
Proof. reflexivity. Qed.

Example trunc_example :
  Calendar.date_trunc_month_utc (Calendar.timestamptz 2026 1 15 10 30 0)
  = Calendar.days_from_civil 2026 1 1.
Proof. reflexivity. Qed.

Example locale_example :
  Calendar.toLocaleDateString_enUS_utc
    (Calendar.timestamptz 2026 1 15 10 30 0 / 1000)
  = "1/15/2026".
Proof. reflexivity. Qed.

(* ------------------------------------------------------------------ *)
(** ** Lists, sums and sorting *)
(* ------------------------------------------------------------------ *)

Lemma sumZ_app (l1 l2 : list Z) : sumZ (l1 ++ l2) = sumZ l1 + sumZ l2.
Proof.
  induction l1 as [| x l1 IH]; simpl; [reflexivity | rewrite IH; lia].
Qed.

(** [reduce((sum, x) => sum + f(x), init)] adds the mathematical sum to
    its initial value. *)
Lemma reduce_sum {A : Type} (f : A -> Z) (l : list A) (init : Z) :
  fold_left (fun sum x => sum + f x) l init = init + sumZ (map f l).
Proof.
  revert init.
  induction l as [| x l IH]; intros init; simpl.
  - lia.
  - rewrite IH. lia.
Qed.

Lemma sql_sum_spec (l : list (option Z)) :
  sql_sum l = match non_null l with
              | [] => None
              | _ :: _ => Some (sumZ (non_null l))
              end.
Proof.
  induction l as [| [v |] l IH]; simpl; try assumption; try reflexivity.
  rewrite IH. destruct (non_null l); simpl; f_equal; lia.
Qed.

Lemma non_null_Some {A : Type} (l : list A) : non_null (map Some l) = l.
Proof.
  induction l as [| a l IH]; simpl; [reflexivity | now rewrite IH].
Qed.

Lemma sql_sum_Some (l : list Z) :
  sql_sum (map Some l) = match l with
                         | [] => None
                         | _ :: _ => Some (sumZ l)
                         end.
Proof.
  rewrite sql_sum_spec, non_null_Some. reflexivity.
Qed.

Lemma In_distinct {A : Type} (dec : forall x y : A, {x = y} + {x <> y})
    (l : list A) (x : A) :
  In x (distinct dec l) <-> In x l.
Proof.
  unfold distinct.
  rewrite <- in_rev, nodup_In, <- in_rev. reflexivity.
Qed.

Lemma NoDup_distinct {A : Type} (dec : forall x y : A, {x = y} + {x <> y})
    (l : list A) :
  NoDup (distinct dec l).
Proof.
  unfold distinct. apply NoDup_rev, NoDup_nodup.
Qed.

Lemma insert_by_Permutation {A : Type} (leb : A -> A -> bool) (x : A)
    (l : list A) :
  Permutation (insert_by leb x l) (x :: l).
Proof.
  induction l as [| y l IH]; simpl.
  - apply Permutation_refl.
  - destruct (leb x y).
    + apply Permutation_refl.
    + eapply Permutation_trans; [apply perm_skip, IH | apply perm_swap].
Qed.

Lemma sort_by_Permutation {A : Type} (leb : A -> A -> bool) (l : list A) :
  Permutation (sort_by leb l) l.
Proof.
  induction l as [| x l IH]; simpl.
  - apply perm_nil.
  - eapply Permutation_trans; [apply insert_by_Permutation |].
    now apply perm_skip.
Qed.

Lemma In_sort_by {A : Type} (leb : A -> A -> bool) (l : list A) (x : A) :
  In x (sort_by leb l) <-> In x l.
Proof.
  split; apply Permutation_in;
    [ apply sort_by_Permutation
    | apply Permutation_sym, sort_by_Permutation ].
Qed.

(** A sum over the rows that satisfy a condition does not depend on the
    order of the rows. *)
Lemma sumZ_filter_Permutation {A : Type} (f : A -> Z) (p : A -> bool)
    (l l' : list A) :
  Permutation l l' ->
  sumZ (map f (filter p l)) = sumZ (map f (filter p l')).
Proof.
  induction 1 as [| x l l' _ IH | x y l | l l' l'' _ IH1 _ IH2]; simpl.
  - reflexivity.
  - destruct (p x); simpl; lia.
  - destruct (p x), (p y); simpl; lia.
  - congruence.
Qed.

Lemma filter_map_comm {A B : Type} (f : A -> B) (p : B -> bool)
    (l : list A) :
  filter p (map f l) = map f (filter (fun a => p (f a)) l).
Proof.
  induction l as [| a l IH]; simpl; [reflexivity |].
  destruct (p (f a)); simpl; now rewrite IH.
Qed.

(* ------------------------------------------------------------------ *)
(** ** GROUP BY partitions its input *)
(* ------------------------------------------------------------------ *)

Section GroupByFacts.

Variables (A K : Type).
Variable key : A -> K.
Variable dec : forall x y : K, {x = y} + {x <> y}.

Lemma in_group_true (k : K) (x : A) : in_group key dec k x = true <-> key x = k.
Proof.
  unfold in_group. destruct (dec (key x) k); split; congruence.
Qed.

Lemma In_group (l : list A) (k : K) (x : A) :
  In x (group key dec l k) <-> In x l /\ key x = k.
Proof.
  unfold group. rewrite filter_In, in_group_true. reflexivity.
Qed.

Lemma In_group_keys (l : list A) (k : K) :
  In k (group_keys key dec l) <-> exists x, In x l /\ key x = k.
Proof.
  unfold group_keys. rewrite In_distinct, in_map_iff.
  split; intros [x [H1 H2]]; exists x; auto.
Qed.

Lemma NoDup_group_keys (l : list A) : NoDup (group_keys key dec l).
Proof. apply NoDup_distinct. Qed.

(** A group of the view is never empty. *)
Lemma group_nonempty (l : list A) (k : K) :
  In k (group_keys key dec l) -> group key dec l k <> [].
Proof.
  intros Hk. apply In_group_keys in Hk. destruct Hk as [x [Hx Hkx]].
  assert (Hin : In x (group key dec l k)) by (apply In_group; auto).
  intros E. rewrite E in Hin. exact Hin.
Qed.

(** Among distinct keys, exactly one takes a given row. *)
Lemma sumZ_indicator (ks : list K) (k0 : K) (v : Z) :
  NoDup ks -> In k0 ks ->
  sumZ (map (fun k => if dec k0 k then v else 0) ks) = v.
Proof.
  induction 1 as [| k ks Hnotin Hnd IH]; intros Hin; simpl.
  - contradiction.
  - destruct (dec k0 k) as [E | NE].
    + subst k.
      assert (Hz : sumZ (map (fun k => if dec k0 k then v else 0) ks) = 0).
      { clear IH Hnd Hin. induction ks as [| k' ks IH']; simpl.
        - reflexivity.
        - destruct (dec k0 k') as [E' | NE'].
          + subst k'. exfalso. apply Hnotin. now left.
          + rewrite IH'; [lia |]. intros H. apply Hnotin. now right. }
      lia.
    + destruct Hin as [E | Hin]; [congruence |].
      rewrite IH by assumption. lia.
Qed.

Lemma sumZ_map_add (ks : list K) (f g : K -> Z) :
  sumZ (map (fun k => f k + g k) ks) = sumZ (map f ks) + sumZ (map g ks).
Proof.
  induction ks as [| k ks IH]; simpl; [reflexivity | rewrite IH; lia].
Qed.

(** Summing group by group gives the sum over all rows. *)
Lemma sumZ_groups (f : A -> Z) (l : list A) (ks : list K) :
  NoDup ks ->
  (forall x, In x l -> In (key x) ks) ->
  sumZ (map (fun k => sumZ (map f (group key dec l k))) ks)
  = sumZ (map f l).
Proof.
  intros Hnd. induction l as [| x l IH]; intros Hin.
  - simpl. induction ks as [| k ks IHk]; simpl; [reflexivity |].
    inversion Hnd; subst. now rewrite IHk.
  - rewrite map_ext with
      (g := fun k => (if dec (key x) k then f x else 0)
                     + sumZ (map f (group key dec l k))).
    + rewrite sumZ_map_add, sumZ_indicator, IH; simpl; auto.
      * intros y Hy. apply Hin. now right.
      * apply Hin. now left.
    + intros k. unfold group. simpl. unfold in_group at 1.
      destruct (dec (key x) k); simpl; lia.
Qed.

Lemma group_filter (p : K -> bool) (l : list A) (k : K) :
  p k = true ->
  group key dec (filter (fun x => p (key x)) l) k = group key dec l k.
Proof.
  intros Hp. unfold group.
  induction l as [| x l IH]; simpl; [reflexivity |].
  destruct (in_group key dec k x) eqn:Hg.
  - apply in_group_true in Hg. rewrite Hg, Hp. simpl.
    replace (in_group key dec k x) with true
      by (symmetry; now apply in_group_true).
    now rewrite IH.
  - destruct (p (key x)); simpl; [rewrite Hg |]; exact IH.
Qed.

(** The same, restricted to the groups whose key satisfies [p]. *)
Lemma sumZ_groups_where (f : A -> Z) (p : K -> bool) (l : list A) :
  sumZ (map (fun k => sumZ (map f (group key dec l k)))
          (filter p (group_keys key dec l)))
  = sumZ (map f (filter (fun x => p (key x)) l)).
Proof.
  rewrite <- (@sumZ_groups f (filter (fun x => p (key x)) l)
                (filter p (group_keys key dec l))).
  - f_equal. apply map_ext_in. intros k Hk.
    apply filter_In in Hk. destruct Hk as [_ Hp].
    now rewrite group_filter.
  - apply NoDup_filter, NoDup_group_keys.
  - intros x Hx. apply filter_In in Hx. destruct Hx as [Hx Hp].
    apply filter_In. split; [| exact Hp].
    apply In_group_keys. now exists x.
Qed.

End GroupByFacts.

(* ------------------------------------------------------------------ *)
(** ** The analytics views *)
(* ------------------------------------------------------------------ *)

Lemma sumZ_non_null_map {A : Type} (g : A -> option Z) (l : list A) :
  sumZ (non_null (map g l)) = sumZ (map (fun x => to_number (g x)) l).
Proof.
  induction l as [| x l IH]; simpl; [reflexivity |].
  destruct (g x); simpl; rewrite IH; reflexivity.
Qed.

Lemma filter_nil_when {A : Type} (p : A -> bool) (l : list A) :
  (forall x, In x l -> p x = false) -> filter p l = [].
Proof.
  induction l as [| x l IH]; intros H; simpl; [reflexivity |].
  rewrite (H x) by now left.
  apply IH. intros y Hy. apply H. now right.
Qed.

(** Under the primary key, the join condition [t.project_id = p.id] finds
    exactly one project. *)
Lemma unique_project (ps : list project) (p0 : project) :
  NoDup (map p_id ps) -> In p0 ps ->
  filter (fun p => String.eqb (p_id p0) (p_id p)) ps = [p0].
Proof.
  induction ps as [| p ps IH]; intros Hnd Hin; simpl in *.
  - contradiction.
  - inversion Hnd as [| ? ? Hnotin Hnd']; subst.
    destruct Hin as [E | Hin].
    + subst p. rewrite String.eqb_refl. f_equal.
      apply filter_nil_when. intros q Hq.
      apply String.eqb_neq. intros E. apply Hnotin.
      rewrite E. now apply in_map.
    + destruct (String.eqb (p_id p0) (p_id p)) eqn:E.
      * apply String.eqb_eq in E. exfalso. apply Hnotin.
        rewrite <- E. now apply in_map.
      * now apply IH.
Qed.

Lemma In_join_projects {R : Type} (project_id : R -> uuid) (rows : list R)
    (ps : list project) (r : R) (p : project) :
  In (r, p) (join_projects project_id rows ps)
  <-> In r rows /\ In p ps /\ project_id r = p_id p.
Proof.
  unfold join_projects. rewrite in_flat_map. split.
  - intros [r' [Hr' Hin]]. apply in_map_iff in Hin.
    destruct Hin as [p' [E Hp']]. inversion E; subst.
    apply filter_In in Hp'. destruct Hp' as [Hp' Heq].
    apply String.eqb_eq in Heq. auto.
  - intros [Hr [Hp E]]. exists r. split; [assumption |].
    apply in_map, filter_In. split; [assumption |].
    now apply String.eqb_eq.
Qed.

(** The joined rows of one project are the rows that reference it, once
    each. *)
Lemma sumZ_join_project {R : Type} (project_id : R -> uuid) (rows : list R)
    (ps : list project) (p0 : project) (f : R -> Z) :
  NoDup (map p_id ps) -> In p0 ps ->
  sumZ (map (fun rp => f (fst rp))
          (filter (fun rp => String.eqb (p_id (snd rp)) (p_id p0))
             (join_projects project_id rows ps)))
  = sumZ (map f
            (filter (fun r => String.eqb (project_id r) (p_id p0)) rows)).
Proof.
  intros Hpk Hin. unfold join_projects.
  induction rows as [| t ts IH]; simpl; [reflexivity |].
  rewrite filter_app, map_app, sumZ_app, IH. clear IH.
  destruct (String.eqb (project_id t) (p_id p0)) eqn:E.
  - apply String.eqb_eq in E. rewrite E.
    rewrite (unique_project _ _ Hpk Hin). simpl.
    rewrite String.eqb_refl. simpl. lia.
  - rewrite filter_nil_when; [reflexivity |].
    intros [t' p'] Hin'. simpl. apply in_map_iff in Hin'.
    destruct Hin' as [q [Eq Hq]]. inversion Eq; subst.
    apply filter_In in Hq. destruct Hq as [_ Hq].
    apply String.eqb_eq in Hq. rewrite <- Hq. exact E.
Qed.

(** Under the primary key a project is determined by its id. *)
Lemma project_of_id (ps : list project) (p p' : project) :
  NoDup (map p_id ps) -> In p ps -> In p' ps -> p_id p = p_id p' -> p = p'.
Proof.
  intros Hnd Hp Hp' E.
  assert (H : In p' (filter (fun q => String.eqb (p_id p) (p_id q)) ps)).
  { apply filter_In. split; [assumption | now apply String.eqb_eq]. }
  rewrite (unique_project _ _ Hnd Hp) in H.
  destruct H as [H | []]. exact H.
Qed.

Section ViewFacts.

Variable date_trunc_month : Z -> Z.
Variable collate_leb : string -> string -> bool.

Local Abbreviation key_of := (mr_key_of date_trunc_month).
Local Abbreviation month := (month_of date_trunc_month).
Local Abbreviation view :=
  (monthly_revenue_by_project date_trunc_month collate_leb).

Lemma In_monthly_revenue (db : database) (r : monthly_revenue) :
  In r (view db)
  <-> exists k,
        In k (group_keys key_of mr_key_dec (transactions_join_projects db))
        /\ r = mr_row
                 (group key_of mr_key_dec (transactions_join_projects db) k)
                 k.
Proof.
  unfold monthly_revenue_by_project.
  rewrite In_sort_by, in_map_iff.
  split; intros [k [H1 H2]]; exists k; auto.
Qed.

(** The group of a view row is made of the transactions of its project
    and month. *)
Lemma In_mr_group (db : database) (k : mr_key) (t : transaction) :
  In k (group_keys key_of mr_key_dec (transactions_join_projects db)) ->
  In t (map fst
          (group key_of mr_key_dec (transactions_join_projects db) k))
  <-> In t (transactions db) /\ t_project_id t = snd (fst k)
      /\ month t = fst (fst k).
Proof.
  intros Hk. apply In_group_keys in Hk.
  destruct Hk as [[t0 p0] [Hj0 Hk0]].
  apply In_join_projects in Hj0.
  destruct Hj0 as [_ [Hp0 _]].
  unfold mr_key_of in Hk0. simpl in Hk0. subst k. simpl.
  rewrite in_map_iff. split.
  - intros [[t' p'] [E Hg]]. simpl in E. subst t'.
    apply In_group in Hg. destruct Hg as [Hj Hkey].
    apply In_join_projects in Hj.
    destruct Hj as [Ht [_ Hid]].
    unfold mr_key_of in Hkey. simpl in Hkey. inversion Hkey.
    repeat split; congruence.
  - intros [Ht [Hid Hm]]. exists (t, p0). split; [reflexivity |].
    apply In_group. split.
    + apply In_join_projects. auto.
    + unfold mr_key_of. simpl. now rewrite Hm.
Qed.

Lemma mr_total_revenue_value (g : list (transaction * project))
    (k : mr_key) :
  g <> [] ->
  mr_total_revenue (mr_row g k)
  = Some (sumZ (map (fun tp => if succeeded (fst tp)
                               then t_amount (fst tp) else 0) g)).
Proof.
  intros Hg. simpl.
  rewrite map_ext with
    (g := fun t => Some (if succeeded t then t_amount t else 0))
    by (intros t; now destruct (succeeded t)).
  rewrite <- map_map with (g := Some), sql_sum_Some, map_map.
  destruct g; [congruence | reflexivity].
Qed.

Lemma sumZ_succeeded (pid : uuid) (ts : list transaction) :
  sumZ (map (fun t => if succeeded t then t_amount t else 0)
          (filter (fun t => String.eqb (t_project_id t) pid) ts))
  = sumZ (map t_amount
            (filter (fun t => String.eqb (t_project_id t) pid
                              && succeeded t) ts)).
Proof.
  induction ts as [| t ts IH]; simpl; [reflexivity |].
  destruct (String.eqb (t_project_id t) pid); simpl; [| exact IH].
  destruct (succeeded t); simpl; rewrite IH; reflexivity.
Qed.

(** C2. For every project (a row of [projects], whose ids are unique by
    the primary key), the [total_revenue] column of
    [monthly_revenue_by_project], summed over the project's month rows,
    equals the sum of [amount] over the project's transactions with
    status 'succeeded'; no [total_revenue] of the view is NULL. *)
Theorem monthly_revenue_sums_to_succeeded (db : database) (p : project) :
  projects_pk db -> In p (projects db) ->
  Forall (fun r => mr_total_revenue r <> None) (view db)
  /\ sumZ (non_null
             (map mr_total_revenue
                (filter (fun r => String.eqb (mr_project_id r) (p_id p))
                   (view db))))
     = sumZ (map t_amount
               (filter (fun t => String.eqb (t_project_id t) (p_id p)
                                 && succeeded t)
                  (transactions db))).
Proof.
  intros Hpk Hin. split.
  - apply Forall_forall. intros r Hr.
    apply In_monthly_revenue in Hr. destruct Hr as [k [Hk Hr]]. subst r.
    rewrite mr_total_revenue_value by now apply group_nonempty.
    discriminate.
  - rewrite sumZ_non_null_map.
    unfold monthly_revenue_by_project.
    rewrite (sumZ_filter_Permutation _ _ _ _ (sort_by_Permutation _ _)).
    rewrite filter_map_comm, map_map.
    set (j := transactions_join_projects db).
    rewrite map_ext_in with
      (g := fun k =>
              sumZ (map (fun tp => if succeeded (fst tp)
                                   then t_amount (fst tp) else 0)
                      (group key_of mr_key_dec j k))).
    + simpl.
      rewrite (sumZ_groups_where _ _ key_of mr_key_dec
                 (fun tp => if succeeded (fst tp)
                            then t_amount (fst tp) else 0)
                 (fun k => String.eqb (snd (fst k)) (p_id p)) j).
      unfold j. simpl.
      unfold transactions_join_projects.
      rewrite (sumZ_join_project t_project_id (transactions db)
                 (projects db) p
                 (fun t => if succeeded t then t_amount t else 0)
                 Hpk Hin).
      apply sumZ_succeeded.
    + intros k Hk. apply filter_In in Hk. destruct Hk as [Hk _].
      rewrite mr_total_revenue_value by now apply group_nonempty.
      reflexivity.
Qed.

End ViewFacts.

Lemma sample_projects_pk : projects_pk Sample.db.
Proof.
  unfold projects_pk. simpl.
  repeat constructor; simpl; intuition discriminate.
Qed.

Lemma monthly_revenue_sums_to_succeeded_witness :
  projects_pk Sample.db /\ In Sample.acme (projects Sample.db)
  /\ sumZ (non_null
             (map mr_total_revenue
                (filter (fun r => String.eqb (mr_project_id r) "p1")
                   (monthly_revenue_by_project Calendar.date_trunc_month_utc
                      String.leb Sample.db))))
     = sumZ (map t_amount
               (filter (fun t => String.eqb (t_project_id t) "p1"
                                 && succeeded t)
                  (transactions Sample.db))).
Proof.
  split; [exact sample_projects_pk |].
  split; [simpl; auto |].
  apply (monthly_revenue_sums_to_succeeded Calendar.date_trunc_month_utc
           String.leb Sample.db Sample.acme).
  - exact sample_projects_pk.
  - simpl. auto.
Defined.

Example monthly_revenue_sample :
  monthly_revenue_by_project Calendar.date_trunc_month_utc String.leb
    Sample.db
  = [ {| mr_month := Some (Calendar.days_from_civil 2026 1 1);
         mr_project_id := "p1"; mr_project_name := "Acme";
         mr_total_revenue := Some 1000; mr_total_fees := Some 50;
         mr_net_revenue := Some 950; mr_paying_customers := 1 |} ].
Proof. vm_compute. reflexivity. Qed.

Lemma In_non_null {A : Type} (l : list (option A)) (a : A) :
  In a (non_null l) <-> In (Some a) l.
Proof.
  induction l as [| [x |] l IH]; simpl.
  - reflexivity.
  - rewrite IH. split; intros [H | H]; auto; left; congruence.
  - rewrite IH. split; [auto | intros [H | H]; [discriminate | exact H]].
Qed.

(** The SUM of a non-empty group in which every row contributes 0. *)
Lemma sql_sum_zeros {A : Type} (f : A -> option Z) (l : list A) :
  l <> [] -> (forall x, In x l -> f x = Some 0) ->
  sql_sum (map f l) = Some 0.
Proof.
  induction l as [| x l IH]; intros Hne Hall; [congruence |].
  simpl. rewrite (Hall x) by now left.
  destruct l as [| y l].
  - reflexivity.
  - rewrite IH; [reflexivity | discriminate |].
    intros z Hz. apply Hall. now right.
Qed.

Section MonthlyRows.

Variable date_trunc_month : Z -> Z.
Variable collate_leb : string -> string -> bool.

Local Abbreviation key_of := (mr_key_of date_trunc_month).
Local Abbreviation month := (month_of date_trunc_month).
Local Abbreviation view :=
  (monthly_revenue_by_project date_trunc_month collate_leb).

(** Where a row of the view comes from: a transaction of its project and
    month. *)
Lemma monthly_revenue_row_origin (db : database) (r : monthly_revenue) :
  In r (view db) ->
  exists t, In t (transactions db)
            /\ t_project_id t = mr_project_id r /\ month t = mr_month r.
Proof.
  intros Hr. apply In_monthly_revenue in Hr.
  destruct Hr as [k [Hk Hr]]. subst r. simpl.
  apply In_group_keys in Hk. destruct Hk as [[t p'] [Hj Hkey]].
  apply In_join_projects in Hj. destruct Hj as [Ht [_ Hid]].
  unfold mr_key_of in Hkey. simpl in Hkey. subst k. simpl.
  exists t. auto.
Qed.

(** C8. For a project [p] of [projects] and a month [m] (NULL for
    transactions without [created_at]): the view has a row for [(p, m)] if
    and only if [p] has a transaction of any status in [m]; when none of
    those transactions has status 'succeeded', every such row has
    total_revenue, total_fees and net_revenue equal to 0; and a project
    without transactions has no row at all. *)
Theorem monthly_revenue_row_iff_transaction (db : database) (p : project)
    (m : option Z) :
  In p (projects db) ->
  ((exists r, In r (view db) /\ mr_project_id r = p_id p /\ mr_month r = m)
   <-> (exists t, In t (transactions db)
                  /\ t_project_id t = p_id p /\ month t = m))
  /\ ((forall t, In t (transactions db) -> t_project_id t = p_id p ->
                 month t = m -> succeeded t = false) ->
      forall r, In r (view db) -> mr_project_id r = p_id p ->
                mr_month r = m ->
                mr_total_revenue r = Some 0 /\ mr_total_fees r = Some 0
                /\ mr_net_revenue r = Some 0)
  /\ ((forall t, In t (transactions db) -> t_project_id t <> p_id p) ->
      forall r, In r (view db) -> mr_project_id r <> p_id p).
Proof.
  intros Hp. split; [| split].
  - split.
    + intros [r [Hr [Hid Hm]]].
      destruct (monthly_revenue_row_origin db r Hr) as [t [Ht [Hid' Hm']]].
      exists t. repeat split; congruence.
    + intros [t [Ht [Hid Hm]]].
      set (k := key_of (t, p)).
      exists (mr_row (group key_of mr_key_dec
                        (transactions_join_projects db) k) k).
      split; [| split].
      * apply In_monthly_revenue. exists k. split; [| reflexivity].
        apply In_group_keys. exists (t, p). split; [| reflexivity].
        apply In_join_projects. auto.
      * reflexivity.
      * exact Hm.
  - intros Hnone r Hr Hid Hm.
    apply In_monthly_revenue in Hr. destruct Hr as [k [Hk Hr]]. subst r.
    simpl in Hid, Hm.
    assert (Hne : map fst (group key_of mr_key_dec
                             (transactions_join_projects db) k) <> []).
    { pose proof (group_nonempty _ _ key_of mr_key_dec _ _ Hk) as Hg.
      destruct (group key_of mr_key_dec (transactions_join_projects db) k);
        [congruence | discriminate]. }
    assert (Hfail : forall t,
               In t (map fst (group key_of mr_key_dec
                                (transactions_join_projects db) k)) ->
               succeeded t = false).
    { intros t Ht. apply (In_mr_group _ db k t Hk) in Ht.
      destruct Ht as [Ht [Hid' Hm']]. apply Hnone; congruence. }
    simpl. repeat split; apply sql_sum_zeros; try assumption;
      intros t Ht; now rewrite (Hfail t Ht).
  - intros Hnone r Hr Hid.
    destruct (monthly_revenue_row_origin db r Hr) as [t [Ht [Hid' _]]].
    apply (Hnone t Ht). congruence.
Qed.

(** What [paying_customers] counts: the distinct customers linked to a
    succeeded transaction of type 'payment' in the row's project and
    month. *)
Lemma paying_customers_spec (db : database) (r : monthly_revenue) :
  In r (view db) ->
  exists cs : list uuid,
    NoDup cs
    /\ mr_paying_customers r = Z.of_nat (List.length cs)
    /\ forall c, In c cs
                 <-> exists t, In t (transactions db)
                               /\ t_project_id t = mr_project_id r
                               /\ month t = mr_month r
                               /\ t_status t = "succeeded"
                               /\ t_type t = "payment"
                               /\ t_customer_id t = Some c.
Proof.
  intros Hr. apply In_monthly_revenue in Hr.
  destruct Hr as [k [Hk Hr]]. subst r.
  set (ts := map fst (group key_of mr_key_dec
                        (transactions_join_projects db) k)).
  set (F := fun t : transaction =>
              if succeeded t && String.eqb (t_type t) "payment"
              then t_customer_id t else None).
  exists (nodup string_dec (non_null (map F ts))).
  split; [apply NoDup_nodup |]. split; [reflexivity |].
  intros c. rewrite nodup_In, In_non_null, in_map_iff. simpl. split.
  - intros [t [HF Ht]]. apply (In_mr_group _ db k t Hk) in Ht.
    destruct Ht as [Ht [Hid Hm]]. exists t.
    unfold F, succeeded in HF.
    destruct (String.eqb (t_status t) "succeeded") eqn:Es;
      [| discriminate].
    destruct (String.eqb (t_type t) "payment") eqn:Et; [| discriminate].
    apply String.eqb_eq in Es, Et. simpl in HF. auto 10.
  - intros [t [Ht [Hid [Hm [Es [Et Hc]]]]]]. exists t. split.
    + unfold F, succeeded. rewrite Es, Et. simpl. exact Hc.
    + apply (In_mr_group _ db k t Hk). auto.
Qed.

End MonthlyRows.

(** C10. In every row of [monthly_revenue_by_project], [paying_customers]
    is the number of distinct customers linked (non-NULL [customer_id]) to
    a succeeded transaction of type 'payment' of the row's project and
    month; and there is a database whose view has a row with positive
    [total_revenue] and [paying_customers] 0 (a single succeeded payment
    without customer). *)
Theorem paying_customers_counts_linked_customers :
  (forall (date_trunc_month : Z -> Z)
          (collate_leb : string -> string -> bool)
          (db : database) (r : monthly_revenue),
      In r (monthly_revenue_by_project date_trunc_month collate_leb db) ->
      exists cs : list uuid,
        NoDup cs
        /\ mr_paying_customers r = Z.of_nat (List.length cs)
        /\ forall c, In c cs
                     <-> exists t, In t (transactions db)
                                   /\ t_project_id t = mr_project_id r
                                   /\ month_of date_trunc_month t
                                      = mr_month r
                                   /\ t_status t = "succeeded"
                                   /\ t_type t = "payment"
                                   /\ t_customer_id t = Some c)
  /\ (exists r,
         In r (monthly_revenue_by_project Calendar.date_trunc_month_utc
                 String.leb Sample.db_anonymous)
         /\ mr_total_revenue r = Some 700
         /\ mr_paying_customers r = 0).
Proof.
  split.
  - intros dtm coll db r Hr. exact (paying_customers_spec dtm coll db r Hr).
  - eexists. split; [vm_compute; left; reflexivity |].
    split; reflexivity.
Qed.

Lemma monthly_revenue_row_iff_transaction_witness :
  In Sample.acme (projects Sample.db)
  /\ (exists r,
         In r (monthly_revenue_by_project Calendar.date_trunc_month_utc
                 String.leb Sample.db)
         /\ mr_project_id r = "p1"
         /\ mr_month r = Some (Calendar.days_from_civil 2026 1 1)).
Proof.
  split; [simpl; auto |].
  apply (monthly_revenue_row_iff_transaction Calendar.date_trunc_month_utc
           String.leb Sample.db Sample.acme
           (Some (Calendar.days_from_civil 2026 1 1))).
  - simpl. auto.
  - exists Sample.t1. split; [simpl; auto |]. split; reflexivity.
Defined.

(* ------------------------------------------------------------------ *)
(** ** Dashboard: summary statistics *)
(* ------------------------------------------------------------------ *)

Lemma row_embed_customers (db : database) (l : list transaction) :
  map row (map (embed_customers db) l) = l.
Proof.
  rewrite map_map. simpl. apply map_id.
Qed.

Lemma filter_and_true {A : Type} (p : A -> bool) (l : list A) :
  filter (fun x => p x && true) l = filter p l.
Proof.
  apply filter_ext. intros x. apply andb_true_r.
Qed.

(** The statistics [fetchStats] stores when the service answers from
    [db]: revenue and fees are summed over the succeeded transactions of
    the project, transactions and customers are counted over everything
    fetched, MRR is summed over the active subscriptions. *)
Lemma fetchStats_stats (db : database) (projectId : uuid)
    (w : world Dashboard) :
  let ts := filter (fun t => String.eqb (t_project_id t) projectId)
              (transactions db) in
  let ss := filter (fun s => String.eqb (s_project_id s) projectId
                             && String.eqb (s_status s) "active")
              (subscriptions db) in
  d_stats (component (snd (fetchStats (supabase db) projectId w)))
  = {| totalRevenue := sumZ (map t_amount (filter succeeded ts));
       totalFees :=
         sumZ (map (fun t => to_number (t_fee_amount t))
                 (filter succeeded ts));
       netRevenue :=
         sumZ (map t_amount (filter succeeded ts))
         - sumZ (map (fun t => to_number (t_fee_amount t))
                   (filter succeeded ts));
       totalTransactions := Z.of_nat (List.length ts);
       totalCustomers :=
         Z.of_nat (List.length
                     (filter (fun k => String.eqb (c_project_id k) projectId)
                        (customers db)));
       activeSubscriptions := Z.of_nat (List.length ss);
       mrr := sumZ (map s_amount ss) |}.
Proof.
  intros ts ss. unfold fetchStats, bind, await. cbn.
  rewrite !reduce_sum, !filter_and_true.
  rewrite (filter_map_comm (embed_customers db)
             (fun t => String.eqb (t_status (row t)) "succeeded")).
  rewrite !length_map, !map_map. cbn.
  replace (filter
             (fun r => String.eqb (s_project_id r) projectId
                       && (String.eqb (s_status r) "active" && true))
             (subscriptions db)) with ss
    by (apply filter_ext; intros s; now rewrite andb_true_r).
  reflexivity.
Qed.

(** C1. The statistics [fetchStats] stores sum [amount] and [fee_amount]
    over the succeeded transactions of the project only and count all of
    its fetched transactions; so for a project whose transactions are
    exactly {amount=1000, fee_amount=50, status=succeeded} and
    {amount=500, fee_amount=0, status=failed} (in either order, whatever
    the other projects hold) they are totalRevenue=1000, totalFees=50,
    netRevenue=950 and totalTransactions=2. *)
Theorem fetchStats_example (db : database) (projectId : uuid)
    (w : world Dashboard) :
  let ts := filter (fun t => String.eqb (t_project_id t) projectId)
              (transactions db) in
  let s := d_stats (component (snd (fetchStats (supabase db) projectId w))) in
  (totalRevenue s = sumZ (map t_amount (filter succeeded ts))
   /\ totalFees s
      = sumZ (map (fun t => to_number (t_fee_amount t)) (filter succeeded ts))
   /\ netRevenue s = totalRevenue s - totalFees s
   /\ totalTransactions s = Z.of_nat (List.length ts))
  /\ (Permutation
        (map (fun t => (t_amount t, t_fee_amount t, t_status t)) ts)
        [(1000, Some 50, "succeeded"); (500, Some 0, "failed")] ->
      totalRevenue s = 1000 /\ totalFees s = 50 /\ netRevenue s = 950
      /\ totalTransactions s = 2).
Proof.
  intros ts s. subst s. rewrite fetchStats_stats. fold ts.
  split; [cbn; auto |].
  intros Hperm.
  apply Permutation_sym, Permutation_length_2_inv in Hperm.
  destruct ts as [| a [| b [| c l]]];
    destruct Hperm as [H | H]; try discriminate H;
    inversion H as [[Ha1 Ha2 Ha3 Hb1 Hb2 Hb3]];
    cbn; unfold succeeded; rewrite Ha3, Hb3; cbn;
    rewrite ?Ha1, ?Ha2, ?Hb1, ?Hb2; cbn; auto.
Qed.

Lemma fetchStats_example_witness :
  let s := d_stats (component
                      (snd (fetchStats (supabase Sample.db) "p1"
                              (mounted Dashboard_initial)))) in
  totalRevenue s = 1000 /\ totalFees s = 50 /\ netRevenue s = 950
  /\ totalTransactions s = 2.
Proof.
  apply (fetchStats_example Sample.db "p1" (mounted Dashboard_initial)).
  cbn. apply Permutation_refl.
Defined.

(* ------------------------------------------------------------------ *)
(** ** MRR: the view and the client *)
(* ------------------------------------------------------------------ *)

Lemma filter_filter_and {A : Type} (p q : A -> bool) (l : list A) :
  filter p (filter q l) = filter (fun x => p x && q x) l.
Proof.
  induction l as [| x l IH]; simpl; [reflexivity |].
  destruct (q x); simpl.
  - destruct (p x); simpl; now rewrite IH.
  - rewrite andb_false_r. exact IH.
Qed.

Lemma In_active_subscriptions (db : database) (r : active_subscriptions) :
  In r (active_subscriptions_by_project db)
  <-> exists k,
        In k (group_keys as_key_of as_key_dec
                (active_subscriptions_join_projects db))
        /\ r = as_row
                 (group as_key_of as_key_dec
                    (active_subscriptions_join_projects db) k) k.
Proof.
  unfold active_subscriptions_by_project. rewrite in_map_iff.
  split; intros [k [H1 H2]]; exists k; auto.
Qed.

(** Under the primary key, the group of a project in
    [active_subscriptions_by_project] holds the project's active
    subscriptions, once each. *)
Lemma active_group_sum (db : database) (p : project) :
  projects_pk db -> In p (projects db) ->
  sumZ (map (fun sp => s_amount (fst sp))
          (group as_key_of as_key_dec
             (active_subscriptions_join_projects db)
             (p_id p, p_name p)))
  = mrr_reference db (p_id p).
Proof.
  intros Hpk Hp. unfold group.
  rewrite filter_ext_in with
    (g := fun sp => String.eqb (p_id (snd sp)) (p_id p)).
  - unfold active_subscriptions_join_projects.
    rewrite (sumZ_join_project s_project_id _ (projects db) p s_amount
               Hpk Hp).
    rewrite filter_filter_and. reflexivity.
  - intros [s p'] Hin. apply In_join_projects in Hin.
    destruct Hin as [_ [Hp' _]]. simpl.
    destruct (String.eqb (p_id p') (p_id p)) eqn:E.
    + apply String.eqb_eq in E.
      rewrite (project_of_id _ _ _ Hpk Hp' Hp E).
      now apply in_group_true.
    + unfold in_group. destruct (as_key_dec (as_key_of (s, p')) _) as [K | K];
        [| reflexivity].
      unfold as_key_of in K. simpl in K. inversion K as [[Hid Hname]].
      rewrite Hid, String.eqb_refl in E. discriminate.
Qed.

(** C7, for the rows the view has. For every project [p] (primary key
    assumed): every row that [active_subscriptions_by_project] has for
    [p] reports an [mrr]
    equal to the sum of [amount] over the active subscriptions of [p];
    the view has a row for [p] exactly when [p] has an active
    subscription; and the [mrr] that [fetchStats] computes from a
    successful fetch equals the same sum. *)
Theorem mrr_view_and_client (db : database) (p : project)
    (w : world Dashboard) :
  projects_pk db -> In p (projects db) ->
  (forall r, In r (active_subscriptions_by_project db) ->
             as_project_id r = p_id p ->
             as_mrr r = Some (mrr_reference db (p_id p)))
  /\ ((exists r, In r (active_subscriptions_by_project db)
                 /\ as_project_id r = p_id p)
      <-> (exists s, In s (subscriptions db) /\ s_project_id s = p_id p
                     /\ s_status s = "active"))
  /\ mrr (d_stats (component (snd (fetchStats (supabase db) (p_id p) w))))
     = mrr_reference db (p_id p).
Proof.
  intros Hpk Hp. split; [| split].
  - intros r Hr Hid. apply In_active_subscriptions in Hr.
    destruct Hr as [k [Hk Hr]]. subst r. simpl in Hid.
    pose proof (group_nonempty _ _ as_key_of as_key_dec _ _ Hk) as Hne.
    assert (Ek : k = (p_id p, p_name p)).
    { apply In_group_keys in Hk. destruct Hk as [[s p'] [Hj Hkey]].
      apply In_join_projects in Hj. destruct Hj as [_ [Hp' _]].
      unfold as_key_of in Hkey. simpl in Hkey. subst k. simpl in Hid.
      now rewrite (project_of_id _ _ _ Hpk Hp' Hp Hid). }
    subst k. simpl. rewrite map_map.
    rewrite <- map_map with (g := Some)
                            (f := fun sp => s_amount (fst sp)).
    rewrite sql_sum_Some, active_group_sum by assumption.
    destruct (group as_key_of as_key_dec
                (active_subscriptions_join_projects db) (p_id p, p_name p));
      [congruence | reflexivity].
  - split.
    + intros [r [Hr Hid]]. apply In_active_subscriptions in Hr.
      destruct Hr as [k [Hk Hr]]. subst r. simpl in Hid.
      apply In_group_keys in Hk. destruct Hk as [[s p'] [Hj Hkey]].
      apply In_join_projects in Hj. destruct Hj as [Hs [_ Hfk]].
      apply filter_In in Hs. destruct Hs as [Hs Hact].
      apply String.eqb_eq in Hact.
      unfold as_key_of in Hkey. simpl in Hkey. subst k. simpl in Hid.
      exists s. repeat split; congruence.
    + intros [s [Hs [Hfk Hact]]].
      exists (as_row (group as_key_of as_key_dec
                        (active_subscriptions_join_projects db)
                        (p_id p, p_name p)) (p_id p, p_name p)).
      split; [| reflexivity].
      apply In_active_subscriptions. exists (p_id p, p_name p).
      split; [| reflexivity].
      apply In_group_keys. exists (s, p). split; [| reflexivity].
      apply In_join_projects. repeat split; try assumption.
      apply filter_In. split; [assumption | now apply String.eqb_eq].
  - rewrite fetchStats_stats. reflexivity.
Qed.

Lemma mrr_view_and_client_witness :
  projects_pk Sample.db /\ In Sample.acme (projects Sample.db)
  /\ (exists r, In r (active_subscriptions_by_project Sample.db)
                /\ as_project_id r = "p1")
  /\ mrr (d_stats (component
                     (snd (fetchStats (supabase Sample.db) "p1"
                             (mounted Dashboard_initial)))))
     = mrr_reference Sample.db "p1".
Proof.
  split; [exact sample_projects_pk |].
  split; [simpl; auto |].
  destruct (mrr_view_and_client Sample.db Sample.acme
              (mounted Dashboard_initial) sample_projects_pk
              (or_introl eq_refl)) as [_ [Hrow Hclient]].
  split; [| exact Hclient].
  apply Hrow. exists (Sample.sub "s1" "active" 2000).
  split; [simpl; auto |]. split; reflexivity.
Defined.

Example active_subscriptions_sample :
  active_subscriptions_by_project Sample.db
  = [ {| as_project_id := "p1"; as_project_name := "Acme";
         as_total_active := 1; as_mrr := Some 2000;
         as_scheduled_cancellations := 0 |} ].
Proof. vm_compute. reflexivity. Qed.

(** Project p2 of the sample has no active subscription: the reference
    sum is 0 and the client reports 0, but the view has no row that
    reports it. *)
Lemma mrr_view_has_no_row_without_active_subscription :
  projects_pk Sample.db /\ In Sample.globex (projects Sample.db)
  /\ mrr_reference Sample.db (p_id Sample.globex) = 0
  /\ ~ (exists r, In r (active_subscriptions_by_project Sample.db)
                  /\ as_project_id r = p_id Sample.globex
                  /\ as_mrr r = Some (mrr_reference Sample.db
                                        (p_id Sample.globex))).
Proof.
  split; [exact sample_projects_pk |].
  split; [simpl; auto |].
  split; [reflexivity |].
  rewrite active_subscriptions_sample.
  intros [r [[Hr | []] [Hid _]]]. subst r. discriminate Hid.
Qed.

(* ------------------------------------------------------------------ *)
(** ** The generated column [net_amount] *)
(* ------------------------------------------------------------------ *)

(** Take apart a successful sequence of steps. *)
Ltac sql_step H :=
  match type of H with
  | sql_bind ?r _ = SqlOk _ =>
      let E := fresh "E" in
      destruct r eqn:E; simpl in H; [| discriminate H]
  end.

Lemma int4_in_ok (v r : option Z) : int4_in v = SqlOk r -> r = v.
Proof.
  unfold int4_in. destruct v as [z |]; [destruct (in_int4 z) |];
    intros H; now inversion H.
Qed.

Lemma int4_minus_ok (a b r : option Z) :
  int4_minus a b = SqlOk r -> r = sql_minus a b.
Proof. apply int4_in_ok. Qed.

Lemma table_constraints_checks (ses : session) (others : list transaction)
    (t : transaction) :
  table_constraints ses others t = SqlOk tt ->
  0 <= t_amount t /\ forall fee, t_fee_amount t = Some fee -> 0 <= fee.
Proof.
  unfold table_constraints. intros H.
  sql_step H. sql_step H. clear H. split.
  - unfold check in E. destruct (0 <=? t_amount t) eqn:Ea;
      [now apply Z.leb_le | discriminate].
  - intros fee Hfee. rewrite Hfee in E0. simpl in E0.
    destruct (0 <=? fee) eqn:Ef; [now apply Z.leb_le | discriminate].
Qed.

Lemma stored_row_ok_intro (ses : session) (others : list transaction)
    (t : transaction) :
  t_net_amount t = sql_minus (Some (t_amount t)) (t_fee_amount t) ->
  table_constraints ses others t = SqlOk tt ->
  stored_row_ok t.
Proof.
  intros Hnet Hc. apply table_constraints_checks in Hc.
  destruct Hc as [Ha Hf]. repeat split; auto.
  rewrite Hnet, H. reflexivity.
Qed.

(** Conclude from the two steps that matter: the generated column and
    the constraints. *)
Ltac stored_row_from_steps :=
  match goal with
  | Hm : int4_minus _ _ = SqlOk _,
    Hc : table_constraints _ _ _ = SqlOk ?u |- _ =>
      destruct u; apply int4_minus_ok in Hm;
      eapply stored_row_ok_intro; [| exact Hc]; exact Hm
  end.

Lemma insert_row_ok (ses : session) (tbl : list transaction)
    (iv : insert_values) (t : transaction) :
  insert_row ses tbl iv = SqlOk t -> stored_row_ok t.
Proof.
  unfold insert_row. intros H.
  do 11 sql_step H. inversion H; subst; clear H.
  stored_row_from_steps.
Qed.

Lemma update_row_ok (ses : session) (others : list transaction)
    (set : update_set) (t t' : transaction) :
  update_row ses others set t = SqlOk t' -> stored_row_ok t'.
Proof.
  unfold update_row. intros H.
  do 6 sql_step H. inversion H; subst; clear H.
  stored_row_from_steps.
Qed.

Lemma update_rows_ok (ses : session) (set : update_set)
    (selects : transaction -> bool) (todo done tbl' : list transaction) :
  Forall stored_row_ok done -> Forall stored_row_ok todo ->
  update_rows ses set selects done todo = SqlOk tbl' ->
  Forall stored_row_ok tbl'.
Proof.
  revert done. induction todo as [| t todo IH]; intros done Hd Ht H; simpl in H.
  - inversion H; subst. now apply Forall_rev.
  - inversion Ht as [| ? ? Hok Ht']; subst.
    destruct (selects t).
    + sql_step H. apply update_row_ok in E.
      apply (IH (a :: done)); auto.
    + apply (IH (t :: done)); auto.
Qed.

Lemma exec_ok (ses : session) (tbl tbl' : list transaction)
    (stmt : statement) :
  Forall stored_row_ok tbl -> exec ses tbl stmt = SqlOk tbl' ->
  Forall stored_row_ok tbl'.
Proof.
  intros Hok H. destruct stmt as [iv | set selects | selects]; simpl in H.
  - sql_step H. inversion H; subst. apply insert_row_ok in E.
    apply Forall_app. auto.
  - eapply update_rows_ok; [constructor | exact Hok | exact H].
  - inversion H; subst. apply Forall_forall. intros t Ht.
    apply filter_In in Ht. destruct Ht as [Ht _].
    rewrite Forall_forall in Hok. now apply Hok.
Qed.

(** C5. In every history of the table (any INSERT, UPDATE and DELETE
    statements, failed ones undone), every stored row satisfies the CHECK
    constraints and has [net_amount] equal to [amount - fee_amount]: NULL
    when [fee_amount] is NULL, the exact difference otherwise. A statement
    that gives [net_amount] a value of its own is refused. *)
Theorem net_amount_is_amount_minus_fee :
  (forall history : list (session * statement),
      Forall stored_row_ok (run history))
  /\ (forall ses tbl iv v,
         iv_net_amount iv = VALUE v ->
         insert_row ses tbl iv = SqlError (generated_always "net_amount"))
  /\ (forall ses others set t v,
         us_net_amount set = Some (VALUE v) ->
         update_row ses others set t
         = SqlError (generated_always "net_amount")).
Proof.
  split; [| split].
  - intros history. unfold run.
    assert (H : forall tbl, Forall stored_row_ok tbl ->
                Forall stored_row_ok
                  (fold_left
                     (fun tbl step =>
                        match exec (fst step) tbl (snd step) with
                        | SqlOk tbl' => tbl'
                        | SqlError _ => tbl
                        end) history tbl)).
    { induction history as [| [ses stmt] history IH]; intros tbl Hok; simpl.
      - exact Hok.
      - apply IH. destruct (exec ses tbl stmt) eqn:E; [| exact Hok].
        eapply exec_ok; eauto. }
    apply H. constructor.
  - intros ses tbl iv v Hv. unfold insert_row. rewrite Hv. reflexivity.
  - intros ses others set t v Hv. unfold update_row. rewrite Hv.
    reflexivity.
Qed.

Example insert_computes_net_amount :
  map (fun t => (t_amount t, t_fee_amount t, t_net_amount t))
    (run [(Sample.ses "a", Sample.insert_payment "ch_1" (VALUE (Some 1000))
                             (VALUE (Some 50)));
          (Sample.ses "b", Sample.insert_payment "ch_2" (VALUE (Some 500))
                             DEFAULT);
          (Sample.ses "c", Sample.insert_payment "ch_3" (VALUE (Some 700))
                             (VALUE None))])
  = [(1000, Some 50, Some 950); (500, Some 0, Some 500); (700, None, None)].
Proof. vm_compute. reflexivity. Qed.

Example update_recomputes_net_amount :
  map (fun t => (t_amount t, t_fee_amount t, t_net_amount t))
    (run [(Sample.ses "a", Sample.insert_payment "ch_1" (VALUE (Some 1000))
                             (VALUE (Some 50)));
          (Sample.ses "a", Sample.update_fee "a" (Some 80))])
  = [(1000, Some 80, Some 920)].
Proof. vm_compute. reflexivity. Qed.

Example refused_statements_store_nothing :
  run [(Sample.ses "a", Sample.insert_with_net "ch_1" 1000 50 950);
       (Sample.ses "b", Sample.insert_payment "ch_2" (VALUE (Some (-1)))
                          DEFAULT);
       (Sample.ses "c", Sample.insert_payment "ch_3" (VALUE (Some 10))
                          (VALUE (Some (-5))));
       (Sample.ses "d", Sample.insert_payment "ch_4"
                          (VALUE (Some 2147483648)) DEFAULT);
       (Sample.ses "e", Sample.insert_payment "ch_5" (VALUE None) DEFAULT)]
  = [].
Proof. vm_compute. reflexivity. Qed.

(* ------------------------------------------------------------------ *)
(** ** ORDER BY sorts *)
(* ------------------------------------------------------------------ *)

Section Sorting.

Variable A : Type.
Variable leb : A -> A -> bool.
Hypothesis leb_total : forall a b, leb a b = false -> leb b a = true.

Local Abbreviation before := (fun a b => leb a b = true).

Lemma HdRel_insert_by (x y : A) (l : list A) :
  HdRel before y l -> leb y x = true -> HdRel before y (insert_by leb x l).
Proof.
  intros Hhd Hyx. destruct l as [| z l]; simpl.
  - now constructor.
  - destruct (leb x z); constructor; [assumption |].
    now inversion Hhd.
Qed.

Lemma insert_by_Sorted (x : A) (l : list A) :
  Sorted before l -> Sorted before (insert_by leb x l).
Proof.
  induction 1 as [| y l Hs IH Hhd]; simpl.
  - repeat constructor.
  - destruct (leb x y) eqn:E.
    + constructor; [now constructor | now constructor].
    + constructor; [exact IH |].
      apply HdRel_insert_by; [exact Hhd | now apply leb_total].
Qed.

Lemma sort_by_Sorted (l : list A) : Sorted before (sort_by leb l).
Proof.
  induction l as [| x l IH]; simpl.
  - constructor.
  - now apply insert_by_Sorted.
Qed.

End Sorting.

Lemma desc_leb_total (a b : option Z) :
  desc_leb a b = false -> desc_leb b a = true.
Proof.
  destruct a as [x |], b as [y |]; simpl; try congruence.
  intros H. apply Z.leb_gt in H. apply Z.leb_le. lia.
Qed.

Lemma desc_leb_trans (a b c : option Z) :
  desc_leb a b = true -> desc_leb b c = true -> desc_leb a c = true.
Proof.
  destruct a as [x |], b as [y |], c as [z |]; simpl; try congruence.
  rewrite !Z.leb_le. lia.
Qed.

Lemma sort_by_newest_first (l : list transaction) :
  StronglySorted newest_first
    (sort_by (fun a b => desc_leb (t_created_at a) (t_created_at b)) l).
Proof.
  apply Sorted_StronglySorted.
  - intros a b c. apply desc_leb_trans.
  - apply (sort_by_Sorted _
             (fun a b => desc_leb (t_created_at a) (t_created_at b))).
    intros a b. apply desc_leb_total.
Qed.

(* ------------------------------------------------------------------ *)
(** ** TransactionList: the fetched list *)
(* ------------------------------------------------------------------ *)

(** The outcome of [fetchTransactions] when the service answers from
    [db]. *)
Lemma fetchTransactions_supabase (db : database) (projectId : uuid)
    (w : world TransactionList) :
  fetchTransactions (supabase db) projectId w
  = (Normal tt,
     {| component :=
          {| tl_transactions :=
               map (embed_customers db)
                 (sort_by
                    (fun a b => desc_leb (t_created_at a) (t_created_at b))
                    (listed db projectId (tl_filter (component w))));
             tl_loading := false;
             tl_filter := tl_filter (component w) |};
        console := console w;
        requests :=
          requests w
          ++ [transactions_query projectId (tl_filter (component w))] |}).
Proof.
  unfold fetchTransactions, try_catch_finally, bind, await, setLoading,
    set_state, get_state, transactions_query, listed.
  cbn. destruct (String.eqb (tl_filter (component w)) "all") eqn:E; cbn.
  - reflexivity.
  - rewrite (filter_ext
               (fun r => String.eqb (t_project_id r) projectId
                         && (String.eqb (t_status r) (tl_filter (component w))
                             && true))
               (fun t => String.eqb (t_project_id t) projectId
                         && String.eqb (t_status t) (tl_filter (component w))));
      [reflexivity |].
    intros t. now rewrite andb_true_r.
Qed.

(** C9. After [fetchTransactions] against a service answering from [db]:
    with a filter other than 'all' the list holds exactly the rows of the
    project whose status equals the filter; with 'all' it holds all rows
    of the project; in both cases it is ordered by [created_at]
    descending. *)
Theorem fetchTransactions_filters_and_orders (db : database)
    (projectId : uuid) (w : world TransactionList) :
  let filter_ := tl_filter (component w) in
  let shown :=
    map row
      (tl_transactions
         (component (snd (fetchTransactions (supabase db) projectId w)))) in
  (filter_ <> "all" ->
   Permutation shown
     (filter (fun t => String.eqb (t_project_id t) projectId
                       && String.eqb (t_status t) filter_)
        (transactions db)))
  /\ (filter_ = "all" ->
      Permutation shown
        (filter (fun t => String.eqb (t_project_id t) projectId)
           (transactions db)))
  /\ StronglySorted newest_first shown.
Proof.
  intros filter_ shown. subst shown.
  rewrite fetchTransactions_supabase. cbn.
  rewrite row_embed_customers. fold filter_.
  split; [| split].
  - intros Hne. eapply Permutation_trans; [apply sort_by_Permutation |].
    unfold listed. apply String.eqb_neq in Hne. rewrite Hne. simpl.
    apply Permutation_refl.
  - intros He. eapply Permutation_trans; [apply sort_by_Permutation |].
    unfold listed. rewrite He. simpl.
    rewrite (filter_ext _ (fun t => String.eqb (t_project_id t) projectId));
      [apply Permutation_refl |].
    intros t. apply andb_true_r.
  - apply sort_by_newest_first.
Qed.

(* ------------------------------------------------------------------ *)
(** ** TransactionList: a failing fetch *)
(* ------------------------------------------------------------------ *)

(** C6, with the result set kept. When the query of [fetchTransactions]
    fails (the promise rejects, or is fulfilled with an error), the
    function ends
    normally with the error logged once, the loading indicator cleared,
    exactly one query sent (no retry), and the result set left as it was
    before the fetch; so it is empty when it was empty before, as on first
    load. *)
Theorem fetchTransactions_failure (supabase : backend) (projectId : uuid)
    (w : world TransactionList) (e : js_error) :
  let q := transactions_query projectId (tl_filter (component w)) in
  (query_transactions supabase q = Rejected e
   \/ exists d, query_transactions supabase q = Fulfilled d (Some e)) ->
  fetchTransactions supabase projectId w
  = (Normal tt,
     {| component :=
          {| tl_transactions := tl_transactions (component w);
             tl_loading := false;
             tl_filter := tl_filter (component w) |};
        console := console w ++ [("Error fetching transactions:", e)];
        requests := requests w ++ [q] |})
  /\ (tl_transactions (component w) = [] ->
      tl_transactions
        (component (snd (fetchTransactions supabase projectId w))) = []).
Proof.
  intros q Hfail.
  assert (H : fetchTransactions supabase projectId w
              = (Normal tt,
                 {| component :=
                      {| tl_transactions := tl_transactions (component w);
                         tl_loading := false;
                         tl_filter := tl_filter (component w) |};
                    console :=
                      console w ++ [("Error fetching transactions:", e)];
                    requests := requests w ++ [q] |})).
  { unfold fetchTransactions, try_catch_finally, bind, await, setLoading,
      console_error, throw, set_state, get_state.
    cbn. fold q.
    destruct Hfail as [Hrej | [d Herr]]; [rewrite Hrej | rewrite Herr];
      reflexivity. }
  split; [exact H |].
  intros Hempty. rewrite H. exact Hempty.
Qed.

Lemma fetchTransactions_failure_witness :
  tl_transactions
    (component
       (snd (fetchTransactions (unreachable "TypeError: Failed to fetch")
               "p1" (mounted TransactionList_initial)))) = []
  /\ tl_loading
       (component
          (snd (fetchTransactions (unreachable "TypeError: Failed to fetch")
                  "p1" (mounted TransactionList_initial)))) = false.
Proof.
  destruct (fetchTransactions_failure
              (unreachable "TypeError: Failed to fetch") "p1"
              (mounted TransactionList_initial)
              "TypeError: Failed to fetch" (or_introl eq_refl))
    as [Hrun Hempty].
  split; [exact (Hempty eq_refl) |].
  rewrite Hrun. reflexivity.
Defined.

(** A fetch that fails after a successful one leaves the rows of the
    successful one on screen: the result set is not empty. *)
Lemma failed_fetch_keeps_previous_rows :
  query_transactions (unreachable "TypeError: Failed to fetch")
    (transactions_query "p1" (tl_filter (component loaded)))
  = Rejected "TypeError: Failed to fetch"
  /\ map (fun r => t_id (row r))
       (tl_transactions
          (component
             (snd (fetchTransactions
                     (unreachable "TypeError: Failed to fetch") "p1"
                     loaded))))
     = ["t2"; "t1"]
  /\ tl_transactions
       (component
          (snd (fetchTransactions
                  (unreachable "TypeError: Failed to fetch") "p1" loaded)))
     <> [].
Proof.
  split; [reflexivity |]. split; [vm_compute; reflexivity |].
  vm_compute. discriminate.
Qed.

(** X28. [fetchSubscriptions] handles a failing query the same way:
    whether the query is rejected or answered with an error, the function
    ends normally after one request, the error is logged once, loading
    ends, and the subscriptions shown before stay in place. *)
Lemma fetchSubscriptions_failure (supabase : backend) (projectId : uuid)
    (w : world SubscriptionList) (e : js_error) :
  let q := subscriptions_query projectId (sl_filter (component w)) in
  (query_subscriptions supabase q = Rejected e
   \/ exists d, query_subscriptions supabase q = Fulfilled d (Some e)) ->
  fetchSubscriptions supabase projectId w
  = (Normal tt,
     {| component :=
          {| sl_subscriptions := sl_subscriptions (component w);
             sl_loading := false;
             sl_filter := sl_filter (component w) |};
        console := console w ++ [("Error fetching subscriptions:", e)];
        requests := requests w ++ [q] |}).
Proof.
  intros q Hfail.
  unfold fetchSubscriptions, try_catch_finally, bind, await,
    setLoading_subscriptions, console_error, throw, set_state, get_state.
  cbn. fold q.
  destruct Hfail as [Hrej | [d Herr]]; [rewrite Hrej | rewrite Herr];
    reflexivity.
Qed.

Lemma fetchSubscriptions_failure_witness :
  sl_subscriptions
    (component
       (snd (fetchSubscriptions (unreachable "TypeError: Failed to fetch")
               "p1"
               (mounted {| sl_subscriptions := subscriptions Sample.db;
                           sl_loading := false;
                           sl_filter := "active" |}))))
  = subscriptions Sample.db.
Proof.
  rewrite (fetchSubscriptions_failure
             (unreachable "TypeError: Failed to fetch") "p1"
             (mounted {| sl_subscriptions := subscriptions Sample.db;
                         sl_loading := false;
                         sl_filter := "active" |})
             "TypeError: Failed to fetch" (or_introl eq_refl)).
  reflexivity.
Defined.

Lemma fetchTransactions_filters_and_orders_sample :
  map (fun r => t_id (row r))
    (tl_transactions
       (component
          (snd (fetchTransactions (supabase Sample.db) "p1"
                  (mounted {| tl_transactions := []; tl_loading := true;
                              tl_filter := "failed" |})))))
  = ["t2"].
Proof. vm_compute. reflexivity. Qed.

(* ------------------------------------------------------------------ *)
(** ** Dashboard: the trend series *)
(* ------------------------------------------------------------------ *)

Lemma slice_last_incl {A : Type} (n : nat) (l : list A) (x : A) :
  In x (slice_last n l) -> In x l.
Proof.
  unfold slice_last. intros H.
  rewrite <- (firstn_skipn (List.length l - n) l).
  apply in_or_app. now right.
Qed.

Lemma slice_last_length {A : Type} (n : nat) (l : list A) :
  (List.length (slice_last n l) <= n)%nat.
Proof.
  unfold slice_last. rewrite length_skipn. lia.
Qed.

Lemma slice_last_all {A : Type} (n : nat) (l : list A) :
  (List.length l <= n)%nat -> slice_last n l = l.
Proof.
  unfold slice_last. intros H.
  replace (List.length l - n)%nat with 0%nat by lia. reflexivity.
Qed.

Lemma slice_last_map {A B : Type} (f : A -> B) (n : nat) (l : list A) :
  map f (slice_last n l) = slice_last n (map f l).
Proof.
  unfold slice_last. now rewrite length_map, skipn_map.
Qed.

Lemma distinct_snoc {A : Type} (dec : forall x y : A, {x = y} + {x <> y})
    (l : list A) (x : A) :
  distinct dec (l ++ [x])
  = if in_dec dec x l then distinct dec l else distinct dec l ++ [x].
Proof.
  unfold distinct. rewrite rev_app_distr. simpl.
  destruct (in_dec dec x (rev l)) as [Hin | Hnin];
    destruct (in_dec dec x l) as [Hin' | Hnin']; simpl; try reflexivity.
  - exfalso. apply Hnin'. now apply in_rev.
  - exfalso. apply Hnin. now apply in_rev in Hin'.
Qed.

Section TrendSeries.

Variable LocalTime : Z -> Z.
Variable UTC : Z -> Z.
Variable toLocaleDateString : Z -> string.

Local Abbreviation day := (day_of toLocaleDateString).
Local Abbreviation step := (group_transaction toLocaleDateString).

Lemma map_date_add_revenue (d : string) (x : PrimFloat.float)
    (acc : list bucket) :
  map date (add_revenue d x acc) = map date acc.
Proof.
  unfold add_revenue. rewrite map_map. apply map_ext.
  intros b. now destruct (String.eqb (date b) d).
Qed.

Lemma has_day_In (d : string) (acc : list bucket) :
  has_day d acc = true <-> In d (map date acc).
Proof.
  unfold has_day. rewrite existsb_exists, in_map_iff.
  split; intros [b [H1 H2]]; exists b.
  - apply String.eqb_eq in H2. auto.
  - split; [assumption | now apply String.eqb_eq].
Qed.

Lemma map_date_step (acc : list bucket) (r : transaction_row) :
  map date (step acc r)
  = if has_day (day r) acc then map date acc
    else map date acc ++ [day r].
Proof.
  unfold group_transaction.
  destruct (has_day (day r) acc); simpl;
    destruct (String.eqb (t_status (row r)) "succeeded");
    rewrite ?map_date_add_revenue, ?map_app; reflexivity.
Qed.

(** The buckets are the distinct days of the fetched rows, in order of
    first appearance. *)
Lemma map_date_groupByDay (rows : list transaction_row) :
  map date (fold_left step rows [])
  = distinct string_dec (map day rows).
Proof.
  induction rows as [| r rows IH] using rev_ind; [reflexivity |].
  rewrite fold_left_app, map_app. simpl.
  rewrite map_date_step, distinct_snoc, IH.
  destruct (in_dec string_dec (day r) (map day rows)) as [Hin | Hnin].
  - replace (has_day (day r) (fold_left step rows [])) with true;
      [reflexivity |].
    symmetry. apply has_day_In. rewrite IH. now apply In_distinct.
  - destruct (has_day (day r) (fold_left step rows [])) eqn:E;
      [| reflexivity].
    exfalso. apply Hnin. apply has_day_In in E. rewrite IH in E.
    now apply In_distinct in E.
Qed.

Lemma In_add_revenue (d : string) (x : PrimFloat.float) (acc : list bucket)
    (b : bucket) :
  In b (add_revenue d x acc) -> date b <> d -> In b acc.
Proof.
  unfold add_revenue. intros Hin Hne. apply in_map_iff in Hin.
  destruct Hin as [b' [E Hb']].
  destruct (String.eqb (date b') d) eqn:Ed.
  - apply String.eqb_eq in Ed. subst b. simpl in Hne. congruence.
  - now subst b.
Qed.

(** A day on which no fetched row has status 'succeeded' keeps the
    revenue 0 it starts with. *)
Lemma revenue_stays_zero (d : string) (rows : list transaction_row) :
  (forall r, In r rows -> day r = d ->
             t_status (row r) <> "succeeded") ->
  forall acc,
    (forall b, In b acc -> date b = d -> revenue b = PrimFloat.zero) ->
    forall b, In b (fold_left step rows acc) -> date b = d ->
              revenue b = PrimFloat.zero.
Proof.
  induction rows as [| r rows IH]; intros Hrows acc Hacc; simpl.
  - exact Hacc.
  - apply IH; [intros r' Hr'; apply Hrows; now right |].
    intros b Hb Hd. unfold group_transaction in Hb.
    set (acc' := if negb (has_day (day r) acc)
                 then acc ++ [{| date := day r;
                                 revenue := PrimFloat.zero |}]
                 else acc) in Hb.
    assert (Hacc' : forall b', In b' acc' -> date b' = d ->
                               revenue b' = PrimFloat.zero).
    { intros b' Hb' Hd'. unfold acc' in Hb'.
      destruct (negb (has_day (day r) acc)); [| now apply Hacc].
      apply in_app_or in Hb'. destruct Hb' as [Hb' | [Hb' | []]].
      - now apply Hacc.
      - now subst b'. }
    destruct (String.eqb (t_status (row r)) "succeeded") eqn:Es.
    + apply String.eqb_eq in Es.
      apply Hacc'; [| exact Hd].
      apply (In_add_revenue _ _ _ _ Hb).
      intros Hday. apply (Hrows r (or_introl eq_refl)); congruence.
    + now apply Hacc'.
Qed.

(** What [fetchChartData] stores when the query is answered. *)
Lemma fetchChartData_fulfilled (supabase : backend) (projectId : uuid)
    (now : Z) (w : world Dashboard) (d : option (list transaction_row))
    (e : option js_error) :
  query_transactions supabase
    (chart_query LocalTime UTC projectId now) = Fulfilled d e ->
  d_chartData
    (component
       (snd (fetchChartData LocalTime UTC toLocaleDateString supabase
               projectId now w)))
  = slice_last 14 (groupByDay toLocaleDateString d).
Proof.
  intros H. unfold fetchChartData, bind, await. rewrite H. reflexivity.
Qed.

(** The rows a healthy service returns for the chart: the transactions of
    the project stamped at or after the start of the window. *)
Lemma chart_rows (db : database) (projectId : uuid) (now : Z) :
  exists rows,
    query_transactions (supabase db)
      (chart_query LocalTime UTC projectId now)
    = Fulfilled (Some (map (embed_customers db) rows)) None
    /\ forall t, In t rows
                 <-> In t (transactions db)
                     /\ t_project_id t = projectId
                     /\ exists us, t_created_at t = Some us
                                   /\ thirtyDaysAgo LocalTime UTC now * 1000
                                      <= us.
Proof.
  eexists. split.
  - unfold chart_query. cbn. reflexivity.
  - intros t. rewrite In_sort_by, filter_In. split.
    + intros [Hin Hc]. apply andb_prop in Hc. destruct Hc as [Hp Hc].
      apply String.eqb_eq in Hp. split; [assumption |].
      split; [assumption |].
      destruct (t_created_at t) as [us |]; [| discriminate].
      exists us. split; [reflexivity |].
      rewrite andb_true_r in Hc. now apply Z.leb_le.
    + intros [Hin [Hp [us [Hc Hlo]]]]. split; [assumption |].
      rewrite Hc. apply andb_true_intro. split.
      * now apply String.eqb_eq.
      * rewrite andb_true_r. now apply Z.leb_le.
Qed.

(** C3, with the window bounded below only. When the service answers
    from [db], the trend series that [fetchChartData] stores has at most
    14 buckets, and the date of every bucket is the local date of a
    transaction of the project whose [created_at] is not earlier than the
    start of the window, thirty days before fetch time. *)
Theorem trend_series_bounded (db : database) (projectId : uuid) (now : Z)
    (w : world Dashboard) :
  let series :=
    d_chartData
      (component
         (snd (fetchChartData LocalTime UTC toLocaleDateString (supabase db)
                 projectId now w))) in
  (List.length series <= 14)%nat
  /\ forall b, In b series ->
       exists t us,
         In t (transactions db) /\ t_project_id t = projectId
         /\ t_created_at t = Some us
         /\ thirtyDaysAgo LocalTime UTC now * 1000 <= us
         /\ date b = toLocaleDateString (us / 1000).
Proof.
  intros series. subst series.
  destruct (chart_rows db projectId now) as [rows [Hq Hrows]].
  rewrite (fetchChartData_fulfilled _ _ _ _ _ _ Hq).
  split; [apply slice_last_length |].
  intros b Hb. apply slice_last_incl in Hb.
  assert (Hd : In (date b)
                 (map day (map (embed_customers db) rows))).
  { apply (In_distinct string_dec). rewrite <- map_date_groupByDay.
    now apply in_map. }
  rewrite map_map in Hd. apply in_map_iff in Hd.
  destruct Hd as [t [Hday Ht]]. apply Hrows in Ht.
  destruct Ht as [Hin [Hp [us [Hc Hlo]]]].
  exists t, us. repeat split; try assumption.
  rewrite <- Hday. unfold day. simpl. now rewrite Hc.
Qed.

(** C4, within the limit of 14 buckets. Let [rows] be what the chart
    query fetched. Every bucket of the series is dated on a day of some
    fetched row (a day without
    transactions has no bucket); a bucket on whose day no fetched row
    has status 'succeeded' has revenue 0; and each of the last 14
    distinct days of the fetched rows, in order of first appearance, has
    its bucket: with revenue 0 if no row of that day succeeded. *)
Theorem trend_series_sparse (supabase : backend) (projectId : uuid)
    (now : Z) (w : world Dashboard) (rows : list transaction_row)
    (e : option js_error) :
  query_transactions supabase
    (chart_query LocalTime UTC projectId now) = Fulfilled (Some rows) e ->
  let series :=
    d_chartData
      (component
         (snd (fetchChartData LocalTime UTC toLocaleDateString supabase
                 projectId now w))) in
  (forall b, In b series -> exists r, In r rows /\ day r = date b)
  /\ (forall b, In b series ->
        (forall r, In r rows -> day r = date b ->
                   t_status (row r) <> "succeeded") ->
        revenue b = PrimFloat.zero)
  /\ (forall d,
        In d (slice_last 14 (distinct string_dec (map day rows))) ->
        (forall r, In r rows -> day r = d ->
                   t_status (row r) <> "succeeded") ->
        In {| date := d; revenue := PrimFloat.zero |} series).
Proof.
  intros Hq series. subst series.
  rewrite (fetchChartData_fulfilled _ _ _ _ _ _ Hq). simpl.
  assert (Hzero : forall b, In b (fold_left step rows []) ->
                    (forall r, In r rows -> day r = date b ->
                               t_status (row r) <> "succeeded") ->
                    revenue b = PrimFloat.zero).
  { intros b Hb Hnone.
    apply (revenue_stays_zero (date b) rows Hnone []);
      [intros ? [] | exact Hb | reflexivity]. }
  split; [| split].
  - intros b Hb. apply slice_last_incl in Hb.
    assert (Hd : In (date b) (map day rows)).
    { apply (In_distinct string_dec). rewrite <- map_date_groupByDay.
      now apply in_map. }
    apply in_map_iff in Hd. destruct Hd as [r [Hday Hr]]. now exists r.
  - intros b Hb Hnone. apply slice_last_incl in Hb. now apply Hzero.
  - intros d Hd Hnone.
    rewrite <- map_date_groupByDay, <- slice_last_map in Hd.
    apply in_map_iff in Hd. destruct Hd as [b [Hdate Hb]].
    assert (Hrev : revenue b = PrimFloat.zero).
    { apply Hzero; [now apply slice_last_incl in Hb |].
      rewrite Hdate. exact Hnone. }
    destruct b as [bd br]. simpl in Hdate, Hrev. now subst.
Qed.

End TrendSeries.

Example thirtyDaysAgo_sample :
  thirtyDaysAgo utc_zone utc_zone Sample.now
  = Calendar.timestamptz 2025 12 21 8 0 0 / 1000.
Proof. vm_compute. reflexivity. Qed.

Lemma trend_series_sparse_witness :
  In {| date := "1/16/2026"; revenue := PrimFloat.zero |}
    (trend_series Sample.db "p1" Sample.now).
Proof.
  destruct (trend_series_sparse utc_zone utc_zone
              Calendar.toLocaleDateString_enUS_utc (supabase Sample.db)
              "p1" Sample.now (mounted Dashboard_initial)
              (map (embed_customers Sample.db) [Sample.t1; Sample.t2])
              None)
    as [_ [_ H]].
  - vm_compute. reflexivity.
  - apply H.
    + vm_compute. auto.
    + intros r [<- | [<- | []]]; vm_compute; discriminate.
Defined.

(** A transaction stamped a day after fetch time is fetched (the query
    has no upper bound) and gets a bucket, dated after the window that
    ends at fetch time. *)
Lemma trend_series_has_postdated_bucket :
  map date (trend_series Sample.db_postdated "p1" Sample.now)
  = ["1/21/2026"]
  /\ ~ (forall b,
           In b (trend_series Sample.db_postdated "p1" Sample.now) ->
           exists t us,
             In t (transactions Sample.db_postdated)
             /\ t_project_id t = "p1"
             /\ t_created_at t = Some us
             /\ thirtyDaysAgo utc_zone utc_zone Sample.now * 1000 <= us
             /\ us / 1000 <= Sample.now
             /\ date b = Calendar.toLocaleDateString_enUS_utc (us / 1000)).
Proof.
  split; [vm_compute; reflexivity |].
  intros H.
  destruct (trend_series Sample.db_postdated "p1" Sample.now)
    as [| b l] eqn:E; [vm_compute in E; discriminate E |].
  destruct (H b (or_introl eq_refl))
    as [t [us [[Ht | []] [_ [Hc [_ [Hup _]]]]]]].
  subst t. inversion Hc; subst us. vm_compute in Hup. now apply Hup.
Qed.

(** Fifteen days with one failed transaction each, all inside the window:
    the series keeps the last fourteen, and the first day, which has a
    transaction and none succeeded, has no bucket. *)
Lemma trend_series_drops_oldest_day :
  (exists t us,
      In t (transactions (Sample.db_january 15))
      /\ t_project_id t = "p1"
      /\ t_created_at t = Some us
      /\ thirtyDaysAgo utc_zone utc_zone Sample.now * 1000 <= us
      /\ us / 1000 <= Sample.now
      /\ Calendar.toLocaleDateString_enUS_utc (us / 1000) = "1/1/2026")
  /\ (forall t, In t (transactions (Sample.db_january 15)) ->
                t_status t <> "succeeded")
  /\ map date (trend_series (Sample.db_january 15) "p1" Sample.now)
     = ["1/2/2026"; "1/3/2026"; "1/4/2026"; "1/5/2026"; "1/6/2026";
        "1/7/2026"; "1/8/2026"; "1/9/2026"; "1/10/2026"; "1/11/2026";
        "1/12/2026"; "1/13/2026"; "1/14/2026"; "1/15/2026"]
  /\ ~ In {| date := "1/1/2026"; revenue := PrimFloat.zero |}
         (trend_series (Sample.db_january 15) "p1" Sample.now).
Proof.
  assert (Hdates :
            map date (trend_series (Sample.db_january 15) "p1" Sample.now)
            = ["1/2/2026"; "1/3/2026"; "1/4/2026"; "1/5/2026"; "1/6/2026";
               "1/7/2026"; "1/8/2026"; "1/9/2026"; "1/10/2026";
               "1/11/2026"; "1/12/2026"; "1/13/2026"; "1/14/2026";
               "1/15/2026"])
    by (vm_compute; reflexivity).
  split; [| split; [| split]].
  - exists (Sample.failed_on_day 1), (Calendar.timestamptz 2026 1 1 12 0 0).
    split; [simpl; auto |]. split; [reflexivity |].
    split; [reflexivity |].
    split; [vm_compute; discriminate |].
    split; [vm_compute; discriminate | vm_compute; reflexivity].
  - intros t Ht. unfold Sample.db_january, Sample.january in Ht.
    cbn [transactions] in Ht. apply in_map_iff in Ht.
    destruct Ht as [d [<- _]]. simpl. discriminate.
  - exact Hdates.
  - intros Hin. apply (in_map date) in Hin. rewrite Hdates in Hin.
    simpl in Hin.
    repeat (destruct Hin as [Hin | Hin]; [discriminate Hin |]).
    exact Hin.
Qed.

(* ================================================================== *)
(** * Further properties *)
(* ================================================================== *)

(* ------------------------------------------------------------------ *)
(** ** The monthly view and the client's totals *)
(* ------------------------------------------------------------------ *)

Lemma to_number_sql_sum (l : list (option Z)) :
  to_number (sql_sum l) = sumZ (map to_number l).
Proof.
  induction l as [| [v |] l IH]; simpl; try assumption; try reflexivity.
  destruct (sql_sum l); simpl in *; lia.
Qed.

Lemma sumZ_map_if {A : Type} (c : A -> bool) (f : A -> Z) (l : list A) :
  sumZ (map (fun x => if c x then f x else 0) l) = sumZ (map f (filter c l)).
Proof.
  induction l as [| x l IH]; simpl; [reflexivity |].
  destruct (c x); simpl; lia.
Qed.

Lemma sumZ_map_sub {A : Type} (f g : A -> Z) (l : list A) :
  sumZ (map (fun x => f x - g x) l) = sumZ (map f l) - sumZ (map g l).
Proof.
  induction l as [| x l IH]; simpl; [reflexivity | rewrite IH; lia].
Qed.

Lemma sumZ_map_ext_in {A : Type} (f g : A -> Z) (l : list A) :
  (forall x, In x l -> f x = g x) -> sumZ (map f l) = sumZ (map g l).
Proof.
  intros H. f_equal. now apply map_ext_in.
Qed.

Section MonthlyColumns.

Variable date_trunc_month : Z -> Z.
Variable collate_leb : string -> string -> bool.

Local Abbreviation key_of := (mr_key_of date_trunc_month).
Local Abbreviation month := (month_of date_trunc_month).
Local Abbreviation view :=
  (monthly_revenue_by_project date_trunc_month collate_leb).

(** A SUM column of the view, totalled over the month rows of a project,
    is the total of what it sums over the transactions of the project. *)
Lemma monthly_column_total (db : database) (p : project)
    (col : monthly_revenue -> option Z) (g : transaction -> option Z) :
  (forall grp k, col (mr_row grp k) = sql_sum (map g (map fst grp))) ->
  projects_pk db -> In p (projects db) ->
  sumZ (non_null
          (map col
             (filter (fun r => String.eqb (mr_project_id r) (p_id p))
                (view db))))
  = sumZ (map (fun t => to_number (g t))
            (filter (fun t => String.eqb (t_project_id t) (p_id p))
               (transactions db))).
Proof.
  intros Hcol Hpk Hin.
  rewrite sumZ_non_null_map.
  unfold monthly_revenue_by_project.
  rewrite (sumZ_filter_Permutation _ _ _ _ (sort_by_Permutation _ _)).
  rewrite filter_map_comm, map_map.
  set (j := transactions_join_projects db).
  rewrite map_ext with
    (g := fun k => sumZ (map (fun tp => to_number (g (fst tp)))
                           (group key_of mr_key_dec j k)))
    by (intros k; now rewrite Hcol, to_number_sql_sum, !map_map).
  simpl.
  rewrite (sumZ_groups_where _ _ key_of mr_key_dec
             (fun tp => to_number (g (fst tp)))
             (fun k => String.eqb (snd (fst k)) (p_id p)) j).
  unfold j, transactions_join_projects. simpl.
  apply (sumZ_join_project t_project_id (transactions db) (projects db) p
           (fun t => to_number (g t)) Hpk Hin).
Qed.

(** X1. The client's re-aggregation against the view: for every project,
    [totalRevenue] and [totalFees] of [fetchStats] equal the totals of the
    view's [total_revenue] and [total_fees] columns over the project's
    months, and [netRevenue] exceeds the total of [net_revenue] by the
    amounts of the succeeded transactions whose [fee_amount] is NULL
    (the client counts NULL as 0, the view's sum skips the row). *)
Theorem client_totals_and_monthly_view (db : database) (p : project)
    (w : world Dashboard) :
  projects_pk db -> In p (projects db) ->
  let s := d_stats (component (snd (fetchStats (supabase db) (p_id p) w))) in
  let rows := filter (fun r => String.eqb (mr_project_id r) (p_id p))
                (view db) in
  totalRevenue s = sumZ (non_null (map mr_total_revenue rows))
  /\ totalFees s = sumZ (non_null (map mr_total_fees rows))
  /\ netRevenue s
     = sumZ (non_null (map mr_net_revenue rows))
       + sumZ (map t_amount
                 (filter (fun t => String.eqb (t_project_id t) (p_id p)
                                   && succeeded t
                                   && match t_fee_amount t with
                                      | None => true
                                      | Some _ => false
                                      end)
                    (transactions db))).
Proof.
  intros Hpk Hin s rows. subst s rows. rewrite fetchStats_stats. cbn.
  set (ts := filter (fun t => String.eqb (t_project_id t) (p_id p))
               (transactions db)).
  rewrite (monthly_column_total db p mr_total_revenue
             (fun t => if succeeded t then Some (t_amount t) else Some 0))
    by (auto || reflexivity).
  rewrite (monthly_column_total db p mr_total_fees
             (fun t => if succeeded t then t_fee_amount t else Some 0))
    by (auto || reflexivity).
  rewrite (monthly_column_total db p mr_net_revenue
             (fun t => if succeeded t
                       then sql_minus (Some (t_amount t)) (t_fee_amount t)
                       else Some 0))
    by (auto || reflexivity).
  fold ts.
  assert (Hrev : sumZ (map (fun t => to_number
                              (if succeeded t then Some (t_amount t)
                               else Some 0)) ts)
                 = sumZ (map t_amount (filter succeeded ts))).
  { rewrite <- sumZ_map_if. apply sumZ_map_ext_in.
    intros t _. now destruct (succeeded t). }
  assert (Hfee : sumZ (map (fun t => to_number
                              (if succeeded t then t_fee_amount t
                               else Some 0)) ts)
                 = sumZ (map (fun t => to_number (t_fee_amount t))
                           (filter succeeded ts))).
  { rewrite <- sumZ_map_if. apply sumZ_map_ext_in.
    intros t _. now destruct (succeeded t). }
  rewrite Hrev, Hfee. split; [reflexivity |]. split; [reflexivity |].
  unfold ts, sql_minus. clear.
  induction (transactions db) as [| t l IH]; simpl.
  - reflexivity.
  - destruct (String.eqb (t_project_id t) (p_id p)); simpl; [| exact IH].
    destruct (succeeded t); simpl; [| exact IH].
    destruct (t_fee_amount t) as [f |]; simpl; lia.
Qed.

(** X2. When no transaction of a project has a NULL [fee_amount], every
    row of the view for that project has
    [net_revenue = total_revenue - total_fees]. *)
Theorem monthly_net_is_revenue_minus_fees (db : database) (pid : uuid) :
  (forall t, In t (transactions db) -> t_project_id t = pid ->
             t_fee_amount t <> None) ->
  forall r, In r (view db) -> mr_project_id r = pid ->
    exists rev fees,
      mr_total_revenue r = Some rev /\ mr_total_fees r = Some fees
      /\ mr_net_revenue r = Some (rev - fees).
Proof.
  intros Hfee r Hr Hid.
  apply In_monthly_revenue in Hr. destruct Hr as [k [Hk Hr]]. subst r.
  simpl in Hid.
  set (ts := map fst (group key_of mr_key_dec
                        (transactions_join_projects db) k)).
  assert (Hne : ts <> []).
  { pose proof (group_nonempty _ _ key_of mr_key_dec _ _ Hk) as Hg.
    unfold ts.
    destruct (group key_of mr_key_dec (transactions_join_projects db) k);
      [congruence | discriminate]. }
  assert (Hts : forall t, In t ts -> exists f, t_fee_amount t = Some f).
  { intros t Ht. apply (In_mr_group _ db k t Hk) in Ht.
    destruct Ht as [Ht [Hid' _]].
    destruct (t_fee_amount t) as [f |] eqn:E; [now exists f |].
    exfalso. apply (Hfee t Ht); congruence. }
  exists (sumZ (map (fun t => if succeeded t then t_amount t else 0) ts)),
         (sumZ (map (fun t => if succeeded t
                              then to_number (t_fee_amount t) else 0) ts)).
  simpl. fold ts. split; [| split].
  - rewrite map_ext with
      (g := fun t => Some (if succeeded t then t_amount t else 0))
      by (intros t; now destruct (succeeded t)).
    rewrite <- map_map with (g := Some), sql_sum_Some.
    destruct ts; [congruence | reflexivity].
  - rewrite map_ext_in with
      (g := fun t => Some (if succeeded t
                           then to_number (t_fee_amount t) else 0)).
    + rewrite <- map_map with (g := Some), sql_sum_Some.
      destruct ts; [congruence | reflexivity].
    + intros t Ht. destruct (Hts t Ht) as [f Hf]. rewrite Hf.
      now destruct (succeeded t).
  - rewrite map_ext_in with
      (g := fun t => Some ((if succeeded t then t_amount t else 0)
                           - (if succeeded t
                              then to_number (t_fee_amount t) else 0))).
    + rewrite <- map_map with (g := Some), sql_sum_Some, sumZ_map_sub.
      destruct ts; [congruence | reflexivity].
    + intros t Ht. destruct (Hts t Ht) as [f Hf]. rewrite Hf.
      destruct (succeeded t); simpl; f_equal; lia.
Qed.

(** X3. Under the primary key of [projects], the view has at most one row
    per project and month. *)
Theorem monthly_view_one_row_per_month (db : database) :
  projects_pk db ->
  NoDup (map (fun r => (mr_project_id r, mr_month r)) (view db)).
Proof.
  intros Hpk. unfold monthly_revenue_by_project.
  eapply Permutation_NoDup.
  - apply Permutation_map, Permutation_sym, sort_by_Permutation.
  - rewrite map_map. simpl.
    apply NoDup_map_NoDup_ForallPairs; [| apply NoDup_group_keys].
    intros k1 k2 H1 H2 E.
    apply In_group_keys in H1, H2.
    destruct H1 as [[t1 p1] [Hj1 Hk1]]. destruct H2 as [[t2 p2] [Hj2 Hk2]].
    apply In_join_projects in Hj1, Hj2.
    destruct Hj1 as [_ [Hp1 _]]. destruct Hj2 as [_ [Hp2 _]].
    unfold mr_key_of in Hk1, Hk2. simpl in Hk1, Hk2. subst k1 k2.
    simpl in E. inversion E as [[Hid Hm]].
    rewrite (project_of_id _ _ _ Hpk Hp1 Hp2 Hid). now rewrite Hm.
Qed.

Lemma Sorted_weaken {A : Type} (R R' : A -> A -> Prop) (l : list A) :
  (forall a b, R a b -> R' a b) -> Sorted R l -> Sorted R' l.
Proof.
  intros Himp. induction 1 as [| a l Hs IH Hhd]; constructor.
  - exact IH.
  - destruct Hhd; constructor. now apply Himp.
Qed.

Lemma desc_leb_refl (a : option Z) : desc_leb a a = true.
Proof. destruct a; simpl; [apply Z.leb_refl | reflexivity]. Qed.

(** X4. With a total collation, the rows of the view come out by month,
    newest first (rows without month before all others), and rows of the
    same month by project name. *)
Theorem monthly_view_ordered (db : database) :
  (forall a b, collate_leb a b = false -> collate_leb b a = true) ->
  StronglySorted
    (fun r1 r2 => desc_leb (mr_month r1) (mr_month r2) = true) (view db)
  /\ Sorted
       (fun r1 r2 => mr_month r1 = mr_month r2 ->
                     collate_leb (mr_project_name r1) (mr_project_name r2)
                     = true)
       (view db).
Proof.
  intros Htotal.
  assert (Hs : Sorted (fun r1 r2 => mr_order collate_leb r1 r2 = true)
                 (view db)).
  { apply sort_by_Sorted. intros a b. unfold mr_order.
    destruct (option_Z_dec (mr_month a) (mr_month b)) as [E | NE];
      destruct (option_Z_dec (mr_month b) (mr_month a)) as [E' | NE'];
      try congruence.
    - apply Htotal.
    - apply desc_leb_total. }
  split.
  - apply Sorted_StronglySorted.
    + intros a b c. apply desc_leb_trans.
    + eapply Sorted_weaken; [| exact Hs].
      intros a b H. simpl in H. unfold mr_order in H.
      destruct (option_Z_dec (mr_month a) (mr_month b)) as [E | NE].
      * rewrite E. apply desc_leb_refl.
      * exact H.
  - eapply Sorted_weaken; [| exact Hs].
    intros a b H E. simpl in H. unfold mr_order in H.
    destruct (option_Z_dec (mr_month a) (mr_month b)); [exact H | congruence].
Qed.

(** X5. On transactions that satisfy the CHECK constraints of the table,
    no row of the view has a negative [total_revenue] or [total_fees]
    ([total_fees] may be NULL). *)
Theorem monthly_totals_nonnegative (db : database) :
  Forall stored_row_ok (transactions db) ->
  forall r, In r (view db) ->
    (exists rev, mr_total_revenue r = Some rev /\ 0 <= rev)
    /\ (forall fees, mr_total_fees r = Some fees -> 0 <= fees).
Proof.
  intros Hok r Hr. rewrite Forall_forall in Hok.
  apply In_monthly_revenue in Hr. destruct Hr as [k [Hk Hr]]. subst r.
  set (ts := map fst (group key_of mr_key_dec
                        (transactions_join_projects db) k)).
  assert (Hts : forall t, In t ts -> stored_row_ok t).
  { intros t Ht. apply (In_mr_group _ db k t Hk) in Ht. now apply Hok. }
  assert (Hpos : forall (g : transaction -> option Z),
             (forall t v, In t ts -> g t = Some v -> 0 <= v) ->
             0 <= sumZ (map (fun t => to_number (g t)) ts)).
  { intros g Hg. clear Hts. induction ts as [| t l IH]; simpl; [lia |].
    assert (0 <= to_number (g t)).
    { destruct (g t) as [v |] eqn:E; simpl; [| lia].
      apply (Hg t v); [now left | exact E]. }
    assert (0 <= sumZ (map (fun t => to_number (g t)) l)).
    { apply IH. intros t' v Ht'. apply Hg. now right. }
    lia. }
  split.
  - rewrite mr_total_revenue_value by now apply group_nonempty.
    eexists. split; [reflexivity |].
    rewrite <- map_map with (f := fst)
      (g := fun t => if succeeded t then t_amount t else 0).
    fold ts.
    specialize (Hpos (fun t => Some (if succeeded t then t_amount t else 0))).
    simpl in Hpos. apply Hpos. intros t v Ht E. inversion E; subst.
    destruct (succeeded t); [| lia].
    destruct (Hts t Ht) as [H0 _]. exact H0.
  - intros fees Hf. simpl in Hf. fold ts in Hf.
    assert (E : fees = to_number (sql_sum
                  (map (fun t => if succeeded t then t_fee_amount t
                                 else Some 0) ts)))
      by now rewrite Hf.
    rewrite E, to_number_sql_sum, map_map. apply Hpos.
    intros t v Ht Ev. destruct (succeeded t).
    + destruct (Hts t Ht) as [_ [_ H]]. now apply (H v).
    + inversion Ev. lia.
Qed.

End MonthlyColumns.

Lemma String_leb_total (a b : string) :
  String.leb a b = false -> String.leb b a = true.
Proof.
  intros H. destruct (String.leb_total a b) as [H' | H']; congruence.
Qed.

Lemma sample_rows_ok : Forall stored_row_ok (transactions Sample.db).
Proof.
  assert (H : forall id c ty st a f ts,
             0 <= a -> 0 <= f -> stored_row_ok (Sample.tx id c ty st a f ts)).
  { intros id c ty st a f ts Ha Hf. unfold stored_row_ok. simpl.
    split; [exact Ha |]. split; [reflexivity |].
    intros fee E. inversion E; subst. split; [exact Hf | reflexivity]. }
  simpl. constructor; [apply H; lia |]. constructor; [apply H; lia |].
  constructor.
Qed.

Lemma client_totals_and_monthly_view_witness :
  let s := d_stats (component
                      (snd (fetchStats (supabase Sample.db) "p1"
                              (mounted Dashboard_initial)))) in
  let rows := filter (fun r => String.eqb (mr_project_id r) "p1")
                (monthly_revenue_by_project Calendar.date_trunc_month_utc
                   String.leb Sample.db) in
  totalRevenue s = sumZ (non_null (map mr_total_revenue rows))
  /\ totalFees s = sumZ (non_null (map mr_total_fees rows)).
Proof.
  destruct (client_totals_and_monthly_view Calendar.date_trunc_month_utc
              String.leb Sample.db Sample.acme (mounted Dashboard_initial)
              sample_projects_pk (or_introl eq_refl)) as [H1 [H2 _]].
  split; assumption.
Defined.

Lemma monthly_net_is_revenue_minus_fees_witness :
  exists rev fees,
    mr_total_revenue
      (hd (mr_row [] (None, "", ""))
         (monthly_revenue_by_project Calendar.date_trunc_month_utc
            String.leb Sample.db)) = Some rev
    /\ mr_total_fees
         (hd (mr_row [] (None, "", ""))
            (monthly_revenue_by_project Calendar.date_trunc_month_utc
               String.leb Sample.db)) = Some fees
    /\ mr_net_revenue
         (hd (mr_row [] (None, "", ""))
            (monthly_revenue_by_project Calendar.date_trunc_month_utc
               String.leb Sample.db)) = Some (rev - fees).
Proof.
  apply (monthly_net_is_revenue_minus_fees Calendar.date_trunc_month_utc
           String.leb Sample.db "p1").
  - intros t [<- | [<- | []]] _; discriminate.
  - rewrite monthly_revenue_sample. now left.
  - rewrite monthly_revenue_sample. reflexivity.
Defined.

Lemma monthly_view_one_row_per_month_witness :
  NoDup (map (fun r => (mr_project_id r, mr_month r))
           (monthly_revenue_by_project Calendar.date_trunc_month_utc
              String.leb Sample.db)).
Proof.
  exact (monthly_view_one_row_per_month Calendar.date_trunc_month_utc
           String.leb Sample.db sample_projects_pk).
Defined.

Lemma monthly_view_ordered_witness :
  StronglySorted
    (fun r1 r2 => desc_leb (mr_month r1) (mr_month r2) = true)
    (monthly_revenue_by_project Calendar.date_trunc_month_utc String.leb
       Sample.db).
Proof.
  exact (proj1 (monthly_view_ordered Calendar.date_trunc_month_utc
                  String.leb Sample.db String_leb_total)).
Defined.

Lemma monthly_totals_nonnegative_witness :
  exists rev,
    mr_total_revenue
      (hd (mr_row [] (None, "", ""))
         (monthly_revenue_by_project Calendar.date_trunc_month_utc
            String.leb Sample.db)) = Some rev
    /\ 0 <= rev.
Proof.
  apply (monthly_totals_nonnegative Calendar.date_trunc_month_utc String.leb
           Sample.db sample_rows_ok).
  rewrite monthly_revenue_sample. now left.
Defined.

(* ------------------------------------------------------------------ *)
(** ** The view of active subscriptions: counts *)
(* ------------------------------------------------------------------ *)

Lemma length_as_sum {A : Type} (l : list A) :
  Z.of_nat (List.length l) = sumZ (map (fun _ => 1) l).
Proof.
  induction l as [| x l IH]; [reflexivity |].
  change (sumZ (map (fun _ => 1) (x :: l)))
    with (1 + sumZ (map (fun _ : A => 1) l)).
  change (List.length (x :: l)) with (S (List.length l)).
  rewrite Nat2Z.inj_succ, IH. lia.
Qed.

Lemma length_filter_as_sum {A : Type} (c : A -> bool) (l : list A) :
  Z.of_nat (List.length (filter c l))
  = sumZ (map (fun x => if c x then 1 else 0) l).
Proof.
  rewrite length_as_sum, sumZ_map_if. reflexivity.
Qed.

Lemma sql_count_cancels (ss : list subscription) :
  sql_count (map (fun s => match s_cancel_at_period_end s with
                           | Some true => Some 1
                           | _ => None
                           end) ss)
  = sumZ (map (fun s => if cancels s then 1 else 0) ss).
Proof.
  unfold sql_count.
  induction ss as [| s ss IH]; [reflexivity |].
  change (sumZ (map (fun s => if cancels s then 1 else 0) (s :: ss)))
    with ((if cancels s then 1 else 0)
          + sumZ (map (fun s => if cancels s then 1 else 0) ss)).
  rewrite <- IH. unfold cancels. simpl map.
  destruct (s_cancel_at_period_end s) as [[|] |]; simpl non_null;
    try lia.
  change (List.length (1 :: ?l)) with (S (List.length l)).
  simpl List.length. rewrite Nat2Z.inj_succ. lia.
Qed.

(** Under the primary key, the group of a project holds the project's
    active subscriptions, once each. *)
Lemma active_group_sumZ (db : database) (p : project)
    (f : subscription -> Z) :
  projects_pk db -> In p (projects db) ->
  sumZ (map (fun sp => f (fst sp))
          (group as_key_of as_key_dec
             (active_subscriptions_join_projects db)
             (p_id p, p_name p)))
  = sumZ (map f
            (filter (fun s => String.eqb (s_project_id s) (p_id p)
                              && String.eqb (s_status s) "active")
               (subscriptions db))).
Proof.
  intros Hpk Hp. unfold group.
  rewrite filter_ext_in with
    (g := fun sp => String.eqb (p_id (snd sp)) (p_id p)).
  - unfold active_subscriptions_join_projects.
    rewrite (sumZ_join_project s_project_id _ (projects db) p f Hpk Hp).
    now rewrite filter_filter_and.
  - intros [s p'] Hin. apply In_join_projects in Hin.
    destruct Hin as [_ [Hp' _]]. simpl.
    destruct (String.eqb (p_id p') (p_id p)) eqn:E.
    + apply String.eqb_eq in E.
      rewrite (project_of_id _ _ _ Hpk Hp' Hp E).
      now apply in_group_true.
    + unfold in_group.
      destruct (as_key_dec (as_key_of (s, p')) _) as [K | K];
        [| reflexivity].
      unfold as_key_of in K. simpl in K. inversion K as [[Hid Hname]].
      rewrite Hid, String.eqb_refl in E. discriminate.
Qed.

Lemma sumZ_map_le {A : Type} (f g : A -> Z) (l : list A) :
  (forall x, In x l -> f x <= g x) -> sumZ (map f l) <= sumZ (map g l).
Proof.
  induction l as [| x l IH]; intros H; [apply Z.le_refl |].
  change (f x + sumZ (map f l) <= g x + sumZ (map g l)).
  assert (f x <= g x) by (apply H; now left).
  assert (sumZ (map f l) <= sumZ (map g l))
    by (apply IH; intros y Hy; apply H; now right).
  lia.
Qed.

(** The row of a project is built from the group of its id and name. *)
Lemma active_row_of_project (db : database) (p : project)
    (r : active_subscriptions) :
  projects_pk db -> In p (projects db) ->
  In r (active_subscriptions_by_project db) -> as_project_id r = p_id p ->
  r = as_row (group as_key_of as_key_dec
                (active_subscriptions_join_projects db) (p_id p, p_name p))
        (p_id p, p_name p).
Proof.
  intros Hpk Hp Hr Hid. apply In_active_subscriptions in Hr.
  destruct Hr as [k [Hk Hr]]. subst r. simpl in Hid.
  apply In_group_keys in Hk. destruct Hk as [[s p'] [Hj Hkey]].
  apply In_join_projects in Hj. destruct Hj as [_ [Hp' _]].
  unfold as_key_of in Hkey. simpl in Hkey. subst k. simpl in Hid.
  now rewrite (project_of_id _ _ _ Hpk Hp' Hp Hid).
Qed.

(** X6. In the row that [active_subscriptions_by_project] has for a
    project, [total_active] is the number of the project's active
    subscriptions, the same number [fetchStats] stores as
    [activeSubscriptions], and [scheduled_cancellations] is the number of
    those with [cancel_at_period_end] set, hence at most
    [total_active]. *)
Theorem active_subscriptions_counts (db : database) (p : project)
    (w : world Dashboard) :
  projects_pk db -> In p (projects db) ->
  let actives := filter (fun s => String.eqb (s_project_id s) (p_id p)
                                  && String.eqb (s_status s) "active")
                   (subscriptions db) in
  forall r, In r (active_subscriptions_by_project db) ->
            as_project_id r = p_id p ->
    as_total_active r = Z.of_nat (List.length actives)
    /\ as_scheduled_cancellations r
       = Z.of_nat (List.length (filter cancels actives))
    /\ as_scheduled_cancellations r <= as_total_active r
    /\ as_total_active r
       = activeSubscriptions
           (d_stats (component
                       (snd (fetchStats (supabase db) (p_id p) w)))).
Proof.
  intros Hpk Hp actives r Hr Hid.
  rewrite (active_row_of_project db p r Hpk Hp Hr Hid).
  assert (Htotal : as_total_active
                     (as_row (group as_key_of as_key_dec
                                (active_subscriptions_join_projects db)
                                (p_id p, p_name p)) (p_id p, p_name p))
                   = Z.of_nat (List.length actives)).
  { simpl. rewrite length_map, !length_as_sum.
    apply (active_group_sumZ db p (fun _ => 1) Hpk Hp). }
  assert (Hcancel : as_scheduled_cancellations
                      (as_row (group as_key_of as_key_dec
                                 (active_subscriptions_join_projects db)
                                 (p_id p, p_name p)) (p_id p, p_name p))
                    = Z.of_nat (List.length (filter cancels actives))).
  { simpl. rewrite sql_count_cancels, map_map, length_filter_as_sum.
    apply (active_group_sumZ db p (fun s => if cancels s then 1 else 0)
             Hpk Hp). }
  rewrite Htotal, Hcancel. split; [reflexivity |]. split; [reflexivity |].
  split.
  - apply Nat2Z.inj_le, filter_length_le.
  - rewrite fetchStats_stats. reflexivity.
Qed.

(** X7. When the subscriptions satisfy [CHECK (amount > 0)], every row of
    [active_subscriptions_by_project] has at least one active
    subscription and a non-NULL [mrr] that is at least [total_active]. *)
Theorem active_subscriptions_mrr_positive (db : database) :
  Forall (fun s => 0 < s_amount s) (subscriptions db) ->
  forall r, In r (active_subscriptions_by_project db) ->
    exists m, as_mrr r = Some m
              /\ 1 <= as_total_active r /\ as_total_active r <= m.
Proof.
  intros Hcheck r Hr. rewrite Forall_forall in Hcheck.
  apply In_active_subscriptions in Hr. destruct Hr as [k [Hk Hr]]. subst r.
  pose proof (group_nonempty _ _ as_key_of as_key_dec _ _ Hk) as Hne.
  set (g := group as_key_of as_key_dec
              (active_subscriptions_join_projects db) k) in *.
  assert (Hg : forall sp, In sp g -> 0 < s_amount (fst sp)).
  { intros [s p'] Hin. apply In_group in Hin. destruct Hin as [Hj _].
    apply In_join_projects in Hj. destruct Hj as [Hs _].
    apply filter_In in Hs. simpl. now apply Hcheck. }
  exists (sumZ (map (fun sp => s_amount (fst sp)) g)).
  simpl. rewrite !map_map, length_map. fold g. split; [| split].
  - rewrite <- map_map with (g := Some)
                            (f := fun sp => s_amount (fst sp)).
    rewrite sql_sum_Some. destruct g; [congruence | reflexivity].
  - destruct g; [congruence |]. simpl List.length. lia.
  - rewrite length_as_sum. apply sumZ_map_le.
    intros sp Hsp. specialize (Hg sp Hsp). lia.
Qed.

Lemma active_subscriptions_counts_witness :
  as_total_active
    (hd (as_row [] ("", "")) (active_subscriptions_by_project Sample.db))
  = 1
  /\ as_scheduled_cancellations
       (hd (as_row [] ("", "")) (active_subscriptions_by_project Sample.db))
     = 0.
Proof.
  destruct (active_subscriptions_counts Sample.db Sample.acme
              (mounted Dashboard_initial) sample_projects_pk
              (or_introl eq_refl)
              (hd (as_row [] ("", ""))
                 (active_subscriptions_by_project Sample.db)))
    as [H1 [H2 _]].
  - rewrite active_subscriptions_sample. now left.
  - rewrite active_subscriptions_sample. reflexivity.
  - split; [exact H1 | exact H2].
Defined.

Lemma active_subscriptions_mrr_positive_witness :
  exists m,
    as_mrr
      (hd (as_row [] ("", "")) (active_subscriptions_by_project Sample.db))
    = Some m
    /\ 1 <= as_total_active
              (hd (as_row [] ("", ""))
                 (active_subscriptions_by_project Sample.db))
    /\ as_total_active
         (hd (as_row [] ("", ""))
            (active_subscriptions_by_project Sample.db)) <= m.
Proof.
  apply (active_subscriptions_mrr_positive Sample.db).
  - simpl. constructor; [simpl; lia |]. constructor; [simpl; lia |].
    constructor.
  - rewrite active_subscriptions_sample. now left.
Defined.

(* ------------------------------------------------------------------ *)
(** ** The view [customer_stats_by_project] *)
(* ------------------------------------------------------------------ *)

Lemma count_distinct_le (l1 l2 : list (option string)) :
  (forall a, In (Some a) l1 -> In (Some a) l2) ->
  count_distinct l1 <= count_distinct l2.
Proof.
  intros H. unfold count_distinct. apply Nat2Z.inj_le.
  apply NoDup_incl_length; [apply NoDup_nodup |].
  intros a Ha. apply nodup_In. apply nodup_In in Ha.
  apply In_non_null. apply H. now apply In_non_null.
Qed.

Lemma count_distinct_spec (l : list (option string)) (ids : list string) :
  NoDup ids -> (forall a, In (Some a) l <-> In a ids) ->
  count_distinct l = Z.of_nat (List.length ids).
Proof.
  intros Hnd H. unfold count_distinct. f_equal.
  apply Permutation_length, NoDup_Permutation;
    [apply NoDup_nodup | exact Hnd |].
  intros a. rewrite nodup_In, In_non_null. apply H.
Qed.

Lemma NoDup_map_filter {A B : Type} (f : A -> B) (c : A -> bool)
    (l : list A) :
  NoDup (map f l) -> NoDup (map f (filter c l)).
Proof.
  induction l as [| x l IH]; intros H; simpl; [constructor |].
  inversion H as [| ? ? Hnotin Hnd]; subst.
  destruct (c x); simpl; [| now apply IH].
  constructor; [| now apply IH].
  intros Hin. apply Hnotin. apply in_map_iff in Hin.
  destruct Hin as [y [E Hy]]. apply filter_In in Hy.
  rewrite <- E. apply in_map. tauto.
Qed.

Section CustomerStatsFacts.

Variable c_created_at : customer -> option Z.
Variable thirty_days_ago : Z.

Local Abbreviation stats_view :=
  (customer_stats_by_project c_created_at thirty_days_ago).
Local Abbreviation is_new := (new_customer_id c_created_at thirty_days_ago).

Lemma In_left_join (db : database) (c : customer)
    (os : option subscription) :
  In (c, os) (customers_left_join_subscriptions db)
  <-> In c (customers db)
      /\ match os with
         | None => has_active_subscription db c = false
         | Some s => In s (subscriptions db)
                     /\ s_customer_id s = c_id c /\ s_status s = "active"
         end.
Proof.
  unfold customers_left_join_subscriptions, has_active_subscription.
  rewrite in_flat_map. split.
  - intros [c' [Hc' Hin]].
    set (pred := fun s => String.eqb (c_id c') (s_customer_id s)
                          && String.eqb (s_status s) "active") in *.
    destruct (filter pred (subscriptions db)) as [| s0 ss] eqn:E.
    + destruct Hin as [Heq | []]. inversion Heq; subst. split; [assumption |].
      destruct (existsb pred (subscriptions db)) eqn:Ex; [| exact Ex].
      apply existsb_exists in Ex. destruct Ex as [s [Hs Hp]].
      assert (Hf : In s (filter pred (subscriptions db)))
        by (apply filter_In; auto).
      rewrite E in Hf. destruct Hf.
    + rewrite <- E in Hin. apply in_map_iff in Hin.
      destruct Hin as [s [Heq Hs]]. inversion Heq; subst.
      apply filter_In in Hs. destruct Hs as [Hs Hp]. unfold pred in Hp.
      apply andb_prop in Hp. destruct Hp as [H1 H2].
      apply String.eqb_eq in H1, H2. auto.
  - intros [Hc Hos]. exists c. split; [assumption |].
    set (pred := fun s => String.eqb (c_id c) (s_customer_id s)
                          && String.eqb (s_status s) "active") in *.
    destruct os as [s |].
    + destruct Hos as [Hs [H1 H2]].
      assert (Hf : In s (filter pred (subscriptions db))).
      { apply filter_In. split; [assumption |]. unfold pred.
        rewrite H1, H2, !String.eqb_refl. reflexivity. }
      destruct (filter pred (subscriptions db)) as [| s0 ss] eqn:E;
        [destruct Hf |].
      apply (in_map (fun s' => (c, Some s')) _ _ Hf).
    + destruct (filter pred (subscriptions db)) as [| s0 ss] eqn:E;
        [now left |].
      assert (Hf : In s0 (filter pred (subscriptions db)))
        by (rewrite E; now left).
      apply filter_In in Hf. destruct Hf as [Hs0 Hp].
      assert (Ex : existsb pred (subscriptions db) = true)
        by (apply existsb_exists; eauto).
      congruence.
Qed.

Lemma In_customer_stats (db : database) (r : customer_stats) :
  In r (stats_view db)
  <-> exists k,
        In k (group_keys cs_key_of as_key_dec (customer_stats_join db))
        /\ r = cs_row c_created_at thirty_days_ago
                 (group cs_key_of as_key_dec (customer_stats_join db) k) k.
Proof.
  unfold customer_stats_by_project. rewrite in_map_iff.
  split; intros [k [H1 H2]]; exists k; auto.
Qed.

(** X8. In every row of [customer_stats_by_project] the project has at
    least one customer, and neither [new_last_30_days] nor
    [customers_with_subscriptions] exceeds [total_customers]. *)
Theorem customer_stats_bounds (db : database) (r : customer_stats) :
  In r (stats_view db) ->
  1 <= cs_total_customers r
  /\ 0 <= cs_new_last_30_days r <= cs_total_customers r
  /\ 0 <= cs_customers_with_subscriptions r <= cs_total_customers r.
Proof.
  intros Hr. apply In_customer_stats in Hr. destruct Hr as [k [Hk Hr]].
  subst r.
  pose proof (group_nonempty _ _ cs_key_of as_key_dec _ _ Hk) as Hne.
  set (g := group cs_key_of as_key_dec (customer_stats_join db) k) in *.
  simpl. split; [| split; split].
  - destruct g as [| x g]; [congruence |].
    unfold count_distinct. simpl map. simpl non_null.
    assert (Hin : In (c_id (fst (fst x)))
                    (nodup string_dec
                       (c_id (fst (fst x))
                        :: non_null
                             (map (fun x => Some (c_id (fst (fst x)))) g))))
      by (apply nodup_In; now left).
    destruct (nodup string_dec _) as [| y l]; [destruct Hin |].
    simpl List.length. lia.
  - unfold count_distinct. lia.
  - apply count_distinct_le. intros a Ha. apply in_map_iff in Ha.
    destruct Ha as [x [E Hx]]. apply in_map_iff. exists x.
    split; [| exact Hx]. unfold new_customer_id in E.
    destruct (c_created_at (fst (fst x))); [| discriminate].
    destruct (thirty_days_ago <? z); [exact E | discriminate].
  - unfold count_distinct. lia.
  - apply count_distinct_le. intros a Ha. apply in_map_iff in Ha.
    destruct Ha as [[[c os] p] [E Hx]]. apply in_map_iff.
    exists (c, os, p). split; [| exact Hx]. simpl in *.
    apply In_group in Hx. destruct Hx as [Hj _].
    apply In_join_projects in Hj. destruct Hj as [Hlj _].
    apply In_left_join in Hlj. destruct Hlj as [_ Hos].
    destruct os as [s |]; [| discriminate]. simpl in E.
    destruct Hos as [_ [Hid _]]. congruence.
Qed.

(** The group of a project holds exactly its customers, each paired with
    its active subscriptions or with NULL. *)
Lemma In_cs_group (db : database) (p : project) (c : customer)
    (os : option subscription) (p' : project) :
  projects_pk db -> In p (projects db) ->
  In (c, os, p')
    (group cs_key_of as_key_dec (customer_stats_join db) (p_id p, p_name p))
  <-> In (c, os) (customers_left_join_subscriptions db)
      /\ c_project_id c = p_id p /\ p' = p.
Proof.
  intros Hpk Hp. rewrite In_group. unfold customer_stats_join.
  rewrite In_join_projects. simpl. unfold cs_key_of. simpl. split.
  - intros [[Hlj [Hp' Hfk]] Hkey]. inversion Hkey as [[Hid Hname]].
    assert (p' = p) by (apply (project_of_id _ _ _ Hpk Hp' Hp Hid)).
    subst p'. auto.
  - intros [Hlj [Hfk ->]]. auto.
Qed.

(** X9. Under the primary keys of [projects] and [customers], the row of
    a project counts its customers, those of them created after the
    start of the 30-day window, and those of them with an active
    subscription. *)
Theorem customer_stats_counts (db : database) (p : project)
    (r : customer_stats) :
  projects_pk db -> customers_pk db -> In p (projects db) ->
  In r (stats_view db) -> cs_project_id r = p_id p ->
  let mine := filter (fun c => String.eqb (c_project_id c) (p_id p))
                (customers db) in
  cs_total_customers r = Z.of_nat (List.length mine)
  /\ cs_new_last_30_days r
     = Z.of_nat (List.length
                   (filter (fun c => match is_new c with
                                     | Some _ => true
                                     | None => false
                                     end) mine))
  /\ cs_customers_with_subscriptions r
     = Z.of_nat (List.length (filter (has_active_subscription db) mine)).
Proof.
  intros Hpk Hcpk Hp Hr Hid mine.
  apply In_customer_stats in Hr. destruct Hr as [k [Hk Hr]]. subst r.
  simpl in Hid.
  assert (Ek : k = (p_id p, p_name p)).
  { apply In_group_keys in Hk. destruct Hk as [[[c os] p'] [Hj Hkey]].
    apply In_join_projects in Hj. destruct Hj as [_ [Hp' _]].
    unfold cs_key_of in Hkey. simpl in Hkey. subst k. simpl in Hid.
    now rewrite (project_of_id _ _ _ Hpk Hp' Hp Hid). }
  subst k. clear Hk Hid.
  assert (Hmine : forall c, In c mine
                    <-> In c (customers db) /\ c_project_id c = p_id p).
  { intros c. unfold mine. rewrite filter_In, String.eqb_eq. reflexivity. }
  assert (Hsome : forall c, In c (customers db) ->
                    exists os, In (c, os)
                                 (customers_left_join_subscriptions db)).
  { intros c Hc. destruct (has_active_subscription db c) eqn:E.
    - unfold has_active_subscription in E. apply existsb_exists in E.
      destruct E as [s [Hs Hpred]]. apply andb_prop in Hpred.
      destruct Hpred as [H1 H2]. apply String.eqb_eq in H1, H2.
      exists (Some s). apply In_left_join. auto.
    - exists None. apply In_left_join. auto. }
  simpl. split; [| split]; rewrite <- length_map with (f := c_id);
    apply count_distinct_spec;
    try (apply NoDup_map_filter; try apply NoDup_map_filter; exact Hcpk).
  - intros a. rewrite !in_map_iff. split.
    + intros [[[c os] p'] [E Hx]]. simpl in E. inversion E; subst a.
      apply (In_cs_group db p c os p' Hpk Hp) in Hx.
      destruct Hx as [Hlj [Hfk _]]. apply In_left_join in Hlj.
      exists c. split; [reflexivity |]. apply Hmine. tauto.
    + intros [c [E Hc]]. apply Hmine in Hc. destruct Hc as [Hc Hfk].
      destruct (Hsome c Hc) as [os Hlj]. exists (c, os, p). simpl.
      split; [now rewrite E |].
      apply (In_cs_group db p c os p Hpk Hp). auto.
  - intros a. rewrite !in_map_iff. split.
    + intros [[[c os] p'] [E Hx]]. simpl in E.
      apply (In_cs_group db p c os p' Hpk Hp) in Hx.
      destruct Hx as [Hlj [Hfk _]]. apply In_left_join in Hlj.
      exists c. split.
      * unfold new_customer_id in E.
        destruct (c_created_at c) as [ts |]; [| discriminate].
        destruct (thirty_days_ago <? ts); now inversion E.
      * apply filter_In. split; [apply Hmine; tauto |]. now rewrite E.
    + intros [c [E Hc]]. apply filter_In in Hc. destruct Hc as [Hc Hnew].
      apply Hmine in Hc. destruct Hc as [Hc Hfk].
      destruct (Hsome c Hc) as [os Hlj]. exists (c, os, p). simpl. split.
      * unfold new_customer_id in *.
        destruct (c_created_at c) as [ts |]; [| discriminate].
        destruct (thirty_days_ago <? ts); [now rewrite E | discriminate].
      * apply (In_cs_group db p c os p Hpk Hp). auto.
  - intros a. rewrite !in_map_iff. split.
    + intros [[[c os] p'] [E Hx]]. simpl in E.
      apply (In_cs_group db p c os p' Hpk Hp) in Hx.
      destruct Hx as [Hlj [Hfk _]]. apply In_left_join in Hlj.
      destruct Hlj as [Hc Hos]. destruct os as [s |]; [| discriminate].
      simpl in E. inversion E; subst a. destruct Hos as [Hs [Hcid Hact]].
      exists c. split; [now rewrite Hcid |].
      apply filter_In. split; [apply Hmine; tauto |].
      unfold has_active_subscription. apply existsb_exists. exists s.
      split; [assumption |].
      rewrite Hcid, Hact, !String.eqb_refl. reflexivity.
    + intros [c [E Hc]]. apply filter_In in Hc. destruct Hc as [Hc Hact].
      apply Hmine in Hc. destruct Hc as [Hc Hfk].
      unfold has_active_subscription in Hact. apply existsb_exists in Hact.
      destruct Hact as [s [Hs Hpred]]. apply andb_prop in Hpred.
      destruct Hpred as [H1 H2]. apply String.eqb_eq in H1, H2.
      exists (c, Some s, p). simpl. split; [now rewrite <- H1, E |].
      apply (In_cs_group db p c (Some s) p Hpk Hp).
      split; [| auto]. apply In_left_join. auto.
Qed.

End CustomerStatsFacts.

Lemma customer_stats_bounds_witness :
  1 <= cs_total_customers
         (hd (cs_row (fun _ => None) 0 [] ("", ""))
            (customer_stats_by_project (fun _ => None) 0 Sample.db)).
Proof.
  apply (customer_stats_bounds (fun _ => None) 0 Sample.db).
  vm_compute. now left.
Defined.

Lemma customer_stats_counts_witness :
  cs_total_customers
    (hd (cs_row (fun _ => None) 0 [] ("", ""))
       (customer_stats_by_project (fun _ => None) 0 Sample.db)) = 1
  /\ cs_customers_with_subscriptions
       (hd (cs_row (fun _ => None) 0 [] ("", ""))
          (customer_stats_by_project (fun _ => None) 0 Sample.db)) = 1.
Proof.
  destruct (customer_stats_counts (fun _ => None) 0 Sample.db Sample.acme
              (hd (cs_row (fun _ => None) 0 [] ("", ""))
                 (customer_stats_by_project (fun _ => None) 0 Sample.db)))
    as [H1 [_ H3]].
  - exact sample_projects_pk.
  - unfold customers_pk. simpl. repeat constructor. intros [].
  - now left.
  - vm_compute. now left.
  - reflexivity.
  - split; [exact H1 | exact H3].
Defined.

(* ------------------------------------------------------------------ *)
(** ** Dashboard: recent transactions *)
(* ------------------------------------------------------------------ *)

Lemma StronglySorted_app_inv {A : Type} (R : A -> A -> Prop)
    (l1 l2 : list A) :
  StronglySorted R (l1 ++ l2) ->
  StronglySorted R l1
  /\ forall a b, In a l1 -> In b l2 -> R a b.
Proof.
  induction l1 as [| x l1 IH]; simpl; intros H.
  - split; [constructor | intros a b []].
  - inversion H as [| ? ? Hs Hall]; subst.
    destruct (IH Hs) as [Hs1 Hcross]. rewrite Forall_forall in Hall.
    split.
    + constructor; [exact Hs1 |]. apply Forall_forall.
      intros y Hy. apply Hall. apply in_or_app. now left.
    + intros a b [<- | Ha] Hb.
      * apply Hall. apply in_or_app. now right.
      * now apply Hcross.
Qed.

(** What [fetchRecentTransactions] stores when the service answers from
    [db]. *)
Lemma fetchRecentTransactions_supabase (db : database) (projectId : uuid)
    (w : world Dashboard) :
  map row
    (d_recentTransactions
       (component
          (snd (fetchRecentTransactions (supabase db) projectId w))))
  = firstn 5
      (sort_by (fun a b => desc_leb (t_created_at a) (t_created_at b))
         (filter (fun t => String.eqb (t_project_id t) projectId)
            (transactions db))).
Proof.
  unfold fetchRecentTransactions, bind, await. cbn -[firstn].
  rewrite filter_and_true, row_embed_customers.
  reflexivity.
Qed.

(** X10. When the service answers from [db], [fetchRecentTransactions]
    stores at most five rows, all of the project, newest first, and every
    transaction of the project that is left out is no newer than any row
    shown. *)
Theorem recent_transactions_are_the_newest (db : database)
    (projectId : uuid) (w : world Dashboard) :
  let shown :=
    map row
      (d_recentTransactions
         (component
            (snd (fetchRecentTransactions (supabase db) projectId w)))) in
  (List.length shown <= 5)%nat
  /\ StronglySorted newest_first shown
  /\ (forall t, In t shown ->
                In t (transactions db) /\ t_project_id t = projectId)
  /\ (forall t, In t (transactions db) -> t_project_id t = projectId ->
                ~ In t shown ->
                forall u, In u shown -> newest_first u t).
Proof.
  intros shown. subst shown. rewrite fetchRecentTransactions_supabase.
  set (sorted := sort_by _ _).
  assert (Hsorted : StronglySorted newest_first sorted)
    by apply sort_by_newest_first.
  assert (Hin : forall t, In t sorted
                  <-> In t (transactions db) /\ t_project_id t = projectId).
  { intros t. unfold sorted. rewrite In_sort_by, filter_In, String.eqb_eq.
    reflexivity. }
  rewrite <- (firstn_skipn 5 sorted) in Hsorted.
  apply StronglySorted_app_inv in Hsorted. destruct Hsorted as [Hs Hcross].
  split; [apply firstn_le_length |]. split; [exact Hs |]. split.
  - intros t Ht. apply Hin.
    rewrite <- (firstn_skipn 5 sorted). apply in_or_app. now left.
  - intros t Ht Hp Hnot u Hu. apply Hcross; [exact Hu |].
    assert (H : In t sorted) by (apply Hin; auto).
    rewrite <- (firstn_skipn 5 sorted) in H. apply in_app_or in H.
    destruct H as [H | H]; [contradiction | exact H].
Qed.

(* ------------------------------------------------------------------ *)
(** ** Dashboard: failing queries *)
(* ------------------------------------------------------------------ *)

(** X11. If any of the three queries of [fetchStats] is rejected,
    [fetchStats] throws and leaves every state slot of the dashboard as
    it was: no partial statistics are stored. *)
Theorem fetchStats_rejected (supabase : backend) (projectId : uuid)
    (w : world Dashboard) (e : js_error) :
  (query_transactions supabase
     (eq "project_id" projectId
        (select "amount, fee_amount, status" (from "transactions")))
   = Rejected e
   \/ query_customers supabase
        (eq "project_id" projectId (select "id" (from "customers")))
      = Rejected e
   \/ query_subscriptions supabase
        (eq "status" "active"
           (eq "project_id" projectId
              (select "amount, status" (from "subscriptions"))))
      = Rejected e) ->
  (exists e', fst (fetchStats supabase projectId w) = Throw e')
  /\ component (snd (fetchStats supabase projectId w)) = component w.
Proof.
  intros H. unfold fetchStats, bind, await. cbn.
  destruct (query_transactions supabase _) as [d1 e1 | r1] eqn:E1;
    [| cbn; eauto].
  cbn.
  destruct (query_customers supabase _) as [d2 e2 | r2] eqn:E2;
    [| cbn; eauto].
  cbn.
  destruct (query_subscriptions supabase _) as [d3 e3 | r3] eqn:E3;
    [| cbn; eauto].
  destruct H as [H | [H | H]]; discriminate H.
Qed.

(** X12. If the three queries of [fetchStats] are answered with an error
    and no data, [fetchStats] ends normally, logs nothing and stores
    statistics that are all 0: the failure looks like an empty
    project. *)
Theorem fetchStats_errors_look_empty (supabase : backend)
    (projectId : uuid) (w : world Dashboard) (e1 e2 e3 : option js_error) :
  query_transactions supabase
    (eq "project_id" projectId
       (select "amount, fee_amount, status" (from "transactions")))
  = Fulfilled None e1 ->
  query_customers supabase
    (eq "project_id" projectId (select "id" (from "customers")))
  = Fulfilled None e2 ->
  query_subscriptions supabase
    (eq "status" "active"
       (eq "project_id" projectId
          (select "amount, status" (from "subscriptions"))))
  = Fulfilled None e3 ->
  fst (fetchStats supabase projectId w) = Normal tt
  /\ console (snd (fetchStats supabase projectId w)) = console w
  /\ d_stats (component (snd (fetchStats supabase projectId w)))
     = {| totalRevenue := 0; totalFees := 0; netRevenue := 0;
          totalTransactions := 0; totalCustomers := 0;
          activeSubscriptions := 0; mrr := 0 |}.
Proof.
  intros H1 H2 H3. unfold fetchStats, bind, await. cbn.
  rewrite H1. cbn. rewrite H2. cbn. rewrite H3. cbn. auto.
Qed.

Lemma fetchStats_rejected_witness :
  component (snd (fetchStats (unreachable "TypeError: Failed to fetch")
                    "p1" (mounted Dashboard_initial)))
  = Dashboard_initial.
Proof.
  apply (fetchStats_rejected (unreachable "TypeError: Failed to fetch")
           "p1" (mounted Dashboard_initial) "TypeError: Failed to fetch").
  left. reflexivity.
Defined.

Lemma fetchStats_errors_look_empty_witness :
  fst (fetchStats (erroring "42501") "p1" (mounted Dashboard_initial))
  = Normal tt
  /\ console (snd (fetchStats (erroring "42501") "p1"
                     (mounted Dashboard_initial))) = [].
Proof.
  destruct (fetchStats_errors_look_empty (erroring "42501") "p1"
              (mounted Dashboard_initial) (Some "42501") (Some "42501")
              (Some "42501") eq_refl eq_refl eq_refl) as [H1 [H2 _]].
  split; [exact H1 | exact H2].
Defined.

(* ------------------------------------------------------------------ *)
(** ** Dashboard: the buckets of the trend series *)
(* ------------------------------------------------------------------ *)

Lemma find_snoc {A : Type} (p : A -> bool) (l : list A) (x : A) :
  find p (l ++ [x])
  = match find p l with
    | Some y => Some y
    | None => if p x then Some x else None
    end.
Proof.
  induction l as [| y l IH]; simpl; [reflexivity |].
  destruct (p y); [reflexivity | exact IH].
Qed.

Lemma find_none_has_day (d : string) (acc : list bucket) :
  find (fun b => String.eqb (date b) d) acc = None <-> has_day d acc = false.
Proof.
  unfold has_day. induction acc as [| b acc IH]; simpl; [tauto |].
  destruct (String.eqb (date b) d); simpl; [split; discriminate | exact IH].
Qed.

Lemma revenue_in_In (acc : list bucket) (b : bucket) :
  NoDup (map date acc) -> In b acc -> revenue_in acc (date b) = revenue b.
Proof.
  unfold revenue_in. induction acc as [| b' acc IH]; intros Hnd Hin.
  - destruct Hin.
  - simpl in Hnd. inversion Hnd as [| ? ? Hnotin Hnd']; subst. simpl.
    destruct Hin as [-> | Hin].
    + now rewrite String.eqb_refl.
    + destruct (String.eqb (date b') (date b)) eqn:E.
      * apply String.eqb_eq in E. exfalso. apply Hnotin. rewrite E.
        now apply in_map.
      * now apply IH.
Qed.

Lemma NoDup_skipn {A : Type} (n : nat) (l : list A) :
  NoDup l -> NoDup (skipn n l).
Proof.
  intros H. rewrite <- (firstn_skipn n l) in H.
  now apply NoDup_app_remove_l in H.
Qed.

Lemma revenue_in_add_revenue (dr d : string) (x : PrimFloat.float)
    (l : list bucket) :
  revenue_in (add_revenue dr x l) d
  = if String.eqb dr d
    then match find (fun b => String.eqb (date b) d) l with
         | Some b => PrimFloat.add (revenue b) x
         | None => PrimFloat.zero
         end
    else revenue_in l d.
Proof.
  unfold revenue_in, add_revenue.
  induction l as [| b l IH]; simpl.
  - now destruct (String.eqb dr d).
  - destruct (String.eqb (date b) d) eqn:Ed.
    + apply String.eqb_eq in Ed. subst d.
      rewrite (String.eqb_sym dr (date b)).
      destruct (String.eqb (date b) dr); simpl;
        rewrite String.eqb_refl; reflexivity.
    + destruct (String.eqb (date b) dr); simpl; rewrite Ed; exact IH.
Qed.

Section TrendBuckets.

Variable LocalTime : Z -> Z.
Variable UTC : Z -> Z.
Variable toLocaleDateString : Z -> string.

Local Abbreviation day := (day_of toLocaleDateString).
Local Abbreviation step := (group_transaction toLocaleDateString).

Lemma NoDup_step (acc : list bucket) (r : transaction_row) :
  NoDup (map date acc) -> NoDup (map date (step acc r)).
Proof.
  intros Hnd. rewrite map_date_step.
  destruct (has_day (day r) acc) eqn:E; [exact Hnd |].
  apply NoDup_app; [exact Hnd | repeat constructor; intros [] |].
  intros d Hd [<- | []]. apply has_day_In in Hd. congruence.
Qed.

(** How one fetched row changes the revenue carried for a day. *)
Lemma revenue_in_step (acc : list bucket) (r : transaction_row)
    (d : string) :
  revenue_in (step acc r) d
  = if String.eqb (day r) d
       && String.eqb (t_status (row r)) "succeeded"
    then PrimFloat.add (revenue_in acc d) (amount_in_units r)
    else revenue_in acc d.
Proof.
  unfold group_transaction.
  set (acc' := if negb (has_day (day r) acc)
               then acc ++ [{| date := day r; revenue := PrimFloat.zero |}]
               else acc).
  assert (Hsame : revenue_in acc' d = revenue_in acc d).
  { unfold acc', revenue_in. destruct (has_day (day r) acc); simpl;
      [reflexivity |].
    rewrite find_snoc.
    destruct (find (fun b => String.eqb (date b) d) acc); [reflexivity |].
    simpl. now destruct (String.eqb (day r) d). }
  assert (Hhas : has_day (day r) acc' = true).
  { unfold acc'. destruct (has_day (day r) acc) eqn:E; simpl; [exact E |].
    unfold has_day. rewrite existsb_app. simpl.
    rewrite String.eqb_refl, orb_true_r. reflexivity. }
  destruct (String.eqb (t_status (row r)) "succeeded");
    [| now rewrite andb_false_r].
  rewrite andb_true_r, <- Hsame, revenue_in_add_revenue.
  destruct (String.eqb (day r) d) eqn:Ed; [| reflexivity].
  apply String.eqb_eq in Ed. subst d. unfold revenue_in.
  destruct (find (fun b => String.eqb (date b) (day r)) acc') eqn:Ef;
    [reflexivity |].
  apply find_none_has_day in Ef. congruence.
Qed.

(** The revenue of every bucket after the rows are grouped, from what the
    accumulator carried for its day. *)
Lemma revenue_fold (rows : list transaction_row) :
  forall acc, NoDup (map date acc) ->
  forall b, In b (fold_left step rows acc) ->
    revenue b
    = fold_left PrimFloat.add
        (map amount_in_units
           (filter (fun r => String.eqb (day r) (date b)
                             && String.eqb (t_status (row r)) "succeeded")
              rows))
        (revenue_in acc (date b)).
Proof.
  induction rows as [| r rows IH]; intros acc Hnd b Hb; simpl in Hb.
  - simpl. symmetry. now apply revenue_in_In.
  - rewrite (IH _ (NoDup_step acc r Hnd) b Hb), revenue_in_step. simpl.
    destruct (String.eqb (day r) (date b)
              && String.eqb (t_status (row r)) "succeeded"); reflexivity.
Qed.

(** X13. Whatever rows the chart query returns, the series has one bucket
    per day (the dates of its buckets are pairwise distinct), and the
    revenue of each bucket is the sum, accumulated in fetch order from 0
    in floating point, of [amount / 100] over the succeeded rows of that
    day. *)
Theorem trend_series_buckets (supabase : backend) (projectId : uuid)
    (now : Z) (w : world Dashboard) (rows : list transaction_row)
    (e : option js_error) :
  query_transactions supabase
    (chart_query LocalTime UTC projectId now) = Fulfilled (Some rows) e ->
  let series :=
    d_chartData
      (component
         (snd (fetchChartData LocalTime UTC toLocaleDateString supabase
                 projectId now w))) in
  NoDup (map date series)
  /\ forall b, In b series -> revenue b = day_revenue day (date b) rows.
Proof.
  intros Hq series. subst series.
  rewrite (fetchChartData_fulfilled _ _ _ _ _ _ _ _ _ Hq). simpl. split.
  - rewrite slice_last_map, map_date_groupByDay. apply NoDup_skipn.
    apply NoDup_distinct.
  - intros b Hb. apply slice_last_incl in Hb.
    apply (revenue_fold rows [] (NoDup_nil _) b Hb).
Qed.

(** X14. When their query is answered with an error and no data,
    [fetchRecentTransactions] and [fetchChartData] end normally, log
    nothing and empty their list. *)
Theorem dashboard_lists_emptied_on_error (supabase : backend)
    (projectId : uuid) (now : Z) (w : world Dashboard)
    (e1 e2 : option js_error) :
  query_transactions supabase
    (limit 5
       (order "created_at" false
          (eq "project_id" projectId
             (select "*, customers (name, email)" (from "transactions")))))
  = Fulfilled None e1 ->
  query_transactions supabase (chart_query LocalTime UTC projectId now)
  = Fulfilled None e2 ->
  (fst (fetchRecentTransactions supabase projectId w) = Normal tt
   /\ console (snd (fetchRecentTransactions supabase projectId w))
      = console w
   /\ d_recentTransactions
        (component (snd (fetchRecentTransactions supabase projectId w)))
      = [])
  /\ (fst (fetchChartData LocalTime UTC toLocaleDateString supabase
             projectId now w) = Normal tt
      /\ console (snd (fetchChartData LocalTime UTC toLocaleDateString
                         supabase projectId now w)) = console w
      /\ d_chartData
           (component
              (snd (fetchChartData LocalTime UTC toLocaleDateString
                      supabase projectId now w)))
         = []).
Proof.
  intros H1 H2. split.
  - unfold fetchRecentTransactions, bind, await. rewrite H1. cbn. auto.
  - unfold fetchChartData, bind, await. rewrite H2. cbn. auto.
Qed.

End TrendBuckets.

Lemma trend_series_buckets_witness :
  NoDup (map date (trend_series Sample.db "p1" Sample.now))
  /\ forall b,
       In b (trend_series Sample.db "p1" Sample.now) ->
       revenue b
       = day_revenue (day_of Calendar.toLocaleDateString_enUS_utc)
           (date b)
           (map (embed_customers Sample.db) [Sample.t1; Sample.t2]).
Proof.
  apply (trend_series_buckets utc_zone utc_zone
           Calendar.toLocaleDateString_enUS_utc (supabase Sample.db)
           "p1" Sample.now (mounted Dashboard_initial)
           (map (embed_customers Sample.db) [Sample.t1; Sample.t2])
           None).
  vm_compute. reflexivity.
Defined.

Lemma dashboard_lists_emptied_on_error_witness :
  d_recentTransactions
    (component
       (snd (fetchRecentTransactions (erroring "permission denied") "p1"
               (mounted Dashboard_initial))))
  = []
  /\ d_chartData
       (component
          (snd (fetchChartData utc_zone utc_zone
                  Calendar.toLocaleDateString_enUS_utc
                  (erroring "permission denied") "p1" Sample.now
                  (mounted Dashboard_initial))))
     = [].
Proof.
  destruct (dashboard_lists_emptied_on_error utc_zone utc_zone
              Calendar.toLocaleDateString_enUS_utc
              (erroring "permission denied") "p1" Sample.now
              (mounted Dashboard_initial) (Some "permission denied")
              (Some "permission denied") eq_refl eq_refl)
    as [[_ [_ H1]] [_ [_ H2]]].
  split; [exact H1 | exact H2].
Defined.

(* ------------------------------------------------------------------ *)
(** ** More invariants of the table [transactions] *)
(* ------------------------------------------------------------------ *)













(* ------------------------------------------------------------------ *)
(** ** What the lists display *)
(* ------------------------------------------------------------------ *)

Lemma js_or_default (a : option string) (d : string) :
  d <> "" -> exists s, js_or a (Some d) = Some s /\ s <> "".
Proof.
  intros Hd. unfold js_or, falsy. destruct a as [s |].
  - destruct (String.eqb s "") eqn:E.
    + exists d. auto.
    + exists s. split; [reflexivity |]. now apply String.eqb_neq.
  - exists d. auto.
Qed.

(** X17. The customer label is never empty in either list; the dashboard
    and the transaction list show the same label exactly when the
    customer has a non-empty name, or has no usable email, or has the
    email 'Unknown': a customer known by email only is 'Unknown' in the
    transaction list. *)
Theorem customer_labels (r : transaction_row) :
  (exists s, Dashboard_customer r = Some s /\ s <> "")
  /\ (exists s, TransactionList_customer r = Some s /\ s <> "")
  /\ (Dashboard_customer r = TransactionList_customer r
      <-> falsy (customers_name r) = false
          \/ falsy (customers_email r) = true
          \/ customers_email r = Some "Unknown").
Proof.
  split; [apply js_or_default; discriminate |].
  split; [apply js_or_default; discriminate |].
  unfold Dashboard_customer, TransactionList_customer, js_or.
  destruct (falsy (customers_name r)) eqn:En; cbv iota.
  - destruct (falsy (customers_email r)) eqn:Ee; cbv iota.
    + tauto.
    + split.
      * intros H. right. right. exact H.
      * intros [H | [H | H]]; (discriminate H || exact H).
  - rewrite En. tauto.
Qed.

(** X18. [type.replace('_', ' ')] keeps the length of the type and turns
    only its first underscore into a space: the result has one underscore
    less (none less if there was none), so a type with two underscores
    is displayed with one. *)
Theorem replace_underscore_first_only (s : string) :
  String.length (replace_underscore s) = String.length s
  /\ occurrences "_"%char (replace_underscore s)
     = Nat.pred (occurrences "_"%char s)
  /\ occurrences " "%char (replace_underscore s)
     = (occurrences " "%char s
        + if Nat.eqb (occurrences "_"%char s) 0 then 0 else 1)%nat.
Proof.
  induction s as [| c s [IH1 [IH2 IH3]]]; simpl; [auto |].
  destruct (Ascii.eqb c "_"%char) eqn:E.
  - apply Ascii.eqb_eq in E. subst c. simpl. repeat split; lia.
  - simpl. rewrite E, IH1, IH2, IH3. simpl.
    repeat split; try reflexivity.
    destruct (Ascii.eqb c " "%char); simpl; lia.
Qed.

Example replace_underscore_samples :
  replace_underscore "subscription_creation" = "subscription creation"
  /\ replace_underscore "payment" = "payment"
  /\ replace_underscore "charge_back_fee" = "charge back_fee".
Proof. repeat split. Qed.

(* ------------------------------------------------------------------ *)
(** ** App and ProjectSelector *)
(* ------------------------------------------------------------------ *)

Lemma filter_true {A : Type} (l : list A) : filter (fun _ => true) l = l.
Proof.
  induction l as [| x l IH]; simpl; [reflexivity | now rewrite IH].
Qed.

(** What [fetchProjects] leaves when the query is answered with [rows]
    and no error. *)
Lemma fetchProjects_fulfilled (query_projects : query -> settled project)
    (rows : list project) (w : world App) :
  query_projects projects_query = Fulfilled (Some rows) None ->
  fetchProjects query_projects w
  = (Normal tt,
     {| component :=
          {| app_projects := rows;
             app_selectedProject :=
               match rows with
               | first :: _ => Some first
               | [] => app_selectedProject (component w)
               end;
             app_activeTab := app_activeTab (component w);
             app_loading := false |};
        console := console w;
        requests := requests w ++ [projects_query] |}).
Proof.
  intros H. unfold fetchProjects, try_catch_finally, bind, await.
  rewrite H. cbn. destruct rows; reflexivity.
Qed.

(** X19. After [fetchProjects] against a healthy service, the app holds
    all projects, newest first, has selected the first of them (nothing
    new is selected when there is none), and is no longer loading; the
    selected project is one of the projects held. *)
Theorem fetchProjects_selects_newest (p_created_at : project -> option Z)
    (db : database) :
  let a := component
             (snd (fetchProjects (supabase_projects p_created_at db)
                     (mounted App_initial))) in
  Permutation (app_projects a) (projects db)
  /\ StronglySorted
       (fun p q => desc_leb (p_created_at p) (p_created_at q) = true)
       (app_projects a)
  /\ app_selectedProject a = hd_error (app_projects a)
  /\ (forall p, app_selectedProject a = Some p -> In p (app_projects a))
  /\ app_loading a = false.
Proof.
  intros a. subst a.
  rewrite (fetchProjects_fulfilled _
             (sort_by (fun p q => desc_leb (p_created_at p) (p_created_at q))
                (filter (fun _ => true) (projects db))))
    by reflexivity.
  rewrite filter_true. cbn. set (rows := sort_by _ _).
  split; [apply sort_by_Permutation |]. split.
  - apply Sorted_StronglySorted.
    + intros x y z. apply desc_leb_trans.
    + apply (sort_by_Sorted _
               (fun p q => desc_leb (p_created_at p) (p_created_at q))).
      intros x y. apply desc_leb_total.
  - split; [now destruct rows |]. split; [| reflexivity].
    intros p Hp. destruct rows; [discriminate |].
    inversion Hp; subst. now left.
Qed.

(** X20. When the query of [fetchProjects] fails at mount (rejected, or
    answered with an error), the error is logged, loading ends, and the
    app shows the 'No Projects Found' screen, as it does for an account
    without projects. *)
Theorem fetchProjects_failure_shows_no_projects
    (query_projects : query -> settled project) (e : js_error) :
  (query_projects projects_query = Rejected e
   \/ exists d, query_projects projects_query = Fulfilled d (Some e)) ->
  let w := snd (fetchProjects query_projects (mounted App_initial)) in
  console w = [("Error fetching projects:", e)]
  /\ app_selectedProject (component w) = None
  /\ App_render (component w) = NoProjectsFound
  /\ App_render
       (component
          (snd (fetchProjects (fun _ => Fulfilled (Some []) None)
                  (mounted App_initial))))
     = NoProjectsFound.
Proof.
  intros H w. subst w.
  unfold fetchProjects, try_catch_finally, bind, await.
  destruct H as [H | [d H]]; rewrite H; cbn; auto.
Qed.

Lemma fetchProjects_failure_shows_no_projects_witness :
  App_render
    (component
       (snd (fetchProjects (fun _ => Rejected "Failed to fetch")
               (mounted App_initial))))
  = NoProjectsFound.
Proof.
  destruct (fetchProjects_failure_shows_no_projects
              (fun _ => Rejected "Failed to fetch") "Failed to fetch"
              (or_introl eq_refl))
    as [_ [_ [H _]]].
  exact H.
Defined.

(** X21. Choosing an option of the project selector selects a project of
    the list with that id (the first one); with unique non-empty ids it
    selects exactly the project the option was rendered for, and the
    selector then shows that option. A value that is no option selects
    nothing. *)
Theorem ProjectSelector_selects (projects : list project) (value : string)
    (w : world App) :
  let selected :=
    app_selectedProject
      (component (snd (ProjectSelector_onChange projects value w))) in
  (In value (ProjectSelector_options projects) ->
   exists p, selected = Some p /\ In p projects /\ p_id p = value)
  /\ (~ In value (ProjectSelector_options projects) ->
      selected = None /\ ProjectSelector_value selected = "")
  /\ (forall p, NoDup (map p_id projects) -> In p projects ->
                p_id p = value -> value <> "" ->
                selected = Some p /\ ProjectSelector_value selected = value).
Proof.
  intros selected. subst selected. cbn.
  split; [| split].
  - intros Hin. unfold ProjectSelector_options in Hin.
    apply in_map_iff in Hin. destruct Hin as [p [Hid Hp]].
    destruct (find (fun p => String.eqb (p_id p) value) projects)
      as [q |] eqn:E.
    + apply find_some in E. destruct E as [Hq Hqid].
      apply String.eqb_eq in Hqid. exists q. auto.
    + apply (find_none _ _ E) in Hp. apply String.eqb_neq in Hp.
      contradiction.
  - intros Hnot.
    destruct (find (fun p => String.eqb (p_id p) value) projects)
      as [q |] eqn:E; [| auto].
    apply find_some in E. destruct E as [Hq Hqid].
    apply String.eqb_eq in Hqid. exfalso. apply Hnot.
    unfold ProjectSelector_options. rewrite <- Hqid. now apply in_map.
  - intros p Hnd Hp Hid Hne.
    destruct (find (fun p => String.eqb (p_id p) value) projects)
      as [q |] eqn:E.
    + apply find_some in E. destruct E as [Hq Hqid].
      apply String.eqb_eq in Hqid.
      assert (q = p)
        by (apply (project_of_id projects q p Hnd Hq Hp); congruence).
      subst q. split; [reflexivity |]. simpl.
      apply String.eqb_neq in Hne. rewrite Hid, Hne. reflexivity.
    + apply (find_none _ _ E) in Hp. apply String.eqb_neq in Hp.
      contradiction.
Qed.

(* ------------------------------------------------------------------ *)
(** ** SubscriptionList: the fetched list *)
(* ------------------------------------------------------------------ *)

(** X22. After [fetchSubscriptions] against a service answering from
    [db]: with a filter other than 'all' the list holds exactly the
    subscriptions of the project whose status equals the filter; with
    'all' it holds all subscriptions of the project; in both cases it is
    ordered by [created_at] descending, loading has ended and nothing
    was logged. *)
Theorem fetchSubscriptions_filters_and_orders (db : database)
    (projectId : uuid) (w : world SubscriptionList) :
  let filter_ := sl_filter (component w) in
  let w' := snd (fetchSubscriptions (supabase db) projectId w) in
  let shown := sl_subscriptions (component w') in
  (filter_ <> "all" ->
   Permutation shown
     (filter (fun s => String.eqb (s_project_id s) projectId
                       && String.eqb (s_status s) filter_)
        (subscriptions db)))
  /\ (filter_ = "all" ->
      Permutation shown
        (filter (fun s => String.eqb (s_project_id s) projectId)
           (subscriptions db)))
  /\ StronglySorted
       (fun a b => desc_leb (s_created_at a) (s_created_at b) = true) shown
  /\ sl_loading (component w') = false
  /\ console w' = console w.
Proof.
  intros filter_ w' shown. subst w' shown.
  assert (Hsorted : forall l,
             StronglySorted
               (fun a b => desc_leb (s_created_at a) (s_created_at b) = true)
               (sort_by (fun a b => desc_leb (s_created_at a)
                                      (s_created_at b)) l)).
  { intros l. apply Sorted_StronglySorted.
    - intros x y z. apply desc_leb_trans.
    - apply (sort_by_Sorted _
               (fun a b => desc_leb (s_created_at a) (s_created_at b))).
      intros x y. apply desc_leb_total. }
  unfold fetchSubscriptions, try_catch_finally, bind, await,
    setLoading_subscriptions, set_state, get_state, subscriptions_query.
  cbn. fold filter_.
  destruct (String.eqb filter_ "all") eqn:E; cbn.
  - apply String.eqb_eq in E.
    split; [intros Hne; contradiction |]. split.
    + intros _. eapply Permutation_trans; [apply sort_by_Permutation |].
      rewrite filter_and_true. apply Permutation_refl.
    + split; [apply Hsorted | auto].
  - apply String.eqb_neq in E. split.
    + intros _. eapply Permutation_trans; [apply sort_by_Permutation |].
      rewrite (filter_ext _
                 (fun s => String.eqb (s_project_id s) projectId
                           && String.eqb (s_status s) filter_));
        [apply Permutation_refl |].
      intros s. now rewrite andb_true_r.
    + split; [intros He; contradiction |].
      split; [apply Hsorted | auto].
Qed.

(* ------------------------------------------------------------------ *)
(** ** Regular expressions: matching is membership *)
(* ------------------------------------------------------------------ *)

Section Matching.

Variable ci : bool.

Lemma nullable_spec (r : regex) : nullable r = true <-> denotes ci r [].
Proof.
  induction r; simpl.
  - split; [discriminate | intros H; inversion H].
  - split; [constructor | reflexivity].
  - split; [discriminate | intros H; inversion H].
  - rewrite andb_true_iff, IHr1, IHr2. split.
    + intros [H1 H2]. apply (@d_concat ci _ _ [] [] H1 H2).
    + intros H. inversion H; subst.
      match goal with
      | E : _ ++ _ = [] |- _ => apply app_eq_nil in E; destruct E; subst
      end. auto.
  - rewrite orb_true_iff, IHr1, IHr2. split.
    + intros [H | H]; [now apply d_left | now apply d_right].
    + intros H. inversion H; subst; auto.
  - split; [constructor | reflexivity].
Qed.

Lemma repeat_cons (r : regex) (c : ascii) (l : list ascii) :
  denotes ci (Repeat r) (c :: l) ->
  exists l1 l2,
    l = l1 ++ l2 /\ denotes ci r (c :: l1) /\ denotes ci (Repeat r) l2.
Proof.
  intros H. remember (Repeat r) as r' eqn:Er.
  remember (c :: l) as cl eqn:El. revert l El.
  induction H as [| | | | | | r0 l1 l2 H1 _ H2 IH2]; intros tl El;
    try discriminate.
  inversion Er; subst r0.
  destruct l1 as [| c' l1'].
  - simpl in El. apply IH2; [reflexivity | exact El].
  - simpl in El. inversion El; subst. exists l1', l2. auto.
Qed.

Lemma derive_spec (c : ascii) (r : regex) :
  forall l, denotes ci (derive ci c r) l <-> denotes ci r (c :: l).
Proof.
  induction r; intros l; simpl.
  - split; intros H; inversion H.
  - split; intros H; inversion H.
  - destruct (in_class ci ranges c) eqn:E; split; intros H; inversion H;
      subst.
    + now constructor.
    + constructor.
    + congruence.
  - assert (Hc : denotes ci (Concat (derive ci c r1) r2) l
                 <-> exists l1 l2, l = l1 ++ l2 /\ denotes ci r1 (c :: l1)
                                   /\ denotes ci r2 l2).
    { split.
      - intros H. inversion H; subst. do 2 eexists.
        rewrite <- IHr1. eauto.
      - intros [l1 [l2 [E [H1 H2]]]]. subst.
        constructor; [now apply IHr1 | exact H2]. }
    assert (Hsplit : denotes ci (Concat r1 r2) (c :: l)
                     <-> (exists l1 l2, l = l1 ++ l2
                                        /\ denotes ci r1 (c :: l1)
                                        /\ denotes ci r2 l2)
                         \/ (denotes ci r1 [] /\ denotes ci r2 (c :: l))).
    { split.
      - intros H. inversion H; subst.
        match goal with
        | E : ?l1 ++ _ = c :: l |- _ =>
            destruct l1 as [| c' l1']; simpl in E;
            [ right; subst; auto | left; inversion E; subst; eauto ]
        end.
      - intros [[l1 [l2 [E [H1 H2]]]] | [H1 H2]].
        + subst. apply (@d_concat ci _ _ (c :: l1) l2 H1 H2).
        + apply (@d_concat ci _ _ [] (c :: l) H1 H2). }
    rewrite Hsplit. destruct (nullable r1) eqn:En.
    + apply nullable_spec in En. split.
      * intros H. inversion H; subst;
          [ left; now apply Hc
          | right; split; [exact En | now apply IHr2] ].
      * intros [H | [_ H]];
          [ apply d_left; now apply Hc | apply d_right; now apply IHr2 ].
    + rewrite Hc. split; [auto |].
      intros [H | [H _]]; [exact H |].
      apply nullable_spec in H. congruence.
  - split; intros H; inversion H; subst;
      (apply d_left; now apply IHr1) || (apply d_right; now apply IHr2).
  - split.
    + intros H. inversion H; subst.
      match goal with
      | H1 : denotes ci (derive ci c r) ?l1,
        H2 : denotes ci (Repeat r) ?l2 |- _ =>
          apply IHr in H1; apply (@d_repeat_more ci _ (c :: l1) l2 H1 H2)
      end.
    + intros H. apply repeat_cons in H.
      destruct H as [l1 [l2 [E [H1 H2]]]].
      subst. constructor; [now apply IHr | exact H2].
Qed.

(** The matcher decides membership. *)
Lemma matches_spec (s : string) :
  forall r, matches ci r s = true <-> denotes ci r (list_ascii_of_string s).
Proof.
  induction s as [| c s IH]; intros r; simpl.
  - apply nullable_spec.
  - rewrite IH. apply derive_spec.
Qed.

(** Membership for the shapes the schema uses. *)
Lemma denotes_class (rs : list (ascii * ascii)) (l : list ascii) :
  denotes ci (Class rs) l <-> exists c, l = [c] /\ in_class ci rs c = true.
Proof.
  split.
  - intros H. inversion H; subst. eauto.
  - intros [c [-> H]]. now constructor.
Qed.

Lemma denotes_concat (r1 r2 : regex) (l : list ascii) :
  denotes ci (Concat r1 r2) l
  <-> exists l1 l2, l = l1 ++ l2 /\ denotes ci r1 l1 /\ denotes ci r2 l2.
Proof.
  split.
  - intros H. inversion H; subst. eauto.
  - intros [l1 [l2 [-> [H1 H2]]]]. now constructor.
Qed.

Lemma denotes_repeat_class (rs : list (ascii * ascii)) (l : list ascii) :
  denotes ci (Repeat (Class rs)) l
  <-> Forall (fun c => in_class ci rs c = true) l.
Proof.
  split.
  - intros H. remember (Repeat (Class rs)) as r eqn:Er.
    induction H as [| | | | | | r0 l1 l2 H1 _ H2 IH2]; try discriminate.
    + constructor.
    + inversion Er; subst r0. apply denotes_class in H1.
      destruct H1 as [c [-> Hc]]. simpl. constructor; [exact Hc |].
      now apply IH2.
  - induction 1 as [| c l Hc _ IH]; [constructor |].
    apply (@d_repeat_more ci _ [c] l); [now constructor | exact IH].
Qed.

Lemma denotes_times_class (rs : list (ascii * ascii)) (n : nat) :
  forall l, denotes ci (Times n (Class rs)) l
            <-> List.length l = n
                /\ Forall (fun c => in_class ci rs c = true) l.
Proof.
  induction n as [| n IH]; intros l; simpl.
  - split.
    + intros H. inversion H; subst. split; [reflexivity | constructor].
    + intros [Hlen _]. destruct l; [constructor | discriminate].
  - rewrite denotes_concat. split.
    + intros [l1 [l2 [-> [H1 H2]]]]. apply denotes_class in H1.
      destruct H1 as [c [-> Hc]]. apply IH in H2. destruct H2 as [Hl Hf].
      simpl. split; [now rewrite Hl | now constructor].
    + intros [Hlen Hf]. destruct l as [| c l]; [discriminate |].
      inversion Hf; subst. exists [c], l. split; [reflexivity |].
      split; [now constructor |]. apply IH. simpl in Hlen. split; [lia |].
      assumption.
Qed.

Lemma denotes_plus_class (rs : list (ascii * ascii)) (l : list ascii) :
  denotes ci (Plus (Class rs)) l
  <-> l <> [] /\ Forall (fun c => in_class ci rs c = true) l.
Proof.
  unfold Plus. rewrite denotes_concat. split.
  - intros [l1 [l2 [-> [H1 H2]]]]. apply denotes_class in H1.
    destruct H1 as [c [-> Hc]]. apply denotes_repeat_class in H2.
    split; [discriminate | now constructor].
  - intros [Hne Hf]. destruct l as [| c l]; [congruence |].
    inversion Hf; subst. exists [c], l. split; [reflexivity |].
    split; [now constructor | now apply denotes_repeat_class].
Qed.

Lemma denotes_at_least_class (rs : list (ascii * ascii)) (n : nat)
    (l : list ascii) :
  denotes ci (AtLeast n (Class rs)) l
  <-> (n <= List.length l)%nat
      /\ Forall (fun c => in_class ci rs c = true) l.
Proof.
  unfold AtLeast. rewrite denotes_concat. split.
  - intros [l1 [l2 [-> [H1 H2]]]]. apply denotes_times_class in H1.
    apply denotes_repeat_class in H2. destruct H1 as [Hl Hf].
    rewrite length_app. split; [lia | now apply Forall_app].
  - intros [Hlen Hf]. exists (firstn n l), (skipn n l).
    rewrite firstn_skipn. split; [reflexivity |].
    rewrite <- (firstn_skipn n l) in Hf. apply Forall_app in Hf.
    destruct Hf as [Hf1 Hf2]. split.
    + apply denotes_times_class. split; [| exact Hf1].
      rewrite length_firstn. lia.
    + now apply denotes_repeat_class.
Qed.

End Matching.

Lemma length_list_ascii_of_string (s : string) :
  List.length (list_ascii_of_string s) = String.length s.
Proof. induction s as [| c s IH]; simpl; [reflexivity | now rewrite IH]. Qed.

Lemma list_ascii_of_string_app (s1 s2 : string) :
  list_ascii_of_string (s1 ++ s2)%string
  = list_ascii_of_string s1 ++ list_ascii_of_string s2.
Proof. induction s1 as [| c s1 IH]; simpl; [reflexivity | now rewrite IH]. Qed.

Lemma in_class_upper_case (c : ascii) :
  in_class false upper_case c = true
  <-> (65 <= nat_of_ascii c <= 90)%nat.
Proof.
  unfold in_class, upper_case, in_range. cbn [existsb andb fst snd].
  change (nat_of_ascii "A") with 65%nat.
  change (nat_of_ascii "Z") with 90%nat.
  rewrite !orb_false_r, andb_true_iff, !Nat.leb_le. reflexivity.
Qed.

Lemma count_occ_outside (P : ascii -> bool) (x : ascii) (l : list ascii) :
  P x = false -> Forall (fun c => P c = true) l ->
  count_occ ascii_dec l x = 0%nat.
Proof.
  intros Hx Hl. apply count_occ_not_In. intros Hin.
  rewrite Forall_forall in Hl. specialize (Hl x Hin). congruence.
Qed.

(** The addresses [email_format] accepts, part by part. *)
Lemma email_format_parts (e : string) :
  email_format (Some e) = true
  <-> exists l d t,
      list_ascii_of_string e = l ++ "@"%char :: d ++ "."%char :: t
      /\ l <> [] /\ Forall (fun c => in_class true email_local c = true) l
      /\ d <> [] /\ Forall (fun c => in_class true email_domain c = true) d
      /\ (2 <= List.length t)%nat
      /\ Forall (fun c => in_class true email_tld c = true) t.
Proof.
  unfold email_format, check_matches, email_regex.
  rewrite matches_spec. split.
  - intros H.
    apply denotes_concat in H. destruct H as [l [r1 [E1 [Hl H]]]].
    apply denotes_concat in H. destruct H as [a [r2 [E2 [Ha H]]]].
    apply denotes_concat in H. destruct H as [d [r3 [E3 [Hd H]]]].
    apply denotes_concat in H. destruct H as [b [t [E4 [Hb Ht]]]].
    apply denotes_plus_class in Hl. apply denotes_plus_class in Hd.
    apply denotes_at_least_class in Ht.
    apply denotes_class in Ha. destruct Ha as [ca [-> Hca]].
    apply denotes_class in Hb. destruct Hb as [cb [-> Hcb]].
    assert (ca = "@"%char) as ->.
    { destruct ca as [[] [] [] [] [] [] [] []]; try discriminate Hca.
      reflexivity. }
    assert (cb = "."%char) as ->.
    { destruct cb as [[] [] [] [] [] [] [] []]; try discriminate Hcb.
      reflexivity. }
    exists l, d, t. subst. simpl. tauto.
  - intros [l [d [t [E [Hl [Hfl [Hd [Hfd [Ht Hft]]]]]]]]]. rewrite E.
    apply denotes_concat. exists l, ("@"%char :: d ++ "."%char :: t).
    split; [reflexivity |]. split; [now apply denotes_plus_class |].
    apply denotes_concat. exists ["@"%char], (d ++ "."%char :: t).
    split; [reflexivity |]. split; [now constructor |].
    apply denotes_concat. exists d, ("."%char :: t).
    split; [reflexivity |]. split; [now apply denotes_plus_class |].
    apply denotes_concat. exists ["."%char], t.
    split; [reflexivity |]. split; [now constructor |].
    now apply denotes_at_least_class.
Qed.

(** X23. The constraint [currency_check] of [projects] accepts NULL and
    exactly the strings of three capital ASCII letters; in particular
    the column default ['USD'], and no lower-case code. *)
Theorem currency_check_three_capitals (currency : option string) :
  currency_check currency = true
  <-> match currency with
      | None => True
      | Some s =>
          String.length s = 3%nat
          /\ Forall (fun c => (65 <= nat_of_ascii c <= 90)%nat)
               (list_ascii_of_string s)
      end.
Proof.
  destruct currency as [s |]; [| simpl; tauto].
  unfold currency_check, check_matches.
  rewrite matches_spec, denotes_times_class, length_list_ascii_of_string.
  rewrite !Forall_forall.
  split; intros [Hl Hf]; (split; [exact Hl |]); intros c Hc;
    apply in_class_upper_case; now apply Hf.
Qed.

(** X24. An address accepted by the constraint [email_format] of
    [customers] has exactly one at sign and at least six characters,
    and stays accepted when a vertical bar is appended: the bracket
    expression [[A-Z|a-z]] counts the bar among the letters of the last
    label. *)
Theorem email_format_accepts (e : string) :
  email_format (Some e) = true ->
  count_occ ascii_dec (list_ascii_of_string e) "@"%char = 1%nat
  /\ (6 <= String.length e)%nat
  /\ email_format (Some (e ++ "|")%string) = true.
Proof.
  intros H. pose proof H as Hp. apply email_format_parts in Hp.
  destruct Hp as [l [d [t [E [Hl [Hfl [Hd [Hfd [Ht Hft]]]]]]]]].
  split; [| split].
  - rewrite E, count_occ_app. simpl.
    rewrite count_occ_app. simpl.
    rewrite (count_occ_outside (in_class true email_local) "@"%char l
               eq_refl Hfl).
    rewrite (count_occ_outside (in_class true email_domain) "@"%char d
               eq_refl Hfd).
    rewrite (count_occ_outside (in_class true email_tld) "@"%char t
               eq_refl Hft).
    reflexivity.
  - rewrite <- length_list_ascii_of_string, E.
    rewrite length_app. simpl. rewrite length_app. simpl.
    destruct l; [congruence |]. destruct d; [congruence |]. simpl. lia.
  - apply email_format_parts. exists l, d, (t ++ ["|"%char]).
    rewrite list_ascii_of_string_app, E. simpl.
    rewrite <- !app_assoc. simpl. rewrite <- !app_assoc. simpl.
    repeat split; try assumption.
    + rewrite length_app. simpl. lia.
    + apply Forall_app. split; [exact Hft |]. now repeat constructor.
Qed.

Lemma email_format_accepts_witness :
  count_occ ascii_dec (list_ascii_of_string "ada@example.com") "@"%char
  = 1%nat
  /\ (6 <= String.length "ada@example.com")%nat
  /\ email_format (Some ("ada@example.com" ++ "|")%string) = true.
Proof. apply (email_format_accepts "ada@example.com"). reflexivity. Defined.

(* ------------------------------------------------------------------ *)
(** ** Dashboard.jsx: the three fetches together *)
(* ------------------------------------------------------------------ *)

(** The tasks are the three fetches: run on its own, each task is the
    fetch as modelled above. *)
Lemma run_fetchStats_task (supabase : backend) (projectId : uuid)
    (w : world Dashboard) :
  run_task supabase (fetchStats_task projectId) w
  = fetchStats supabase projectId w.
Proof. reflexivity. Qed.

Lemma run_fetchRecentTransactions_task (supabase : backend)
    (projectId : uuid) (w : world Dashboard) :
  run_task supabase (fetchRecentTransactions_task projectId) w
  = fetchRecentTransactions supabase projectId w.
Proof. reflexivity. Qed.

Lemma run_fetchChartData_task (LocalTime UTC : Z -> Z)
    (toLocaleDateString : Z -> string) (supabase : backend)
    (projectId : uuid) (now : Z) (w : world Dashboard) :
  run_task supabase
    (fetchChartData_task LocalTime UTC toLocaleDateString projectId now) w
  = fetchChartData LocalTime UTC toLocaleDateString supabase projectId now
      w.
Proof. reflexivity. Qed.

Lemma nth_error_update_nth {A : Type} (a : A) (l : list A) :
  forall i j,
    nth_error (update_nth i a l) j
    = if Nat.eqb i j
      then match nth_error l j with Some _ => Some a | None => None end
      else nth_error l j.
Proof.
  induction l as [| x l IH]; intros [| i] [| j]; simpl; auto.
  now destruct (Nat.eqb i j).
Qed.

Lemma In_update_nth {A : Type} (a x : A) (l : list A) :
  forall i, In x l -> nth_error l i <> Some x -> In x (update_nth i a l).
Proof.
  induction l as [| y l IH]; intros i Hin Hn; [destruct Hin |].
  destruct i as [| i]; simpl in *.
  - destruct Hin as [-> | Hin]; [congruence | now right].
  - destruct Hin as [-> | Hin]; [now left | right; now apply IH].
Qed.

(** *** [Promise.all] *)

Lemma Promise_all_Throw (ps : list promise) (e : js_error) :
  Promise_all ps = Some (Throw e) -> In (Done (Throw e)) ps.
Proof.
  induction ps as [| [t | [u | e']] ps IH]; simpl; try discriminate.
  - destruct (Promise_all ps) as [[] |]; try discriminate.
    intros [= <-]. right. now apply IH.
  - intros H. right. now apply IH.
  - intros [= <-]. now left.
Qed.

Lemma Promise_all_Normal (ps : list promise) (u : unit) :
  Promise_all ps = Some (Normal u)
  -> existsb rejected_promise ps = false
     /\ forallb settled_promise ps = true.
Proof.
  induction ps as [| [t | [u' | e']] ps IH]; simpl; try discriminate; auto.
  destruct (Promise_all ps) as [[] |]; discriminate.
Qed.

Lemma rejected_In (ps : list promise) :
  existsb rejected_promise ps = true
  <-> exists e, In (Done (Throw e)) ps.
Proof.
  rewrite existsb_exists. split.
  - intros [[t | [u | e]] [Hin H]]; try discriminate. eauto.
  - intros [e H]. exists (Done (Throw e)). auto.
Qed.

Lemma Promise_all_pending (ps : list promise) :
  Promise_all ps = None
  -> existsb rejected_promise ps = false
     /\ forallb settled_promise ps = false.
Proof.
  induction ps as [| [t | [u | e]] ps IH]; simpl; try discriminate; auto.
  destruct (Promise_all ps) as [[u | e] |] eqn:E; try discriminate.
  - intros _. split; [| reflexivity].
    now apply (Promise_all_Normal ps u).
  - intros _. split; [| reflexivity]. now apply IH.
Qed.

Lemma Promise_all_None (ps : list promise) :
  Promise_all ps = None
  <-> existsb rejected_promise ps = false
      /\ forallb settled_promise ps = false.
Proof.
  split; [apply Promise_all_pending |]. intros [Hr Hs].
  destruct (Promise_all ps) as [[u | e] |] eqn:E; [| | reflexivity].
  - apply Promise_all_Normal in E. destruct E. congruence.
  - apply Promise_all_Throw in E.
    assert (existsb rejected_promise ps = true)
      by (apply rejected_In; eauto).
    congruence.
Qed.

(** *** Tasks *)

Section Tasks.

Variable supabase : backend.

Lemma run_task_outcome (t : task) :
  forall w,
    fst (run_task supabase t w) = erase (outcome supabase t)
    /\ component (snd (run_task supabase t w))
       = apply_outcome (outcome supabase t) (component w)
    /\ console (snd (run_task supabase t w)) = console w.
Proof.
  induction t as [f | q k IH | q k IH | q k IH]; intros w; simpl;
    [auto | | |]; unfold bind, await.
  - destruct (query_transactions supabase q) as [d e | r]; simpl;
      [exact (IH _ _) | auto].
  - destruct (query_customers supabase q) as [d e | r]; simpl;
      [exact (IH _ _) | auto].
  - destruct (query_subscriptions supabase q) as [d e | r]; simpl;
      [exact (IH _ _) | auto].
Qed.

Lemma call_spec (t : task) (w : world Dashboard) :
  console (snd (call t w)) = console w
  /\ awaited supabase (fst (call t w)) = due supabase t
  /\ match fst (call t w) with
     | Pending t' =>
         outcome supabase t' = outcome supabase t
         /\ component (snd (call t w)) = component w
     | Done c =>
         c = erase (outcome supabase t)
         /\ component (snd (call t w))
            = apply_outcome (outcome supabase t) (component w)
     end.
Proof. destruct t; simpl; auto. Qed.

Lemma deliver_spec (t : task) (w : world Dashboard) :
  console (snd (deliver supabase t w)) = console w
  /\ awaited supabase (fst (deliver supabase t w))
     = pred (awaited supabase (Pending t))
  /\ match fst (deliver supabase t w) with
     | Pending t' =>
         outcome supabase t' = outcome supabase t
         /\ component (snd (deliver supabase t w)) = component w
     | Done c =>
         c = erase (outcome supabase t)
         /\ component (snd (deliver supabase t w))
            = apply_outcome (outcome supabase t) (component w)
     end.
Proof.
  destruct t as [f | q k | q k | q k]; simpl; [auto | | |]; unfold resume.
  - destruct (query_transactions supabase q) as [d e | r]; simpl;
      [apply call_spec | auto].
  - destruct (query_customers supabase q) as [d e | r]; simpl;
      [apply call_spec | auto].
  - destruct (query_subscriptions supabase q) as [d e | r]; simpl;
      [apply call_spec | auto].
Qed.

Lemma awaited_pending (t : task) : (1 <= awaited supabase (Pending t))%nat.
Proof. destruct t; simpl; lia. Qed.

End Tasks.

Lemma react_promises (s : fetching) : f_promises (react s) = f_promises s.
Proof.
  unfold react. destruct (f_awaiting s); [| reflexivity].
  now destruct (Promise_all (f_promises s)).
Qed.

Lemma react_fields (s : fetching) :
  d_stats (component (f_world (react s)))
  = d_stats (component (f_world s))
  /\ d_recentTransactions (component (f_world (react s)))
     = d_recentTransactions (component (f_world s))
  /\ d_chartData (component (f_world (react s)))
     = d_chartData (component (f_world s)).
Proof.
  unfold react. destruct (f_awaiting s); [| auto].
  destruct (Promise_all (f_promises s)) as [[u | e] |]; cbn; auto.
Qed.

(** The loading flag and the log when an answer has arrived for a
    pending promise. *)
Lemma react_after_arrival (w0 : world Dashboard) (s : fetching) (i : nat)
    (t : task) (p : promise) (w' : world Dashboard) :
  nth_error (f_promises s) i = Some (Pending t) ->
  console w' = console (f_world s) ->
  d_loading (component w') = d_loading (component (f_world s)) ->
  loading_ok w0 s ->
  loading_ok w0
    (react {| f_world := w';
              f_promises := update_nth i p (f_promises s);
              f_awaiting := f_awaiting s |}).
Proof.
  intros Hn Hc Hl [Ha [Hload [log [Hlog Hlogged]]]].
  assert (Hkeep : forall e, In (Done (Throw e)) (f_promises s) ->
                            In (Done (Throw e))
                              (update_nth i p (f_promises s))).
  { intros e He. apply In_update_nth; [exact He |]. rewrite Hn.
    discriminate. }
  assert (Hpend : forallb settled_promise (f_promises s) = false).
  { destruct (forallb settled_promise (f_promises s)) eqn:E;
      [| reflexivity].
    rewrite forallb_forall in E. apply nth_error_In in Hn.
    now apply E in Hn. }
  unfold loading_ok, react. cbn [f_awaiting f_promises f_world].
  destruct (f_awaiting s) eqn:Eaw.
  - destruct (Promise_all (f_promises s)) as [c |] eqn:Eall;
      [discriminate |].
    apply Promise_all_None in Eall. destruct Eall as [Hrej _].
    unfold logged in Hlogged. rewrite Hrej in Hlogged. subst log.
    rewrite app_nil_r in Hlog.
    destruct (Promise_all (update_nth i p (f_promises s)))
      as [[u | e] |] eqn:Enew; cbn [f_awaiting f_promises f_world].
    + rewrite Enew. split; [reflexivity |]. split; [reflexivity |].
      exists []. split; [cbn; rewrite app_nil_r; congruence |].
      unfold logged. apply Promise_all_Normal in Enew.
      destruct Enew as [-> _]. reflexivity.
    + rewrite Enew. split; [reflexivity |]. split; [reflexivity |].
      exists [("Error fetching dashboard data:", e)].
      split; [cbn; congruence |].
      apply Promise_all_Throw in Enew. unfold logged.
      assert (Hr : existsb rejected_promise
                     (update_nth i p (f_promises s)) = true)
        by (apply rejected_In; eauto).
      rewrite Hr. eauto.
    + rewrite Enew. split; [reflexivity |]. split; [congruence |].
      exists []. split; [rewrite app_nil_r; congruence |].
      unfold logged. apply Promise_all_None in Enew.
      destruct Enew as [-> _]. reflexivity.
  - destruct (Promise_all (f_promises s)) as [[u | e] |] eqn:Eall;
      [| | discriminate].
    + apply Promise_all_Normal in Eall. destruct Eall. congruence.
    + apply Promise_all_Throw in Eall.
      assert (Hr : existsb rejected_promise (f_promises s) = true)
        by (apply rejected_In; eauto).
      assert (Hr' : existsb rejected_promise
                      (update_nth i p (f_promises s)) = true)
        by (apply rejected_In; eauto).
      unfold logged in Hlogged. rewrite Hr in Hlogged.
      destruct Hlogged as [e' [-> He']].
      cbn [f_awaiting f_promises f_world].
      destruct (Promise_all (update_nth i p (f_promises s))) eqn:Enew.
      * split; [reflexivity |]. split; [congruence |].
        exists [("Error fetching dashboard data:", e')].
        split; [congruence |]. unfold logged. rewrite Hr'. eauto.
      * apply Promise_all_None in Enew. destruct Enew. congruence.
Qed.

(** *** The parts of the state the three tasks set *)

Lemma sets_stats (o : completion (Dashboard -> Dashboard)) :
  sets with_stats o ->
  forall d,
    d_recentTransactions (apply_outcome o d) = d_recentTransactions d
    /\ d_chartData (apply_outcome o d) = d_chartData d
    /\ d_loading (apply_outcome o d) = d_loading d
    /\ forall d0, d_stats d = d_stats d0 ->
                  d_stats (apply_outcome o d)
                  = d_stats (apply_outcome o d0).
Proof.
  intros H d. destruct o as [f | e]; simpl; [| auto].
  destruct (H f eq_refl) as [a Ha]. rewrite !Ha. simpl.
  repeat split. intros d0 _. now rewrite Ha.
Qed.

Lemma sets_recentTransactions (o : completion (Dashboard -> Dashboard)) :
  sets with_recentTransactions o ->
  forall d,
    d_stats (apply_outcome o d) = d_stats d
    /\ d_chartData (apply_outcome o d) = d_chartData d
    /\ d_loading (apply_outcome o d) = d_loading d
    /\ forall d0, d_recentTransactions d = d_recentTransactions d0 ->
                  d_recentTransactions (apply_outcome o d)
                  = d_recentTransactions (apply_outcome o d0).
Proof.
  intros H d. destruct o as [f | e]; simpl; [| auto].
  destruct (H f eq_refl) as [a Ha]. rewrite !Ha. simpl.
  repeat split. intros d0 _. now rewrite Ha.
Qed.

Lemma sets_chartData (o : completion (Dashboard -> Dashboard)) :
  sets with_chartData o ->
  forall d,
    d_stats (apply_outcome o d) = d_stats d
    /\ d_recentTransactions (apply_outcome o d) = d_recentTransactions d
    /\ d_loading (apply_outcome o d) = d_loading d
    /\ forall d0, d_chartData d = d_chartData d0 ->
                  d_chartData (apply_outcome o d)
                  = d_chartData (apply_outcome o d0).
Proof.
  intros H d. destruct o as [f | e]; simpl; [| auto].
  destruct (H f eq_refl) as [a Ha]. rewrite !Ha. simpl.
  repeat split. intros d0 _. now rewrite Ha.
Qed.

Lemma slot_frame {A : Type} (supabase : backend) (get : Dashboard -> A)
    (o : completion (Dashboard -> Dashboard)) (d0 d d' : Dashboard)
    (p : promise) :
  get d' = get d ->
  slot_ok supabase get o d0 d p -> slot_ok supabase get o d0 d' p.
Proof. intros E. destruct p; simpl; rewrite E; auto. Qed.

Lemma slot_step {A : Type} (supabase : backend) (get : Dashboard -> A)
    (o : completion (Dashboard -> Dashboard)) (d0 : Dashboard) (t : task)
    (w : world Dashboard) :
  (forall d, get d = get d0 ->
             get (apply_outcome o d) = get (apply_outcome o d0)) ->
  slot_ok supabase get o d0 (component w) (Pending t) ->
  slot_ok supabase get o d0 (component (snd (deliver supabase t w)))
    (fst (deliver supabase t w)).
Proof.
  intros Hset [Ho Hget].
  destruct (deliver_spec supabase t w) as [_ [_ Hd]].
  destruct (fst (deliver supabase t w)) as [t' | c]; simpl.
  - destruct Hd as [Ho' ->]. split; congruence.
  - destruct Hd as [-> ->]. rewrite Ho. split; [reflexivity |].
    now apply Hset.
Qed.

Lemma deliver_component (supabase : backend) (t : task)
    (w : world Dashboard) :
  component (snd (deliver supabase t w)) = component w
  \/ component (snd (deliver supabase t w))
     = apply_outcome (outcome supabase t) (component w).
Proof.
  destruct (deliver_spec supabase t w) as [_ [_ Hd]].
  destruct (fst (deliver supabase t w)); tauto.
Qed.

Lemma slots_react (supabase : backend)
    (o0 o1 o2 : completion (Dashboard -> Dashboard)) (d0 : Dashboard)
    (s : fetching) :
  slots_ok supabase o0 o1 o2 d0 s -> slots_ok supabase o0 o1 o2 d0 (react s).
Proof.
  intros [p0 [p1 [p2 [Hps [S0 [S1 S2]]]]]].
  destruct (react_fields s) as [F0 [F1 F2]].
  exists p0, p1, p2. rewrite react_promises.
  split; [exact Hps |].
  split; [exact (slot_frame _ _ _ _ _ _ _ F0 S0) |].
  split; [exact (slot_frame _ _ _ _ _ _ _ F1 S1) |].
  exact (slot_frame _ _ _ _ _ _ _ F2 S2).
Qed.

(** One arrival keeps what is known of the state. *)
Lemma arrive_ok (supabase : backend)
    (o0 o1 o2 : completion (Dashboard -> Dashboard)) (w0 : world Dashboard)
    (i : nat) (s : fetching) :
  sets with_stats o0 -> sets with_recentTransactions o1 ->
  sets with_chartData o2 ->
  slots_ok supabase o0 o1 o2 (component w0) s /\ loading_ok w0 s ->
  slots_ok supabase o0 o1 o2 (component w0) (arrive supabase i s)
  /\ loading_ok w0 (arrive supabase i s).
Proof.
  intros H0 H1 H2 [HS HL]. pose proof HS as HS'.
  destruct HS' as [p0 [p1 [p2 [Hps [S0 [S1 S2]]]]]].
  unfold arrive.
  destruct (nth_error (f_promises s) i) as [[t | c] |] eqn:En;
    [| now split | now split].
  pose proof (deliver_spec supabase t (f_world s)) as [Hcon _].
  pose proof (deliver_component supabase t (f_world s)) as Hcomp.
  pose proof (sets_stats o0 H0 (component (f_world s)))
    as [A1 [A2 [A3 _]]].
  pose proof (sets_recentTransactions o1 H1 (component (f_world s)))
    as [B1 [B2 [B3 _]]].
  pose proof (sets_chartData o2 H2 (component (f_world s)))
    as [C1 [C2 [C3 _]]].
  pose proof (slot_step supabase d_stats o0 (component w0) t (f_world s)
                (fun d => proj2 (proj2 (proj2 (sets_stats o0 H0 d)))
                            (component w0))) as N0.
  pose proof (slot_step supabase d_recentTransactions o1 (component w0) t
                (f_world s)
                (fun d =>
                   proj2 (proj2 (proj2 (sets_recentTransactions o1 H1 d)))
                     (component w0))) as N1.
  pose proof (slot_step supabase d_chartData o2 (component w0) t
                (f_world s)
                (fun d => proj2 (proj2 (proj2 (sets_chartData o2 H2 d)))
                            (component w0))) as N2.
  destruct (deliver supabase t (f_world s)) as [p w'] eqn:Ed.
  cbn [fst snd] in Hcon, Hcomp, N0, N1, N2.
  pose proof En as En'. rewrite Hps in En'.
  destruct i as [| [| [| i]]]; simpl in En';
    [| | | destruct i; discriminate]; injection En' as E; subst.
  - specialize (N0 S0). destruct S0 as [Ho _]. rewrite Ho in Hcomp.
    assert (E1 : d_recentTransactions (component w')
                 = d_recentTransactions (component (f_world s)))
      by (destruct Hcomp as [-> | ->]; [reflexivity | exact A1]).
    assert (E2 : d_chartData (component w')
                 = d_chartData (component (f_world s)))
      by (destruct Hcomp as [-> | ->]; [reflexivity | exact A2]).
    assert (E3 : d_loading (component w')
                 = d_loading (component (f_world s)))
      by (destruct Hcomp as [-> | ->]; [reflexivity | exact A3]).
    split.
    + apply slots_react. exists p, p1, p2. cbn. rewrite Hps.
      split; [reflexivity |]. split; [exact N0 |].
      split; [exact (slot_frame _ _ _ _ _ _ _ E1 S1) |].
      exact (slot_frame _ _ _ _ _ _ _ E2 S2).
    + exact (react_after_arrival w0 s 0 t p w' En Hcon E3 HL).
  - specialize (N1 S1). destruct S1 as [Ho _]. rewrite Ho in Hcomp.
    assert (E1 : d_stats (component w') = d_stats (component (f_world s)))
      by (destruct Hcomp as [-> | ->]; [reflexivity | exact B1]).
    assert (E2 : d_chartData (component w')
                 = d_chartData (component (f_world s)))
      by (destruct Hcomp as [-> | ->]; [reflexivity | exact B2]).
    assert (E3 : d_loading (component w')
                 = d_loading (component (f_world s)))
      by (destruct Hcomp as [-> | ->]; [reflexivity | exact B3]).
    split.
    + apply slots_react. exists p0, p, p2. cbn. rewrite Hps.
      split; [reflexivity |].
      split; [exact (slot_frame _ _ _ _ _ _ _ E1 S0) |].
      split; [exact N1 |].
      exact (slot_frame _ _ _ _ _ _ _ E2 S2).
    + exact (react_after_arrival w0 s 1 t p w' En Hcon E3 HL).
  - specialize (N2 S2). destruct S2 as [Ho _]. rewrite Ho in Hcomp.
    assert (E1 : d_stats (component w') = d_stats (component (f_world s)))
      by (destruct Hcomp as [-> | ->]; [reflexivity | exact C1]).
    assert (E2 : d_recentTransactions (component w')
                 = d_recentTransactions (component (f_world s)))
      by (destruct Hcomp as [-> | ->]; [reflexivity | exact C2]).
    assert (E3 : d_loading (component w')
                 = d_loading (component (f_world s)))
      by (destruct Hcomp as [-> | ->]; [reflexivity | exact C3]).
    split.
    + apply slots_react. exists p0, p1, p. cbn. rewrite Hps.
      split; [reflexivity |].
      split; [exact (slot_frame _ _ _ _ _ _ _ E1 S0) |].
      split; [exact (slot_frame _ _ _ _ _ _ _ E2 S1) |].
      exact N2.
    + exact (react_after_arrival w0 s 2 t p w' En Hcon E3 HL).
Qed.

Lemma arrivals_ok (supabase : backend)
    (o0 o1 o2 : completion (Dashboard -> Dashboard)) (w0 : world Dashboard)
    (arrivals : list nat) :
  sets with_stats o0 -> sets with_recentTransactions o1 ->
  sets with_chartData o2 ->
  forall s,
    slots_ok supabase o0 o1 o2 (component w0) s /\ loading_ok w0 s ->
    slots_ok supabase o0 o1 o2 (component w0)
      (fold_left (fun s i => arrive supabase i s) arrivals s)
    /\ loading_ok w0
         (fold_left (fun s i => arrive supabase i s) arrivals s).
Proof.
  intros H0 H1 H2.
  induction arrivals as [| i arrivals IH]; intros s H; simpl; [exact H |].
  apply IH. now apply arrive_ok.
Qed.

(** *** Answers still awaited *)

Lemma arrive_awaited (supabase : backend) (i j : nat) (s : fetching) :
  awaited_at supabase j (arrive supabase i s)
  = if Nat.eqb i j then pred (awaited_at supabase j s)
    else awaited_at supabase j s.
Proof.
  unfold arrive, awaited_at.
  destruct (nth_error (f_promises s) i) as [[t | c] |] eqn:En.
  - pose proof (deliver_spec supabase t (f_world s)) as [_ [Hd _]].
    destruct (deliver supabase t (f_world s)) as [p w']. cbn [fst] in Hd.
    rewrite react_promises. cbn [f_promises].
    rewrite nth_error_update_nth.
    destruct (Nat.eqb_spec i j) as [<- | Hne]; [| reflexivity].
    rewrite En. exact Hd.
  - destruct (Nat.eqb_spec i j) as [<- | Hne]; [| reflexivity].
    now rewrite En.
  - destruct (Nat.eqb_spec i j) as [<- | Hne]; [| reflexivity].
    now rewrite En.
Qed.

Lemma arrivals_awaited (supabase : backend) (j : nat)
    (arrivals : list nat) :
  forall s,
    awaited_at supabase j
      (fold_left (fun s i => arrive supabase i s) arrivals s)
    = (awaited_at supabase j s - count_occ Nat.eq_dec arrivals j)%nat.
Proof.
  induction arrivals as [| i arrivals IH]; intros s; simpl; [lia |].
  rewrite IH, arrive_awaited.
  destruct (Nat.eq_dec i j) as [-> | Hne].
  - rewrite Nat.eqb_refl. lia.
  - apply Nat.eqb_neq in Hne. rewrite Hne. reflexivity.
Qed.

Lemma arrive_after_settling (supabase : backend) (i : nat) (s : fetching) :
  f_awaiting s = false ->
  f_awaiting (arrive supabase i s) = false
  /\ console (f_world (arrive supabase i s)) = console (f_world s).
Proof.
  intros Ha. unfold arrive.
  destruct (nth_error (f_promises s) i) as [[t | c] |]; auto.
  pose proof (deliver_spec supabase t (f_world s)) as [Hcon _].
  destruct (deliver supabase t (f_world s)) as [p w'].
  unfold react. cbn [f_awaiting]. rewrite Ha. cbn. auto.
Qed.

Lemma arrivals_after_settling (supabase : backend) (arrivals : list nat) :
  forall s,
    f_awaiting s = false ->
    f_awaiting (fold_left (fun s i => arrive supabase i s) arrivals s)
    = false
    /\ console
         (f_world (fold_left (fun s i => arrive supabase i s) arrivals s))
       = console (f_world s).
Proof.
  induction arrivals as [| i arrivals IH]; intros s Ha; simpl; [auto |].
  destruct (arrive_after_settling supabase i s Ha) as [Ha' Hc].
  destruct (IH _ Ha') as [IH1 IH2]. split; congruence.
Qed.

Lemma Promise_all_rejects (e : js_error) (ps : list promise) :
  forall i x,
    existsb rejected_promise ps = false ->
    nth_error ps i = Some x ->
    Promise_all (update_nth i (Done (Throw e)) ps) = Some (Throw e).
Proof.
  induction ps as [| p ps IH]; intros [| i] x Hr Hn; simpl in *;
    try discriminate; [reflexivity |].
  apply orb_false_iff in Hr. destruct Hr as [Hp Hr].
  rewrite (IH i x Hr Hn). destruct p as [t | [u | e']];
    [reflexivity | reflexivity | discriminate].
Qed.

(** A rejection that arrives while [Promise.all] is pending is logged and
    ends the wait. *)
Lemma arrive_rejected (supabase : backend) (s : fetching) (i : nat)
    (q : query) (k : response transaction_row -> task) (e : js_error) :
  nth_error (f_promises s) i = Some (Pending (AwaitTransactions q k)) ->
  query_transactions supabase q = Rejected e ->
  f_awaiting s = true ->
  Promise_all (f_promises s) = None ->
  f_awaiting (arrive supabase i s) = false
  /\ console (f_world (arrive supabase i s))
     = console (f_world s) ++ [("Error fetching dashboard data:", e)].
Proof.
  intros Hn Hq Ha Hall. unfold arrive. rewrite Hn.
  cbn [deliver]. unfold resume. rewrite Hq.
  unfold react. cbn [f_awaiting f_promises f_world]. rewrite Ha.
  apply Promise_all_None in Hall. destruct Hall as [Hr _].
  rewrite (Promise_all_rejects e _ i _ Hr Hn). cbn. auto.
Qed.

(** *** [fetchDashboardData] *)

Section Together.

Variable LocalTime : Z -> Z.
Variable UTC : Z -> Z.
Variable toLocaleDateString : Z -> string.
Variable supabase : backend.
Variable projectId : uuid.
Variable now : Z.

Local Abbreviation chart_task :=
  (fetchChartData_task LocalTime UTC toLocaleDateString projectId now).
Local Abbreviation o0 := (outcome supabase (fetchStats_task projectId)).
Local Abbreviation o1 :=
  (outcome supabase (fetchRecentTransactions_task projectId)).
Local Abbreviation o2 := (outcome supabase chart_task).
Local Abbreviation together :=
  (fetchDashboardData LocalTime UTC toLocaleDateString supabase projectId
     now).

Lemma fetchStats_task_sets : sets with_stats o0.
Proof.
  intros f. simpl.
  destruct (query_transactions supabase _); [| discriminate].
  destruct (query_customers supabase _); [| discriminate].
  destruct (query_subscriptions supabase _); [| discriminate].
  intros [= <-]. eexists. reflexivity.
Qed.

Lemma fetchRecentTransactions_task_sets : sets with_recentTransactions o1.
Proof.
  intros f. simpl.
  destruct (query_transactions supabase _); [| discriminate].
  intros [= <-]. eexists. reflexivity.
Qed.

Lemma fetchChartData_task_sets : sets with_chartData o2.
Proof.
  intros f. simpl.
  destruct (query_transactions supabase _); [| discriminate].
  intros [= <-]. eexists. reflexivity.
Qed.

Lemma fetchDashboardData_call_ok (w : world Dashboard) :
  slots_ok supabase o0 o1 o2 (component w) (together [] w)
  /\ loading_ok w (together [] w).
Proof.
  split.
  - eexists _, _, _. split; [reflexivity |]. cbn. auto 10.
  - split; [reflexivity |]. split; [reflexivity |]. exists [].
    split; [cbn; now rewrite app_nil_r | reflexivity].
Qed.

Lemma fetchDashboardData_ok (arrivals : list nat) (w : world Dashboard) :
  slots_ok supabase o0 o1 o2 (component w) (together arrivals w)
  /\ loading_ok w (together arrivals w).
Proof.
  apply arrivals_ok;
    [ apply fetchStats_task_sets | apply fetchRecentTransactions_task_sets
    | apply fetchChartData_task_sets | apply fetchDashboardData_call_ok ].
Qed.

Lemma slot_field {A : Type} (get : Dashboard -> A) (t : task)
    (w w' : world Dashboard) (p : promise) :
  slot_ok supabase get (outcome supabase t) (component w) (component w') p ->
  get (component w')
  = get (component (if settled_promise p
                    then snd (run_task supabase t w) else w))
  /\ (forall c, p = Done c -> c = fst (run_task supabase t w)).
Proof.
  destruct (run_task_outcome supabase t w) as [Hf [Hc _]].
  destruct p as [t' | c]; simpl.
  - intros [_ ->]. split; [reflexivity | discriminate].
  - intros [-> ->]. rewrite Hc. split; [reflexivity |].
    intros c [= <-]. now rewrite Hf.
Qed.

(** X25. In whatever order the answers arrive, and at every point of
    the run: each of the statistics, the recent transactions and the
    chart series holds the value it had at the call while its fetch is
    pending, and from then on the value that fetch sets when run alone;
    and the loading flag is on exactly while [Promise.all] is pending,
    so a first rejection ends loading while other fetches are still in
    flight. *)
Theorem fetchDashboardData_in_any_order (arrivals : list nat)
    (w : world Dashboard) :
  let s := together arrivals w in
  exists p0 p1 p2,
    f_promises s = [p0; p1; p2]
    /\ d_stats (component (f_world s))
       = d_stats
           (component (if settled_promise p0
                       then snd (fetchStats supabase projectId w) else w))
    /\ d_recentTransactions (component (f_world s))
       = d_recentTransactions
           (component (if settled_promise p1
                       then snd (fetchRecentTransactions supabase
                                   projectId w)
                       else w))
    /\ d_chartData (component (f_world s))
       = d_chartData
           (component (if settled_promise p2
                       then snd (fetchChartData LocalTime UTC
                                   toLocaleDateString supabase projectId
                                   now w)
                       else w))
    /\ d_loading (component (f_world s))
       = match Promise_all [p0; p1; p2] with
         | None => true
         | Some _ => false
         end.
Proof.
  intros s. subst s.
  destruct (fetchDashboardData_ok arrivals w)
    as [[p0 [p1 [p2 [Hps [S0 [S1 S2]]]]]] [Ha [Hl _]]].
  exists p0, p1, p2. split; [exact Hps |].
  split; [exact (proj1 (slot_field _ _ _ _ _ S0)) |].
  split; [exact (proj1 (slot_field _ _ _ _ _ S1)) |].
  split; [exact (proj1 (slot_field _ _ _ _ _ S2)) |].
  rewrite Hl, Ha, Hps. reflexivity.
Qed.

Lemma awaited_done (p : promise) :
  awaited supabase p = 0%nat -> exists c, p = Done c.
Proof.
  destruct p as [t | c]; [| eauto].
  pose proof (awaited_pending supabase t). lia.
Qed.

(** X26. Once three answers have arrived for [fetchStats] and one for
    each of the other two fetches, in any order and with any repeats,
    every promise is settled as its fetch settles when run alone, and
    the state is the same for every such order: each part as its fetch
    alone sets it, loading off. Nothing is logged when the three fetches
    fulfil, and otherwise exactly one error, the reason of one of the
    rejected fetches. *)
Theorem fetchDashboardData_settles (arrivals : list nat)
    (w : world Dashboard) :
  (3 <= count_occ Nat.eq_dec arrivals 0)%nat ->
  (1 <= count_occ Nat.eq_dec arrivals 1)%nat ->
  (1 <= count_occ Nat.eq_dec arrivals 2)%nat ->
  let s := together arrivals w in
  let stats := fetchStats supabase projectId w in
  let recent := fetchRecentTransactions supabase projectId w in
  let chart :=
    fetchChartData LocalTime UTC toLocaleDateString supabase projectId now
      w in
  f_promises s = [Done (fst stats); Done (fst recent); Done (fst chart)]
  /\ component (f_world s)
     = {| d_stats := d_stats (component (snd stats));
          d_recentTransactions :=
            d_recentTransactions (component (snd recent));
          d_chartData := d_chartData (component (snd chart));
          d_loading := false |}
  /\ ((fst stats = Normal tt /\ fst recent = Normal tt
       /\ fst chart = Normal tt /\ console (f_world s) = console w)
      \/ exists e,
           (fst stats = Throw e \/ fst recent = Throw e
            \/ fst chart = Throw e)
           /\ console (f_world s)
              = console w ++ [("Error fetching dashboard data:", e)]).
Proof.
  intros C0 C1 C2 s stats recent chart. subst s stats recent chart.
  destruct (fetchDashboardData_ok arrivals w)
    as [[p0 [p1 [p2 [Hps [S0 [S1 S2]]]]]] [Ha [Hl [log [Hlog Hlogged]]]]].
  pose proof (arrivals_awaited supabase 0 arrivals
                (together [] w)) as A0.
  pose proof (arrivals_awaited supabase 1 arrivals
                (together [] w)) as A1.
  pose proof (arrivals_awaited supabase 2 arrivals
                (together [] w)) as A2.
  change (fold_left (fun s i => arrive supabase i s) arrivals
            (together [] w)) with (together arrivals w) in A0, A1, A2.
  unfold awaited_at in A0, A1, A2. rewrite Hps in A0, A1, A2.
  assert (D0 : (awaited supabase (Pending (fetchStats_task projectId))
                <= 3)%nat).
  { simpl. destruct (query_transactions supabase _); [| lia].
    destruct (query_customers supabase _); [| lia].
    destruct (query_subscriptions supabase _); simpl; lia. }
  assert (D1 : (awaited supabase
                  (Pending (fetchRecentTransactions_task projectId))
                <= 1)%nat).
  { simpl. destruct (query_transactions supabase _); simpl; lia. }
  assert (D2 : (awaited supabase (Pending chart_task) <= 1)%nat).
  { simpl. destruct (query_transactions supabase _); simpl; lia. }
  change (f_promises (together [] w))
    with [Pending (fetchStats_task projectId);
          Pending (fetchRecentTransactions_task projectId);
          Pending chart_task] in A0, A1, A2.
  cbn [nth_error] in A0, A1, A2.
  destruct (awaited_done p0 ltac:(lia)) as [c0 ->].
  destruct (awaited_done p1 ltac:(lia)) as [c1 ->].
  destruct (awaited_done p2 ltac:(lia)) as [c2 ->].
  destruct (slot_field _ _ _ _ _ S0) as [F0 G0].
  destruct (slot_field _ _ _ _ _ S1) as [F1 G1].
  destruct (slot_field _ _ _ _ _ S2) as [F2 G2].
  specialize (G0 _ eq_refl). specialize (G1 _ eq_refl).
  specialize (G2 _ eq_refl). cbn [settled_promise] in F0, F1, F2.
  change (run_task supabase (fetchStats_task projectId) w)
    with (fetchStats supabase projectId w) in *.
  change (run_task supabase (fetchRecentTransactions_task projectId) w)
    with (fetchRecentTransactions supabase projectId w) in *.
  change (run_task supabase chart_task w)
    with (fetchChartData LocalTime UTC toLocaleDateString supabase
            projectId now w) in *.
  split; [rewrite Hps; congruence |].
  split.
  - rewrite Hps in Ha. rewrite Ha in Hl.
    assert (Hl' : d_loading (component (f_world (together arrivals w)))
                  = false).
    { rewrite Hl. simpl. destruct c0 as [[] | ?]; [| reflexivity].
      destruct c1 as [[] | ?]; [| reflexivity].
      destruct c2 as [[] | ?]; reflexivity. }
    destruct (component (f_world (together arrivals w))); simpl in *.
    congruence.
  - rewrite Hlog. unfold logged in Hlogged. rewrite Hps in Hlogged.
    destruct (existsb rejected_promise [Done c0; Done c1; Done c2]) eqn:Er.
    + right. destruct Hlogged as [e [-> He]]. exists e.
      split; [| reflexivity].
      destruct He as [He | [He | [He | []]]]; injection He as He;
        subst; auto.
    + left. subst log. rewrite app_nil_r. subst c0 c1 c2. simpl in Er.
      destruct (fst (fetchStats supabase projectId w)) as [[] | ?];
        [| discriminate].
      destruct (fst (fetchRecentTransactions supabase projectId w))
        as [[] | ?]; [| discriminate].
      destruct (fst (fetchChartData LocalTime UTC toLocaleDateString
                       supabase projectId now w)) as [[] | ?];
        [| discriminate].
      auto.
Qed.

(** X27. When the first answer to arrive is the rejection of the first
    query of one of the three fetches, loading is off and the log holds
    exactly this rejection, whatever arrives later: a later rejection is
    not logged. *)
Theorem fetchDashboardData_first_rejection (i : nat) (q : query)
    (k : response transaction_row -> task) (e : js_error)
    (later : list nat) (w : world Dashboard) :
  nth_error
    [fetchStats_task projectId; fetchRecentTransactions_task projectId;
     chart_task] i
  = Some (AwaitTransactions q k) ->
  query_transactions supabase q = Rejected e ->
  let s := together (i :: later) w in
  d_loading (component (f_world s)) = false
  /\ console (f_world s)
     = console w ++ [("Error fetching dashboard data:", e)].
Proof.
  intros Hn Hq s. subst s.
  destruct (fetchDashboardData_ok (i :: later) w) as [_ [_ [Hl _]]].
  apply (map_nth_error Pending) in Hn.
  destruct (arrive_rejected supabase (together [] w) i q k e Hn Hq
              eq_refl eq_refl) as [Ha Hc].
  destruct (arrivals_after_settling supabase later _ Ha) as [Ha' Hc'].
  change (fold_left (fun s i => arrive supabase i s) later
            (arrive supabase i (together [] w)))
    with (together (i :: later) w) in Ha', Hc'.
  split; [congruence |]. rewrite Hc', Hc. reflexivity.
Qed.

End Together.

Lemma fetchDashboardData_settles_witness :
  d_loading
    (component
       (f_world
          (fetchDashboardData utc_zone utc_zone
             Calendar.toLocaleDateString_enUS_utc (supabase Sample.db)
             "p1" Sample.now [2; 0; 1; 0; 0]%nat
             (mounted Dashboard_initial))))
  = false.
Proof.
  destruct (fetchDashboardData_settles utc_zone utc_zone
              Calendar.toLocaleDateString_enUS_utc (supabase Sample.db)
              "p1" Sample.now [2; 0; 1; 0; 0]%nat
              (mounted Dashboard_initial))
    as [_ [H _]]; [simpl; lia | simpl; lia | simpl; lia |].
  rewrite H. reflexivity.
Defined.

Lemma fetchDashboardData_first_rejection_witness :
  console
    (f_world
       (fetchDashboardData utc_zone utc_zone
          Calendar.toLocaleDateString_enUS_utc
          (unreachable "Failed to fetch") "p1" Sample.now [1; 0; 2]%nat
          (mounted Dashboard_initial)))
  = [("Error fetching dashboard data:", "Failed to fetch")].
Proof.
  destruct (fetchDashboardData_first_rejection utc_zone utc_zone
              Calendar.toLocaleDateString_enUS_utc
              (unreachable "Failed to fetch") "p1" Sample.now 1%nat _ _
              "Failed to fetch" [0; 2]%nat (mounted Dashboard_initial)
              eq_refl eq_refl)
    as [_ H].
  exact H.
Defined.
